(** * Adaptive traffic-signal controller: decision core

    A shallow embedding of the decision core of the traffic dashboard
    ([dashboard/test_sumo.py], [dashboard/dqn_model.py]) and the proofs of
    the properties its specification states about it.

    Numbers.  Python floats are embedded as rationals ([Q]): a literal such
    as [0.05] is the rational [5/100], arithmetic is exact, comparisons are
    the rational ones.  There is no NaN and no infinity in this model.
    Python ints that the code keeps as ints (indices, green times) are [Z].

    Exceptions.  A computation that may raise returns [result A]; a
    [try ... except] block is [try_except]. *)

From Stdlib Require Import ZArith QArith Qround List Bool Ascii String Lia Lqa.
Import ListNotations.

Set Implicit Arguments.

(** ** Python primitives *)

Module Py.

Inductive exn : Type :=
| IndexError
| ValueError
| KeyError
| NameError
| RuntimeError.

Inductive result (A : Type) : Type :=
| Ok (a : A)
| Raise (e : exn).

Arguments Ok {A} a.
Arguments Raise {A} e.

Definition bind {A B : Type} (m : result A) (k : A -> result B) : result B :=
  match m with
  | Ok a => k a
  | Raise e => Raise e
  end.

(** [try: body / except: handler] with a bare or [Exception] clause. *)
Definition try_except {A : Type} (body : result A) (handler : result A) : result A :=
  match body with
  | Ok a => Ok a
  | Raise _ => handler
  end.

Definition is_ok {A : Type} (m : result A) : bool :=
  match m with Ok _ => true | Raise _ => false end.

(** [a > b], [a < b], [a >= b] on floats. *)
Definition gt (a b : Q) : bool := negb (Qle_bool a b).
Definition lt (a b : Q) : bool := negb (Qle_bool b a).
Definition ge (a b : Q) : bool := Qle_bool b a.

(** [seq[i]] on a list or a one-dimensional array: a negative index counts
    from the end, anything outside [-len, len) raises IndexError. *)
Definition index {A : Type} (l : list A) (i : Z) : result A :=
  let len := Z.of_nat (List.length l) in
  let j := if (i <? 0)%Z then (len + i)%Z else i in
  if ((j <? 0) || (len <=? j))%Z then Raise IndexError
  else match nth_error l (Z.to_nat j) with
       | Some a => Ok a
       | None => Raise IndexError
       end.

(** [range(start, stop, step)] for a positive step. *)
Fixpoint range_fuel (fuel : nat) (start stop step : Z) : list Z :=
  match fuel with
  | O => []
  | S f => if (start <? stop)%Z
           then start :: range_fuel f (start + step) stop step
           else []
  end.

Definition range (start stop step : Z) : list Z :=
  range_fuel (Z.to_nat (stop - start)) start stop step.

(** [sum(seq[i] for i in idxs)]: the generator is consumed left to right,
    the first failing subscript aborts the sum. *)
Fixpoint sum_at (l : list Q) (idxs : list Z) (acc : Q) : result Q :=
  match idxs with
  | [] => Ok acc
  | i :: rest => bind (index l i) (fun x => sum_at l rest (acc + x))
  end.

(** [sum(l)] on a list of floats. *)
Definition sum (l : list Q) : Q := fold_left Qplus l 0.

(** The builtin [max(a, b)] keeps [a] unless [b > a]; [min(a, b)] keeps
    [a] unless [b < a]. *)
Definition max {A : Type} (gtA : A -> A -> bool) (a b : A) : A :=
  if gtA b a then b else a.
Definition min {A : Type} (ltA : A -> A -> bool) (a b : A) : A :=
  if ltA b a then b else a.

Definition maxQ : Q -> Q -> Q := max gt.
Definition minQ : Q -> Q -> Q := min lt.
Definition maxZ : Z -> Z -> Z := max Z.gtb.
Definition minZ : Z -> Z -> Z := min Z.ltb.

(** [np.argmax(l)]: index of the first occurrence of the largest entry;
    ValueError on an empty sequence. *)
Fixpoint argmax_from (best_i : nat) (best : Q) (i : nat) (l : list Q) : nat :=
  match l with
  | [] => best_i
  | x :: rest =>
      if gt x best then argmax_from i x (S i) rest
      else argmax_from best_i best (S i) rest
  end.

Definition argmax (l : list Q) : result Z :=
  match l with
  | [] => Raise ValueError
  | x :: rest => Ok (Z.of_nat (argmax_from 0 x 1 rest))
  end.

(** [np.mean(l)] on a non-empty list. *)
Definition mean (l : list Q) : Q := sum l / inject_Z (Z.of_nat (List.length l)).

(** [int(x)] on a float: truncation toward zero. *)
Definition int (x : Q) : Z := Z.quot (Qnum x) (Zpos (Qden x)).

(** [abs(x)]. *)
Definition abs (x : Q) : Q := if lt x 0 then - x else x.

(** [random.sample(population, k)]: ValueError when [k] is negative or
    larger than the population, otherwise a list of [k] of its entries.
    Which entries is left to the draw; a draw that does not have [k]
    entries is replaced by the first [k] entries, so that the result has
    the size the code asks for. *)
Definition sample {A : Type} (population : list A) (k : Z) (draw : list A)
  : result (list A) :=
  if (k <? 0)%Z || (Z.of_nat (List.length population) <? k)%Z
  then Raise ValueError
  else Ok (if (Z.of_nat (List.length draw) =? k)%Z then draw
           else firstn (Z.to_nat k) population).

(** [seq[start::step]] for a positive step. *)
Fixpoint every_nth {A : Type} (skip period : nat) (l : list A) : list A :=
  match l with
  | [] => []
  | x :: rest =>
      match skip with
      | O => x :: every_nth period period rest
      | S k => every_nth k period rest
      end
  end.

Definition slice_step {A : Type} (start step : nat) (l : list A) : list A :=
  every_nth start (Nat.pred step) l.

(** [collections.deque(maxlen=n)]: [append] adds on the right and, once the
    deque is longer than [maxlen], drops from the left. *)
Record deque (A : Type) : Type := { maxlen : Z; items : list A }.

Definition deque_new {A : Type} (n : Z) : deque A :=
  {| maxlen := n; items := [] |}.

Definition append {A : Type} (d : deque A) (x : A) : deque A :=
  let l := (items d ++ [x])%list in
  {| maxlen := maxlen d;
     items := skipn (Z.to_nat (Z.of_nat (List.length l) - maxlen d)) l |}.

Definition len {A : Type} (d : deque A) : nat := List.length (items d).

End Py.

Notation "x <- m ;; k" := (Py.bind m (fun x => k))
  (at level 61, m at next level, right associativity).
Notation "' pat <- m ;; k" := (Py.bind m (fun x => match x with pat => k end))
  (at level 61, pat pattern, m at next level, right associativity).

(** ** dashboard/test_sumo.py: action validation *)

Module Validator.
Import Py.

(** [validate_action_choice(dqn_action, traffic, congestion)]. *)
Definition validate_action_choice (dqn_action : Z) (traffic congestion : list Q)
  : result Z :=
  chosen_traffic <- index traffic dqn_action ;;
  chosen_congestion <- index congestion dqn_action ;;
  if gt chosen_traffic 0.05 || gt chosen_congestion 0.1 then Ok dqn_action
  else
    max_traffic_idx <- argmax traffic ;;
    max_congestion_idx <- argmax congestion ;;
    t <- index traffic max_traffic_idx ;;
    if gt t 0.05 then Ok max_traffic_idx
    else
      c <- index congestion max_congestion_idx ;;
      if gt c 0.1 then Ok max_congestion_idx
      else Ok dqn_action.

End Validator.

(** The validator's rule as the specification words it: four rules tried
    in order, over four thresholds.  "The direction with maximum traffic"
    is any direction no other direction exceeds. *)

Module ValidatorSpec.
Import Py.

Definition max_direction (l : list Q) (m : Z) (v : Q) : Prop :=
  (0 <= m)%Z /\ index l m = Ok v /\ forall j w, index l j = Ok w -> w <= v.

Definition none_exceeds (l : list Q) (threshold : Q) : Prop :=
  forall j w, index l j = Ok w -> w <= threshold.

(** A direction with zero traffic and zero congestion. *)
Definition idle (traffic congestion : list Q) (d : Z) : Prop :=
  exists t c, index traffic d = Ok t /\ index congestion d = Ok c
              /\ t == 0 /\ c == 0.

Section Cascade.

Variables traffic_low congestion_low traffic_override congestion_override : Q.
Variable proposal : Z.
Variables traffic congestion : list Q.

Definition proposal_active : Prop :=
  exists t c, index traffic proposal = Ok t /\ index congestion proposal = Ok c
              /\ (traffic_low < t \/ congestion_low < c).

Inductive cascade : Z -> Prop :=
| rule_accept :
    proposal_active -> cascade proposal
| rule_max_traffic m v :
    ~ proposal_active ->
    max_direction traffic m v -> traffic_override < v ->
    cascade m
| rule_max_congestion m v :
    ~ proposal_active ->
    none_exceeds traffic traffic_override ->
    max_direction congestion m v -> congestion_override < v ->
    cascade m
| rule_fall_back :
    ~ proposal_active ->
    none_exceeds traffic traffic_override ->
    none_exceeds congestion congestion_override ->
    cascade proposal.

End Cascade.

End ValidatorSpec.

(** ** dashboard/test_sumo.py: state from vehicle positions *)

Module Normalizer.
Import Py.

(** One successful pair of reads [getPosition], [getSpeed]. *)
Record vehicle : Type := { vx : Q; vy : Q; vspeed : Q }.

(** The simulator as [get_correct_traffic_state] sees it: [getIDList] either
    raises ([None]) or lists the vehicles; for each vehicle the reads either
    raise ([None], the vehicle is skipped) or give position and speed. *)
Definition snapshot : Type := option (list (option vehicle)).

(** The eight locals the loop over the vehicles updates. *)
Record tally : Type := {
  north_bound : Z; south_bound : Z; east_bound : Z; west_bound : Z;
  north_speeds : list Q; south_speeds : list Q;
  east_speeds : list Q; west_speeds : list Q
}.

Definition tally0 : tally :=
  {| north_bound := 0; south_bound := 0; east_bound := 0; west_bound := 0;
     north_speeds := []; south_speeds := []; east_speeds := []; west_speeds := [] |}.

(** Body of the [for veh_id in vehicles] loop. *)
Definition count_vehicle (t : tally) (r : option vehicle) : tally :=
  match r with
  | None => t
  | Some v =>
      let x := vx v in
      let y := vy v in
      let speed := vspeed v in
      if gt y 25 then
        {| north_bound := north_bound t + 1; south_bound := south_bound t;
           east_bound := east_bound t; west_bound := west_bound t;
           north_speeds := north_speeds t ++ [speed]; south_speeds := south_speeds t;
           east_speeds := east_speeds t; west_speeds := west_speeds t |}
      else if lt y (-25) then
        {| north_bound := north_bound t; south_bound := south_bound t + 1;
           east_bound := east_bound t; west_bound := west_bound t;
           north_speeds := north_speeds t; south_speeds := south_speeds t ++ [speed];
           east_speeds := east_speeds t; west_speeds := west_speeds t |}
      else if gt x 25 then
        {| north_bound := north_bound t; south_bound := south_bound t;
           east_bound := east_bound t + 1; west_bound := west_bound t;
           north_speeds := north_speeds t; south_speeds := south_speeds t;
           east_speeds := east_speeds t ++ [speed]; west_speeds := west_speeds t |}
      else if lt x (-25) then
        {| north_bound := north_bound t; south_bound := south_bound t;
           east_bound := east_bound t; west_bound := west_bound t + 1;
           north_speeds := north_speeds t; south_speeds := south_speeds t;
           east_speeds := east_speeds t; west_speeds := west_speeds t ++ [speed] |}
      else t
  end.

Definition count_vehicles (vehicles : list (option vehicle)) : tally :=
  fold_left count_vehicle vehicles tally0.

(** The local helper [get_congestion(speeds)]. *)
Definition get_congestion (speeds : list Q) : Q :=
  match speeds with
  | [] => 0
  | _ => inject_Z (Z.of_nat (List.length (filter (fun s => lt s 2.0) speeds)))
         / inject_Z (Z.of_nat (List.length speeds))
  end.

(** [min(n / 10.0, 1.0)]. *)
Definition normalized_count (n : Z) : Q := minQ (inject_Z n / 10.0) 1.0.

(** [np.mean(speeds) / 15.0 if speeds else 0]. *)
Definition normalized_speed (speeds : list Q) : Q :=
  match speeds with
  | [] => 0
  | _ => mean speeds / 15.0
  end.

Definition zeros (n : nat) : list Q := repeat 0 n.

(** [get_correct_traffic_state()]. *)
Definition get_correct_traffic_state (snap : snapshot) : list Q :=
  match snap with
  | None => zeros 12
  | Some vehicles =>
      let t := count_vehicles vehicles in
      [ normalized_count (north_bound t);
        get_congestion (north_speeds t);
        normalized_speed (north_speeds t);
        normalized_count (south_bound t);
        get_congestion (south_speeds t);
        normalized_speed (south_speeds t);
        normalized_count (east_bound t);
        get_congestion (east_speeds t);
        normalized_speed (east_speeds t);
        normalized_count (west_bound t);
        get_congestion (west_speeds t);
        normalized_speed (west_speeds t) ]
  end.

(** The range every normalised feature is declared to have. *)
Definition unit_interval (x : Q) : Prop := 0 <= x /\ x <= 1.

(** What the loop over the vehicles maintains: the counters do not go
    negative, and every recorded speed is the speed of a vehicle whose
    reads succeeded. *)
Definition tally_ok (P : Q -> Prop) (t : tally) : Prop :=
  (0 <= north_bound t)%Z /\ (0 <= south_bound t)%Z /\
  (0 <= east_bound t)%Z /\ (0 <= west_bound t)%Z /\
  Forall P (north_speeds t) /\ Forall P (south_speeds t) /\
  Forall P (east_speeds t) /\ Forall P (west_speeds t).

(** Every vehicle whose reads succeed reports a speed in [lo, hi]. *)
Definition speeds_within (lo hi : Q) (snap : snapshot) : Prop :=
  match snap with
  | None => True
  | Some vehicles =>
      forall v, In (Some v) vehicles -> lo <= vspeed v /\ vspeed v <= hi
  end.

End Normalizer.

(** ** dashboard/test_sumo.py: green time *)

Module Scheduler.
Import Py.

(** [calculate_adaptive_duration(action, traffic, congestion, speeds,
    min_time, max_time, default_time)]; the three times are ints, as the
    control loop passes them. *)
Definition calculate_adaptive_duration (action : Z) (traffic congestion speeds : list Q)
    (min_time max_time default_time : Z) : result Z :=
  direction_traffic <- index traffic action ;;
  direction_congestion <- index congestion action ;;
  direction_speed <- index speeds action ;;
  let base_duration :=
    if gt direction_traffic 0.7 || gt direction_congestion 0.6 then max_time
    else if gt direction_traffic 0.3 || gt direction_congestion 0.3
         then ((min_time + max_time) / 2)%Z
    else if gt direction_traffic 0.05 then default_time
    else min_time in
  let base_duration :=
    if gt direction_speed 0.7
    then maxZ min_time (int (inject_Z base_duration * 0.8))
    else if lt direction_speed 0.3 && gt direction_traffic 0.1
    then minZ max_time (int (inject_Z base_duration * 1.2))
    else base_duration in
  Ok (maxZ min_time (minZ base_duration max_time)).

End Scheduler.

(** ** dashboard/test_sumo.py: signal pattern and combined choice *)

Module Actuation.
Import Py.

(** The table [action_to_phase]; a key outside it is a KeyError, which the
    callers treat like any other exception. *)
Definition action_to_phase (action : Z) : result string :=
  match action with
  | 0%Z => Ok "GGGrrrrrrrrr"%string
  | 1%Z => Ok "rrrrrrGGGrrr"%string
  | 2%Z => Ok "rrrGGGrrrrrr"%string
  | 3%Z => Ok "rrrrrrrrrGGG"%string
  | _ => Raise KeyError
  end.

(** [[state[i] for i in idxs]]. *)
Fixpoint gather (state : list Q) (idxs : list Z) : result (list Q) :=
  match idxs with
  | [] => Ok []
  | i :: rest =>
      x <- index state i ;;
      xs <- gather state rest ;;
      Ok (x :: xs)
  end.

(** [apply_intelligent_action(action, state)]. *)
Definition apply_intelligent_action (action : Z) (state : list Q)
  : result string :=
  direction_traffic <- gather state [0; 3; 6; 9]%Z ;;
  direction_congestion <- gather state [1; 4; 7; 10]%Z ;;
  t <- index direction_traffic action ;;
  c <- index direction_congestion action ;;
  if gt t 0.1 || gt c 0.2 then action_to_phase action
  else
    max_traffic_dir <- argmax direction_traffic ;;
    m <- index direction_traffic max_traffic_dir ;;
    if gt m 0.05 then action_to_phase max_traffic_dir
    else action_to_phase action.

(** [choose_intelligent_action_and_duration(agent, state, min_time,
    max_time, default_time)]; [dqn_action] is what [agent.act(state)]
    returned. *)
Definition choose_intelligent_action_and_duration (dqn_action : Z) (state : list Q)
    (min_time max_time default_time : Z) : result (Z * Z) :=
  direction_traffic <- gather state [0; 3; 6; 9]%Z ;;
  direction_congestion <- gather state [1; 4; 7; 10]%Z ;;
  direction_speeds <- gather state [2; 5; 8; 11]%Z ;;
  chosen_action <-
    Validator.validate_action_choice dqn_action direction_traffic direction_congestion ;;
  duration <-
    Scheduler.calculate_adaptive_duration chosen_action direction_traffic
      direction_congestion direction_speeds min_time max_time default_time ;;
  Ok (chosen_action, duration).

End Actuation.

(** ** dashboard/test_sumo.py: rewards *)

Module Reward.
Import Py.
Import Actuation.

(** The five terms [calculate_smart_reward] adds up, under the names of its
    local variables. *)
Record smart_terms : Type := {
  clearance_reward : Q;
  congestion_reward : Q;
  efficiency_reward : Q;
  speed_reward : Q;
  congestion_penalty : Q
}.

Definition smart_total (t : smart_terms) : Q :=
  clearance_reward t + congestion_reward t + efficiency_reward t
  + speed_reward t + congestion_penalty t.

Definition smart_reward_terms (prev_state current_state : list Q) (action : Z)
  : result smart_terms :=
  prev_traffic <- gather prev_state [0; 3; 6; 9]%Z ;;
  curr_traffic <- gather current_state [0; 3; 6; 9]%Z ;;
  prev_congestion <- gather prev_state [1; 4; 7; 10]%Z ;;
  curr_congestion <- gather current_state [1; 4; 7; 10]%Z ;;
  curr_speeds <- gather current_state [2; 5; 8; 11]%Z ;;
  let total_prev_traffic := sum prev_traffic in
  let total_curr_traffic := sum curr_traffic in
  let total_prev_congestion := sum prev_congestion in
  let total_curr_congestion := sum curr_congestion in
  chosen_direction_traffic <- index curr_traffic action ;;
  chosen_direction_congestion <- index curr_congestion action ;;
  Ok {| clearance_reward := (total_prev_traffic - total_curr_traffic) * 5.0;
        congestion_reward := (total_prev_congestion - total_curr_congestion) * 3.0;
        efficiency_reward :=
          if gt chosen_direction_traffic 0.1 || gt chosen_direction_congestion 0.2
          then 2.0
          else if gt chosen_direction_traffic 0.05 then 1.0
          else - 1.0;
        speed_reward := mean curr_speeds * 2.0;
        congestion_penalty := - sum curr_congestion * 2.0 |}.

(** [calculate_smart_reward(prev_state, current_state, action)]. *)
Definition calculate_smart_reward (prev_state current_state : list Q) (action : Z)
  : result Q :=
  t <- smart_reward_terms prev_state current_state action ;;
  Ok (smart_total t).

(** Block 2 of [calculate_comprehensive_reward]: the congestion reward,
    with its [try ... except: pass]. *)
Definition comprehensive_congestion_reward (prev_state current_state : list Q) : Q :=
  match sum_at prev_state (range 1 16 4) 0 with
  | Raise _ => 0
  | Ok total_halting_prev =>
      match sum_at current_state (range 1 16 4) 0 with
      | Raise _ => 0
      | Ok total_halting_curr =>
          if lt total_halting_curr total_halting_prev
          then (total_halting_prev - total_halting_curr) * 3.0
          else (total_halting_prev - total_halting_curr) * 1.0
      end
  end.

(** Block 3: the speed reward. *)
Definition comprehensive_speed_reward (current_state : list Q) : Q :=
  match sum_at current_state (range 2 16 4) 0 with
  | Raise _ => 0
  | Ok s => (s / 4) * 2.0
  end.

(** Block 5: the emergency reward; [priority_action] is what
    [get_emergency_priority_action()] returns ([None] for Python's None). *)
Definition comprehensive_emergency_reward (current_state : list Q) (action : Z)
    (priority_action : option Z) : Q :=
  if (18 <? List.length current_state)%nat then
    match index current_state 18 with
    | Raise _ => 0
    | Ok emergency_count =>
        if gt emergency_count 0
           && match priority_action with
              | Some a => (action =? a)%Z
              | None => false
              end
        then 5.0 else 0
    end
  else 0.

(** [calculate_comprehensive_reward(prev_state, current_state, action,
    phase_duration)]; [throughput_reward] is the outcome of block 1, which
    only reads the simulator. *)
Definition calculate_comprehensive_reward (throughput_reward : Q)
    (priority_action : option Z) (prev_state current_state : list Q)
    (action : Z) (phase_duration : Q) : result Q :=
  let congestion_reward := comprehensive_congestion_reward prev_state current_state in
  let speed_reward := comprehensive_speed_reward current_state in
  let efficiency_reward :=
    if ge phase_duration 5 && ge 45 phase_duration then 1.0 else - 0.5 in
  let emergency_reward :=
    comprehensive_emergency_reward current_state action priority_action in
  s <- sum_at current_state (range 1 16 4) 0 ;;
  let queue_penalty := - s * 0.5 in
  Ok (throughput_reward + congestion_reward + speed_reward
      + efficiency_reward + emergency_reward + queue_penalty).

(** "Total congestion" of a state in the twelve-feature layout: the four
    directions' congestion features; a missing feature counts as 0. *)
Definition total_congestion (state : list Q) : Q :=
  nth 1 state 0 + nth 4 state 0 + nth 7 state 0 + nth 10 state 0.

(** The halting total of [calculate_comprehensive_reward]: the features at
    the positions of [range(1, 16, 4)]. *)
Definition total_halting (state : list Q) : Q :=
  nth 1 state 0 + nth 5 state 0 + nth 9 state 0 + nth 13 state 0.

End Reward.

(** ** dashboard/dqn_model.py: the agents *)

Module Agent.
Import Py.

(** [(state, action, reward, next_state, done)]. *)
Definition transition : Type := (list Q * Z * Q * list Q * bool)%type.

Section Agents.

(** The network with its optimiser, and the two ways the agents update it:
    one sample at a time ([replay]) and one clipped step on a whole batch
    ([enhanced_replay]).  Both take the discount [gamma]; either returns
    the updated network or raises what torch raises, leaving the network as
    it was. *)
Variable network : Type.
Variable fit_sample : network -> Q -> transition -> result network.
Variable fit_batch : network -> Q -> list transition -> result network.

(** Attributes set by [DQNAgent.__init__]. *)
Record DQNAgent : Type := {
  state_size : Z;
  action_size : Z;
  memory : deque transition;
  gamma : Q;
  epsilon : Q;
  epsilon_min : Q;
  epsilon_decay : Q;
  learning_rate : Q;
  model : network
}.

Definition DQNAgent_init (net0 : network) (state_size action_size : Z) : DQNAgent :=
  {| state_size := state_size;
     action_size := action_size;
     memory := deque_new 2000;
     gamma := 0.95;
     epsilon := 1.0;
     epsilon_min := 0.01;
     epsilon_decay := 0.995;
     learning_rate := 0.001;
     model := net0 |}.

Definition set_memory (a : DQNAgent) (m : deque transition) : DQNAgent :=
  {| state_size := state_size a; action_size := action_size a; memory := m;
     gamma := gamma a; epsilon := epsilon a; epsilon_min := epsilon_min a;
     epsilon_decay := epsilon_decay a; learning_rate := learning_rate a;
     model := model a |}.

Definition set_model (a : DQNAgent) (n : network) : DQNAgent :=
  {| state_size := state_size a; action_size := action_size a; memory := memory a;
     gamma := gamma a; epsilon := epsilon a; epsilon_min := epsilon_min a;
     epsilon_decay := epsilon_decay a; learning_rate := learning_rate a;
     model := n |}.

Definition set_epsilon (a : DQNAgent) (e : Q) : DQNAgent :=
  {| state_size := state_size a; action_size := action_size a; memory := memory a;
     gamma := gamma a; epsilon := e; epsilon_min := epsilon_min a;
     epsilon_decay := epsilon_decay a; learning_rate := learning_rate a;
     model := model a |}.

(** [remember(state, action, reward, next_state, done)]. *)
Definition remember (a : DQNAgent) (t : transition) : DQNAgent :=
  set_memory a (append (memory a) t).

(** The last two lines of [replay] and of [enhanced_replay]. *)
Definition decay_epsilon (a : DQNAgent) : DQNAgent :=
  if gt (epsilon a) (epsilon_min a)
  then set_epsilon a (epsilon a * epsilon_decay a)
  else a.

(** The [for] loop of [replay]: the samples are fitted one after the other;
    the first one that raises ends the loop, the updates made before it
    stay. *)
Fixpoint fit_samples (net : network) (discount : Q) (minibatch : list transition)
  : network * option exn :=
  match minibatch with
  | [] => (net, None)
  | t :: rest =>
      match fit_sample net discount t with
      | Ok net' => fit_samples net' discount rest
      | Raise e => (net, Some e)
      end
  end.

(** [replay(batch_size)]; [draw] is the draw of [random.sample].  The
    method changes the agent in place and returns nothing or raises: the
    result is the agent after the call and the exception, if one was
    raised. *)
Definition replay (a : DQNAgent) (batch_size : Z) (draw : list transition)
  : DQNAgent * option exn :=
  if (Z.of_nat (len (memory a)) <? batch_size)%Z then (a, None)
  else
    match sample (items (memory a)) batch_size draw with
    | Raise e => (a, Some e)
    | Ok minibatch =>
        match fit_samples (model a) (gamma a) minibatch with
        | (net, None) => (decay_epsilon (set_model a net), None)
        | (net, Some e) => (set_model a net, Some e)
        end
    end.

(** Attributes [EnhancedDQNAgent.__init__] adds to those of its base class. *)
Record EnhancedDQNAgent : Type := {
  base : DQNAgent;
  priority_memory : deque transition;
  min_phase_duration : Z;
  max_phase_duration : Z;
  default_duration : Z;
  performance_history : deque Q;
  congestion_history : deque Q
}.

Definition EnhancedDQNAgent_init (net0 : network) (state_size action_size : Z)
  : EnhancedDQNAgent :=
  let b := DQNAgent_init net0 state_size action_size in
  {| base := {| state_size := state_size;
                action_size := action_size;
                memory := deque_new 10000;
                gamma := 0.99;
                epsilon := 0.9;
                epsilon_min := 0.05;
                epsilon_decay := 0.9995;
                learning_rate := 0.0005;
                model := model b |};
     priority_memory := deque_new 1000;
     min_phase_duration := 5;
     max_phase_duration := 45;
     default_duration := 15;
     performance_history := deque_new 100;
     congestion_history := deque_new 100 |}.

Definition set_base (a : EnhancedDQNAgent) (b : DQNAgent) : EnhancedDQNAgent :=
  {| base := b; priority_memory := priority_memory a;
     min_phase_duration := min_phase_duration a;
     max_phase_duration := max_phase_duration a;
     default_duration := default_duration a;
     performance_history := performance_history a;
     congestion_history := congestion_history a |}.

(** [choose_phase_duration(state, action)]. *)
Definition choose_phase_duration (a : EnhancedDQNAgent) (state : list Q) (action : Z)
  : result Z :=
  try_except
    (let direction_index := action in
     vehicle_count <- index state (direction_index * 4) ;;
     halting_count <- index state (direction_index * 4 + 1) ;;
     speed <- index state (direction_index * 4 + 2) ;;
     let duration :=
       if gt vehicle_count 0.7 then
         if gt halting_count 0.5 then max_phase_duration a else 25%Z
       else if gt vehicle_count 0.3 then default_duration a
       else min_phase_duration a in
     if (18 <? List.length state)%nat then
       emergency <- index state 18 ;;
       if gt emergency 0
       then Ok (minZ (duration + 10) (max_phase_duration a))
       else Ok duration
     else Ok duration)
    (Ok (default_duration a)).

(** [act_with_duration(state)]; [action] is what [self.act(state)] drew. *)
Definition act_with_duration (a : EnhancedDQNAgent) (state : list Q) (action : Z)
  : result (Z * Z) :=
  duration <- choose_phase_duration a state action ;;
  Ok (action, duration).

(** [enhanced_replay(batch_size)]; [regular_draw] and [priority_draw] are
    the two draws of [random.sample].  As for [replay] the result is the
    agent after the call and the exception, if one was raised.  On an empty
    minibatch the tensor of states is empty and [self.model(states)]
    raises, before anything is updated; on any other minibatch the outcome
    is that of lines 150 to 165, the tensors and the clipped step.  The
    decay of epsilon comes last, so a call that raises leaves epsilon as it
    was. *)
Definition enhanced_replay (a : EnhancedDQNAgent) (batch_size : Z)
    (regular_draw priority_draw : list transition)
  : EnhancedDQNAgent * option exn :=
  if (Z.of_nat (len (memory (base a))) <? batch_size)%Z then (a, None)
  else
    let regular_batch_size := (batch_size / 2)%Z in
    let priority_batch_size := (batch_size - regular_batch_size)%Z in
    match sample (items (memory (base a)))
            (minZ regular_batch_size (Z.of_nat (len (memory (base a)))))
            regular_draw with
    | Raise e => (a, Some e)
    | Ok regular_batch =>
        match (if (0 <? len (priority_memory a))%nat
               then sample (items (priority_memory a))
                      (minZ priority_batch_size
                         (Z.of_nat (len (priority_memory a))))
                      priority_draw
               else Ok []) with
        | Raise e => (a, Some e)
        | Ok priority_batch =>
            let minibatch := (regular_batch ++ priority_batch)%list in
            match minibatch with
            | [] => (a, Some RuntimeError)
            | _ :: _ =>
                match fit_batch (model (base a)) (gamma (base a)) minibatch with
                | Ok net =>
                    (set_base a (decay_epsilon (set_model (base a) net)), None)
                | Raise e => (a, Some e)
                end
            end
        end
    end.

(** The sum [sum(state[i] for i in range(1, 16, 4))] of [remember_priority]
    (and of [calculate_comprehensive_reward]). *)
Definition congestion_sum (state : list Q) : result Q :=
  sum_at state (range 1 16 4) 0.

(** [remember_priority(state, action, reward, next_state, done)]. *)
Definition remember_priority (a : EnhancedDQNAgent) (t : transition)
  : result EnhancedDQNAgent :=
  let '(state, action, reward, next_state, done) := t in
  let a1 := set_base a (remember (base a) t) in
  let pm :=
    if gt (abs reward) 2.0 then append (priority_memory a1) t
    else priority_memory a1 in
  let ph := append (performance_history a1) reward in
  ch <- try_except
          (current_congestion <- congestion_sum state ;;
           Ok (append (congestion_history a1) current_congestion))
          (Ok (congestion_history a1)) ;;
  Ok {| base := base a1; priority_memory := pm;
        min_phase_duration := min_phase_duration a1;
        max_phase_duration := max_phase_duration a1;
        default_duration := default_duration a1;
        performance_history := ph;
        congestion_history := ch |}.

(** One training call on an enhanced agent: the inherited [replay] or
    [enhanced_replay], each with its batch size and its random draws. *)
Inductive training_call : Type :=
| CallReplay (batch_size : Z) (draw : list transition)
| CallEnhancedReplay (batch_size : Z) (regular_draw priority_draw : list transition).

(** The agent after the call, and the exception if the call raised. *)
Definition train (a : EnhancedDQNAgent) (c : training_call)
  : EnhancedDQNAgent * option exn :=
  match c with
  | CallReplay n d =>
      let '(b, e) := replay (base a) n d in (set_base a b, e)
  | CallEnhancedReplay n rd pd => enhanced_replay a n rd pd
  end.

(** The agent after a run of training calls, made by a caller that goes on
    after a call that raised. *)
Definition train_all (a : EnhancedDQNAgent) (cs : list training_call)
  : EnhancedDQNAgent :=
  fold_left (fun a c => fst (train a c)) cs a.

(** A training call is completed when it gets past the early return and
    returns without raising. *)
Definition completed (a : EnhancedDQNAgent) (c : training_call) : bool :=
  match c with
  | CallReplay n _ | CallEnhancedReplay n _ _ =>
      negb (Z.of_nat (len (memory (base a))) <? n)%Z
  end
  && match snd (train a c) with
     | None => true
     | Some _ => false
     end.

(** What the decay of the exploration rate relies on: a floor that is not
    negative, a decay factor in [0, 1), and a rate that starts no lower
    than floor times factor. *)
Definition exploration_ok (a : DQNAgent) : Prop :=
  0 <= epsilon_min a /\ 0 <= epsilon_decay a /\ epsilon_decay a < 1
  /\ epsilon_min a * epsilon_decay a <= epsilon a.

End Agents.

End Agent.

(** ** dashboard/test_sumo.py: the control loop *)

Module ControlLoop.
Import Py.
Import Agent.

(** The timing constants of [run_enhanced_dqn_simulation]. *)
Definition MINIMUM_GREEN_TIME : Z := 10.
Definition MAXIMUM_GREEN_TIME : Z := 45.
Definition DEFAULT_GREEN_TIME : Z := 15.

(** What happens inside the [try] that drives the traffic light:
    [setRedYellowGreenState] raises, or it succeeds and [setPhaseDuration]
    raises, or both succeed.  [actual_duration] is assigned between the
    two calls. *)
Inductive actuator_outcome : Type :=
| SetStateRaises
| SetDurationRaises
| ActuatorOk.

Section Loop.

(** The loop trains on batches of transitions it has stored itself, with
    twelve-feature states throughout; on such a batch the clipped step
    returns, and [fit_batch] is the network it gives. *)
Variable network : Type.
Variable fit_sample : network -> Q -> transition -> network.
Variable fit_batch : network -> Q -> list transition -> network.

(** The locals of [run_enhanced_dqn_simulation] that live across
    iterations; [actual_duration] is [None] while the name is unbound. *)
Record loop_state : Type := {
  enhanced_agent : EnhancedDQNAgent network;
  step : Z;
  current_phase_start : Q;
  current_action : option Z;
  current_duration : Z;
  prev_state : option (list Q);
  actual_duration : option Z;
  episode_rewards : list Q;
  congestion_levels : list Q
}.

Definition initial (net0 : network) : loop_state :=
  {| enhanced_agent := EnhancedDQNAgent_init net0 12 4;
     step := 0;
     current_phase_start := 0;
     current_action := None;
     current_duration := 15;
     prev_state := None;
     actual_duration := None;
     episode_rewards := [];
     congestion_levels := [] |}.

(** Everything one iteration reads from outside: the simulation clock, the
    vehicles, the action [agent.act] draws, the fate of the actuator calls
    and the draws of [random.sample] should training run. *)
Record tick_input : Type := {
  current_time : Q;
  vehicles : Normalizer.snapshot;
  dqn_action : Z;
  actuator : actuator_outcome;
  regular_batch : list transition;
  priority_sample : list transition
}.

Definition phase_elapsed (s : loop_state) (now : Q) : Q :=
  now - current_phase_start s.

(** The condition [should_change_phase]. *)
Definition should_change_phase (s : loop_state) (now : Q) : bool :=
  match current_action s with
  | None => true
  | Some _ =>
      ge (phase_elapsed s now) (inject_Z MINIMUM_GREEN_TIME)
      && (ge (phase_elapsed s now) (inject_Z (current_duration s))
          || ge (phase_elapsed s now) (inject_Z MAXIMUM_GREEN_TIME))
  end.

(** The body of [if should_change_phase:]. *)
Definition change_phase (s : loop_state) (i : tick_input) (state : list Q)
  : result loop_state :=
  '(agent1, rewards1) <-
    match prev_state s, current_action s with
    | Some prev, Some a =>
        reward <- Reward.calculate_smart_reward prev state a ;;
        ag <- remember_priority (enhanced_agent s) (prev, a, reward, state, false) ;;
        Ok (ag, (episode_rewards s ++ [reward])%list)
    | _, _ => Ok (enhanced_agent s, episode_rewards s)
    end ;;
  '(action, duration) <-
    Actuation.choose_intelligent_action_and_duration (dqn_action i) state
      MINIMUM_GREEN_TIME MAXIMUM_GREEN_TIME DEFAULT_GREEN_TIME ;;
  phase <- Actuation.apply_intelligent_action action state ;;
  let actual :=
    match actuator i with
    | SetStateRaises => actual_duration s
    | SetDurationRaises | ActuatorOk => Some (maxZ duration MINIMUM_GREEN_TIME)
    end in
  new_duration <-
    match actual with
    | Some d => Ok d
    | None => Raise NameError
    end ;;
  agent2 <-
    (if (100 <? len (memory (base agent1)))%nat
     then
       match enhanced_replay (fun n g b => Ok (fit_batch n g b)) agent1 64
               (regular_batch i) (priority_sample i) with
       | (trained, None) => Ok trained
       | (_, Some e) => Raise e
       end
     else Ok agent1) ;;
  Ok {| enhanced_agent := agent2;
        step := step s;
        current_phase_start := current_time i;
        current_action := Some action;
        current_duration := new_duration;
        prev_state := Some state;
        actual_duration := actual;
        episode_rewards := rewards1;
        congestion_levels := congestion_levels s |}.

(** One iteration of the [while] loop. *)
Definition tick (s : loop_state) (i : tick_input) : result loop_state :=
  let s0 :=
    {| enhanced_agent := enhanced_agent s; step := step s + 1;
       current_phase_start := current_phase_start s;
       current_action := current_action s;
       current_duration := current_duration s;
       prev_state := prev_state s; actual_duration := actual_duration s;
       episode_rewards := episode_rewards s;
       congestion_levels := congestion_levels s |} in
  let state := Normalizer.get_correct_traffic_state (vehicles i) in
  s1 <- (if should_change_phase s0 (current_time i)
         then change_phase s0 i state else Ok s0) ;;
  if (step s1 mod 100 =? 0)%Z then
    let current_congestion :=
      if (4 <? List.length state)%nat then sum (slice_step 1 4 state) else 0 in
    Ok {| enhanced_agent := enhanced_agent s1; step := step s1;
          current_phase_start := current_phase_start s1;
          current_action := current_action s1;
          current_duration := current_duration s1;
          prev_state := prev_state s1; actual_duration := actual_duration s1;
          episode_rewards := episode_rewards s1;
          congestion_levels := (congestion_levels s1 ++ [current_congestion])%list |}
  else Ok s1.

(** The loop over a finite prefix of iterations; an exception ends it. *)
Fixpoint run (s : loop_state) (ticks : list tick_input) : result loop_state :=
  match ticks with
  | [] => Ok s
  | i :: rest => s' <- tick s i ;; run s' rest
  end.

(** The clock ticks once a second: every reading is one more than the
    reading before it. *)
Fixpoint unit_clock (last : Q) (ticks : list tick_input) : Prop :=
  match ticks with
  | [] => True
  | i :: rest => current_time i == last + 1 /\ unit_clock (current_time i) rest
  end.

(** The last reading of the clock after [ticks], [last] being the reading
    before them. *)
Fixpoint last_time (last : Q) (ticks : list tick_input) : Q :=
  match ticks with
  | [] => last
  | i :: rest => last_time (current_time i) rest
  end.

(** The green times the loop holds are always between the two bounds. *)
Definition durations_ok (s : loop_state) : Prop :=
  (forall d, actual_duration s = Some d ->
             (MINIMUM_GREEN_TIME <= d <= MAXIMUM_GREEN_TIME)%Z)
  /\ (current_action s <> None ->
      (MINIMUM_GREEN_TIME <= current_duration s <= MAXIMUM_GREEN_TIME)%Z).

(** An iteration that does not enter [if should_change_phase:] leaves the
    phase, the agent and the rewards as they were. *)
Definition phase_kept (s s' : loop_state) : Prop :=
  current_phase_start s' = current_phase_start s
  /\ current_action s' = current_action s
  /\ current_duration s' = current_duration s
  /\ prev_state s' = prev_state s
  /\ actual_duration s' = actual_duration s
  /\ enhanced_agent s' = enhanced_agent s
  /\ episode_rewards s' = episode_rewards s.

(** With a clock that ticks once a second, a whole number of seconds of the
    running phase has passed, fewer than its committed green time. *)
Definition phase_running (s : loop_state) (now : Q) : Prop :=
  current_action s <> None ->
  exists n : Z,
    phase_elapsed s now == inject_Z n /\ (0 <= n < current_duration s)%Z.

End Loop.

End ControlLoop.

(** ** dashboard/test_sumo.py: states and rewards read from the edges *)

Module Sensors.
Import Py.

(** [s.lower()] on the bytes of an identifier: the ASCII capitals are
    lowered.  (No other character lowers to a letter of "emergency" or
    "bus", so the two tests below see the same answer.) *)
Definition lower_ascii (c : Ascii.ascii) : Ascii.ascii :=
  let n := Ascii.nat_of_ascii c in
  if ((65 <=? n) && (n <=? 90))%nat then Ascii.ascii_of_nat (n + 32) else c.

Fixpoint lower (s : string) : string :=
  match s with
  | EmptyString => EmptyString
  | String c rest => String (lower_ascii c) (lower rest)
  end.

(** [pat in s]. *)
Fixpoint contains (pat s : string) : bool :=
  String.prefix pat s
  || match s with
     | EmptyString => false
     | String _ rest => contains pat rest
     end.

(** ['emergency' in veh_id.lower() or 'bus' in veh_id.lower()]. *)
Definition is_priority (veh_id : string) : bool :=
  contains "emergency" (lower veh_id) || contains "bus" (lower veh_id).

(** [get_state()]; per edge the two reads give [(count, queue)] or raise. *)
Fixpoint get_state (edges : list (option (Z * Z))) : list Q :=
  match edges with
  | [] => []
  | Some (count, queue) :: rest => inject_Z count :: inject_Z queue :: get_state rest
  | None :: rest => 0 :: 0 :: get_state rest
  end.

(** [sum(read(edge) for edge in edges)]; [None] when a read raises. *)
Fixpoint sum_reads (reads : list (option Q)) (acc : Q) : option Q :=
  match reads with
  | [] => Some acc
  | Some x :: rest => sum_reads rest (acc + x)
  | None :: rest => None
  end.

(** [get_reward()]; [waits] and [queues] are the reads of the two sums. *)
Definition get_reward (waits : list (option Q)) (queues : list (option Z)) : Q :=
  match sum_reads waits 0 with
  | None => 0
  | Some total_wait =>
      match sum_reads (map (option_map inject_Z) queues) 0 with
      | None => 0
      | Some total_queue => - (total_wait + total_queue)
      end
  end.

(** The four reads [get_enhanced_state] makes on an edge. *)
Record edge_reading : Type := {
  vehicle_count : Z;
  halting_count : Z;
  mean_speed : Q;
  max_speed : Q
}.

(** The four features of one edge. *)
Definition edge_features (r : option edge_reading) : list Q :=
  match r with
  | None => [0; 0; 0; 0]
  | Some e =>
      let normalized_count := minQ (inject_Z (vehicle_count e) / 20.0) 1.0 in
      let normalized_halting := minQ (inject_Z (halting_count e) / 15.0) 1.0 in
      let normalized_speed :=
        if gt (max_speed e) 0 then mean_speed e / max_speed e else 0 in
      let congestion_level :=
        inject_Z (halting_count e) / inject_Z (maxZ (vehicle_count e) 1) in
      [normalized_count; normalized_halting; normalized_speed; congestion_level]
  end.

(** [get_enhanced_state()]. *)
Definition get_enhanced_state (edges : list (option edge_reading)) : list Q :=
  flat_map edge_features edges.

(** The loop of [get_junction_pressure]; [i] is the position of the edge in
    [edges] (edge identifiers are distinct, so it is [edges.index(edge)]);
    [None] when a read raises. *)
Fixpoint pressure_loop (counts : list (option Z)) (i : nat)
    (incoming_pressure outgoing_pressure : Z) : option Z :=
  match counts with
  | [] => Some (incoming_pressure - outgoing_pressure)%Z
  | None :: _ => None
  | Some vehicle_count :: rest =>
      if (i <? 2)%nat
      then pressure_loop rest (S i) (incoming_pressure + vehicle_count) outgoing_pressure
      else pressure_loop rest (S i) incoming_pressure (outgoing_pressure + vehicle_count)
  end.

(** [get_junction_pressure()]. *)
Definition get_junction_pressure (counts : list (option Z)) : Z :=
  match pressure_loop counts 0 0 0 with
  | Some p => p
  | None => 0%Z
  end.

(** What the [try] of [get_comprehensive_state] reads besides the pressure:
    the next switch of the light, the clock and the vehicle identifiers. *)
Record junction_reading : Type := {
  next_switch : Q;
  sim_time : Q;
  vehicle_ids : list string
}.

(** [get_comprehensive_state()]; [junction] is [None] when one of the reads
    of the [try] raises. *)
Definition get_comprehensive_state (edges : list (option edge_reading))
    (counts : list (option Z)) (junction : option junction_reading) : list Q :=
  let basic_state := get_enhanced_state edges in
  let pressure := get_junction_pressure counts in
  match junction with
  | None => basic_state
  | Some j =>
      let phase_elapsed := next_switch j - sim_time j in
      let emergency_vehicles :=
        Z.of_nat (List.length (filter is_priority (vehicle_ids j))) in
      let normalized_pressure := maxQ (- 1.0) (minQ 1.0 (inject_Z pressure / 10.0)) in
      let normalized_phase_elapsed := phase_elapsed / 30.0 in
      let normalized_emergency := minQ (inject_Z emergency_vehicles / 5.0) 1.0 in
      (basic_state ++ [normalized_pressure; normalized_phase_elapsed;
                       normalized_emergency])%list
  end.

(** [get_emergency_priority_action()]; per edge the vehicle identifiers on
    it, or [None] when the read raises; the result [None] is Python's. *)
Fixpoint emergency_scan (edges : list (option (list string))) (i : Z) : option Z :=
  match edges with
  | [] => None
  | None :: rest => emergency_scan rest (i + 1)
  | Some vehicles_on_edge :: rest =>
      if existsb is_priority vehicles_on_edge then Some i
      else emergency_scan rest (i + 1)
  end.

Definition get_emergency_priority_action (edges : list (option (list string)))
  : option Z :=
  emergency_scan edges 0.

End Sensors.

(** ** dashboard/dqn_model.py: choosing an action *)

Module Policy.
Import Py Agent.

Section Act.

Variable network : Type.

(** [self.model(state_tensor)]: the action values the network gives. *)
Variable forward : network -> list Q -> list Q.

(** [act(state)]; [u] is the draw of [np.random.rand()] and [r] the draw of
    [random.randrange(self.action_size)]. *)
Definition act (a : DQNAgent network) (state : list Q) (u : Q) (r : Z) : result Z :=
  if ge (epsilon a) u then Ok r
  else argmax (forward (model a) state).

End Act.

End Policy.

(** ** Histories *)

Module Histories.
Import Py Agent.

(** The last [n] entries of a list. *)
Definition lastn {A : Type} (n : Z) (l : list A) : list A :=
  skipn (Z.to_nat (Z.of_nat (List.length l) - n)) l.

(** A deque after a run of [append]s. *)
Definition append_all {A : Type} (d : deque A) (l : list A) : deque A :=
  fold_left append l d.

Definition reward_of (t : transition) : Q :=
  let '(_, _, reward, _, _) := t in reward.

Definition state_of (t : transition) : list Q :=
  let '(state, _, _, _, _) := t in state.

(** The sums [remember_priority] manages to record: those of the states on
    which the sum over [range(1, 16, 4)] does not raise. *)
Fixpoint congestion_sums (ts : list transition) : list Q :=
  match ts with
  | [] => []
  | t :: rest =>
      match congestion_sum (state_of t) with
      | Ok c => c :: congestion_sums rest
      | Raise _ => congestion_sums rest
      end
  end.

(** The test that sends a transition to the priority memory as well. *)
Definition high_reward (t : transition) : bool := gt (abs (reward_of t)) 2.0.

Section Runs.

Variable network : Type.

(** The four deques of an agent hold the latest part of what a history [h]
    of remembered transitions sends to each of them. *)
Definition holds_history (a : EnhancedDQNAgent network) (h : list transition) : Prop :=
  maxlen (memory (base a)) = 10000%Z
  /\ items (memory (base a)) = lastn 10000 h
  /\ maxlen (priority_memory a) = 1000%Z
  /\ items (priority_memory a) = lastn 1000 (filter high_reward h)
  /\ maxlen (performance_history a) = 100%Z
  /\ items (performance_history a) = lastn 100 (map reward_of h)
  /\ maxlen (congestion_history a) = 100%Z
  /\ items (congestion_history a) = lastn 100 (congestion_sums h).

(** A run of [remember_priority] calls. *)
Fixpoint remember_all (a : EnhancedDQNAgent network) (ts : list transition)
  : result (EnhancedDQNAgent network) :=
  match ts with
  | [] => Ok a
  | t :: rest => a' <- remember_priority a t ;; remember_all a' rest
  end.

End Runs.

End Histories.

(** ** Signal patterns *)

Module Patterns.

(** How often the character [c] occurs in [s]. *)
Fixpoint occurrences (c : Ascii.ascii) (s : string) : nat :=
  match s with
  | EmptyString => 0
  | String x rest =>
      (if Ascii.eqb x c then 1 else 0) + occurrences c rest
  end.

End Patterns.

(** ** Vehicles the state depends on *)

Module Zones.
Import Py Normalizer.

(** A read that succeeded on a vehicle outside the central square
    [|x| <= 25, |y| <= 25]. *)
Definition counted (r : option vehicle) : bool :=
  match r with
  | None => false
  | Some v =>
      gt (vy v) 25 || lt (vy v) (-25) || gt (vx v) 25 || lt (vx v) (-25)
  end.

(** The counters of the loop are the lengths of its speed lists. *)
Definition counters_match (t : tally) : Prop :=
  north_bound t = Z.of_nat (List.length (north_speeds t))
  /\ south_bound t = Z.of_nat (List.length (south_speeds t))
  /\ east_bound t = Z.of_nat (List.length (east_speeds t))
  /\ west_bound t = Z.of_nat (List.length (west_speeds t)).

End Zones.

(** ** What the loop maintains *)

Module LoopInvariants.
Import Py Agent ControlLoop Histories.

Section Invariants.

Variable network : Type.

(** The states the loop keeps are twelve features long, the action it
    keeps is a direction, and once an action is committed the name
    [actual_duration] is bound. *)
Definition loop_ok (s : loop_state network) : Prop :=
  (forall p, prev_state s = Some p -> List.length p = 12%nat)
  /\ (forall a, current_action s = Some a -> (0 <= a <= 3)%Z)
  /\ (current_action s <> None -> actual_duration s <> None)
  /\ (current_action s <> None -> prev_state s <> None).

(** The agent's stores against the rewards the loop has collected. *)
Definition stores_mirror (s : loop_state network) : Prop :=
  let ag := enhanced_agent s in
  (forall p, prev_state s = Some p -> List.length p = 12%nat)
  /\ maxlen (performance_history ag) = 100%Z
  /\ items (performance_history ag) = lastn 100 (episode_rewards s)
  /\ maxlen (memory (base ag)) = 10000%Z
  /\ (exists h, items (memory (base ag)) = lastn 10000 h
                /\ map reward_of h = episode_rewards s)
  /\ items (congestion_history ag) = []
  /\ ((List.length (episode_rewards s) <= 100)%nat -> epsilon (base ag) = 0.9).

End Invariants.

End LoopInvariants.

(** ** Concrete runs of the loop *)

Module Scenarios.
Import Py Agent ControlLoop.

(** A network without parameters; training leaves it as it is. *)
Definition keep_sample (n : unit) (_ : Q) (_ : transition) : unit := n.
Definition keep_batch (n : unit) (_ : Q) (_ : list transition) : unit := n.

(** The same network as the agents' training calls see it: fitting a
    sample or a non-empty batch returns. *)
Definition fit_one (n : unit) (_ : Q) (_ : transition) : result unit := Ok n.
Definition fit_all (n : unit) (_ : Q) (_ : list transition) : result unit := Ok n.

(** A fresh enhanced agent that has remembered two transitions of small
    reward: its memory holds two entries, its priority memory none. *)
Definition quiet_transition : transition :=
  ([0; 0; 0; 0; 0; 0; 0; 0; 0; 0; 0; 0], 0%Z, 1,
   [0; 0; 0; 0; 0; 0; 0; 0; 0; 0; 0; 0], false).

Definition two_transition_agent : EnhancedDQNAgent unit :=
  let a := EnhancedDQNAgent_init tt 12 4 in
  set_base a (remember (remember (base a) quiet_transition) quiet_transition).

Definition empty_road : Normalizer.snapshot := Some [].

(** Eight vehicles in the north zone, all driving at 5 m/s. *)
Definition busy_north : Normalizer.snapshot :=
  Some (repeat (Some {| Normalizer.vx := 0; Normalizer.vy := 30;
                        Normalizer.vspeed := 5 |}) 8).

(** An iteration at clock reading [t] in which the agent draws North and
    the traffic light accepts its commands. *)
Definition tick_at (t : Q) (snap : Normalizer.snapshot) : tick_input :=
  {| current_time := t; vehicles := snap; dqn_action := 0;
     actuator := ActuatorOk; regular_batch := []; priority_sample := [] |}.

(** Iterations at 1, 2, ..., n seconds on an empty road. *)
Definition every_second (n : nat) : list tick_input :=
  map (fun k => tick_at (inject_Z (Z.of_nat k)) empty_road) (seq 1 n).

(** Iterations at 2, 4, ..., 2n seconds with the north approach busy. *)
Definition every_other_second (n : nat) : list tick_input :=
  map (fun k => tick_at (inject_Z (2 * Z.of_nat k)) busy_north) (seq 1 n).

End Scenarios.

(** * Properties *)

Import Py.

(** ** Comparisons *)

Arguments gt : simpl never.
Arguments lt : simpl never.
Arguments ge : simpl never.

Lemma gt_true (a b : Q) : gt a b = true <-> b < a.
Proof.
  unfold gt. rewrite negb_true_iff, <- not_true_iff_false, Qle_bool_iff.
  split; [apply Qnot_le_lt | apply Qlt_not_le].
Qed.

Lemma gt_false (a b : Q) : gt a b = false <-> a <= b.
Proof.
  unfold gt. rewrite negb_false_iff. apply Qle_bool_iff.
Qed.

Lemma lt_true (a b : Q) : lt a b = true <-> a < b.
Proof.
  unfold lt. rewrite negb_true_iff, <- not_true_iff_false, Qle_bool_iff.
  split; [apply Qnot_le_lt | apply Qlt_not_le].
Qed.

Lemma lt_false (a b : Q) : lt a b = false <-> b <= a.
Proof.
  unfold lt. rewrite negb_false_iff. apply Qle_bool_iff.
Qed.

Lemma ge_true (a b : Q) : ge a b = true <-> b <= a.
Proof. unfold ge. apply Qle_bool_iff. Qed.

Lemma ge_false (a b : Q) : ge a b = false <-> a < b.
Proof.
  unfold ge. rewrite <- not_true_iff_false, Qle_bool_iff.
  split; [apply Qnot_le_lt | apply Qlt_not_le].
Qed.

(** Turn every comparison the code made into the inequality it decided. *)
Ltac tests_to_props :=
  repeat match goal with
  | H : gt _ _ = true |- _ => apply gt_true in H
  | H : gt _ _ = false |- _ => apply gt_false in H
  | H : lt _ _ = true |- _ => apply lt_true in H
  | H : lt _ _ = false |- _ => apply lt_false in H
  | H : ge _ _ = true |- _ => apply ge_true in H
  | H : ge _ _ = false |- _ => apply ge_false in H
  | H : _ || _ = true |- _ => apply orb_true_iff in H
  | H : _ || _ = false |- _ => apply orb_false_iff in H; destruct H
  | H : _ && _ = true |- _ => apply andb_true_iff in H; destruct H
  | H : _ && _ = false |- _ => apply andb_false_iff in H
  end.

(** ** Subscripts *)

Lemma index_of_nat {A : Type} (l : list A) (n : nat) :
  index l (Z.of_nat n) =
  match nth_error l n with Some a => Ok a | None => Raise IndexError end.
Proof.
  unfold index.
  destruct (Z.of_nat n <? 0)%Z eqn:Hneg; [apply Z.ltb_lt in Hneg; lia |].
  rewrite Nat2Z.id.
  destruct (Z.of_nat n <? 0)%Z eqn:H0; [discriminate |]. cbn [orb].
  destruct (Z.of_nat (List.length l) <=? Z.of_nat n)%Z eqn:Hlen; [| reflexivity].
  apply Z.leb_le in Hlen.
  assert (Hn : (List.length l <= n)%nat) by lia.
  apply nth_error_None in Hn. now rewrite Hn.
Qed.

Lemma index_In {A : Type} (l : list A) (i : Z) (x : A) :
  index l i = Ok x -> In x l.
Proof.
  unfold index.
  destruct (_ || _); [discriminate |].
  destruct (nth_error l _) eqn:Hn; [| discriminate].
  intros [= <-]. eapply nth_error_In; eauto.
Qed.

Lemma index_in_range {A : Type} (l : list A) (i : Z) :
  (- Z.of_nat (List.length l) <= i < Z.of_nat (List.length l))%Z ->
  exists x, index l i = Ok x.
Proof.
  intros Hi. unfold index.
  set (j := if (i <? 0)%Z then (Z.of_nat (List.length l) + i)%Z else i).
  assert (Hj : (0 <= j < Z.of_nat (List.length l))%Z).
  { subst j. destruct (i <? 0)%Z eqn:E;
      [apply Z.ltb_lt in E | apply Z.ltb_ge in E]; lia. }
  destruct (j <? 0)%Z eqn:E1; [apply Z.ltb_lt in E1; lia |].
  destruct (Z.of_nat (List.length l) <=? j)%Z eqn:E2; [apply Z.leb_le in E2; lia |].
  cbn [orb].
  destruct (nth_error l (Z.to_nat j)) eqn:Hn; [eauto |].
  apply nth_error_None in Hn. lia.
Qed.

Lemma index_Ok_range {A : Type} (l : list A) (i : Z) (x : A) :
  index l i = Ok x ->
  (- Z.of_nat (List.length l) <= i < Z.of_nat (List.length l))%Z.
Proof.
  unfold index.
  destruct (i <? 0)%Z eqn:E; [apply Z.ltb_lt in E | apply Z.ltb_ge in E];
    destruct (_ <? 0)%Z eqn:E1; cbn [orb]; try discriminate;
    destruct (_ <=? _)%Z eqn:E2; try discriminate;
    apply Z.ltb_ge in E1; apply Z.leb_gt in E2; intros _; lia.
Qed.

Lemma index_nth (l : list Q) (n : nat) :
  (n < List.length l)%nat -> index l (Z.of_nat n) = Ok (nth n l 0).
Proof.
  intros Hn. rewrite index_of_nat.
  destruct (nth_error l n) as [x |] eqn:E.
  - f_equal. symmetry. now apply nth_error_nth.
  - apply nth_error_None in E. lia.
Qed.

(** The list comprehensions [[state[i] for i in [a, b, c, d]]] on a state
    that has all four positions. *)
Lemma gather_four (st : list Q) (a b c d : nat) :
  (a < List.length st)%nat -> (b < List.length st)%nat ->
  (c < List.length st)%nat -> (d < List.length st)%nat ->
  Actuation.gather st [Z.of_nat a; Z.of_nat b; Z.of_nat c; Z.of_nat d]
  = Ok [nth a st 0; nth b st 0; nth c st 0; nth d st 0].
Proof.
  intros Ha Hb Hc Hd. cbn [Actuation.gather].
  rewrite !index_nth by assumption. reflexivity.
Qed.

(** ** [np.argmax] *)

Lemma argmax_from_max (rest pre : list Q) (best_i : nat) (best : Q) :
  nth_error pre best_i = Some best ->
  (forall x, In x pre -> x <= best) ->
  exists v,
    nth_error (pre ++ rest) (argmax_from best_i best (List.length pre) rest) = Some v
    /\ forall x, In x (pre ++ rest) -> x <= v.
Proof.
  revert pre best_i best.
  induction rest as [| x rest IH]; intros pre best_i best Hnth Hmax; cbn [argmax_from].
  - exists best. rewrite app_nil_r. auto.
  - assert (Hlen : List.length (pre ++ [x]) = S (List.length pre)).
    { rewrite length_app. cbn. lia. }
    replace (pre ++ x :: rest)%list with ((pre ++ [x]) ++ rest)%list
      by (rewrite <- app_assoc; reflexivity).
    rewrite <- Hlen.
    destruct (gt x best) eqn:Hgt; tests_to_props.
    + apply IH.
      * rewrite nth_error_app2 by lia. now rewrite Nat.sub_diag.
      * intros y Hy. apply in_app_or in Hy. destruct Hy as [Hy | [<- | []]].
        -- apply Qle_trans with best; [auto | now apply Qlt_le_weak].
        -- apply Qle_refl.
    + apply IH.
      * rewrite nth_error_app1; [assumption |].
        apply nth_error_Some. congruence.
      * intros y Hy. apply in_app_or in Hy. destruct Hy as [Hy | [<- | []]]; auto.
Qed.

Lemma argmax_spec (l : list Q) (m : Z) :
  argmax l = Ok m ->
  exists v, (0 <= m)%Z /\ index l m = Ok v /\ forall j w, index l j = Ok w -> w <= v.
Proof.
  destruct l as [| x rest]; [discriminate |]. cbn [argmax]. intros [= <-].
  destruct (@argmax_from_max rest [x] 0%nat x) as (v & Hv & Hmax).
  - reflexivity.
  - intros y [<- | []]. apply Qle_refl.
  - exists v. split; [lia |]. split.
    + rewrite index_of_nat. cbn [List.length app] in Hv. now rewrite Hv.
    + intros j w Hw. apply Hmax. eapply index_In; eauto.
Qed.

Lemma argmax_nonempty (l : list Q) (i : Z) (x : Q) :
  index l i = Ok x -> exists m, argmax l = Ok m.
Proof.
  destruct l; [| cbn; eauto].
  intros H. apply index_Ok_range in H. cbn in H. lia.
Qed.

(** ** The snapshot normaliser *)

Import Normalizer.

Lemma inject_length_pos {A : Type} (l : list A) :
  l <> [] -> 0 < inject_Z (Z.of_nat (List.length l)).
Proof.
  intros Hl. destruct l; [congruence |].
  change 0 with (inject_Z 0). rewrite <- Zlt_Qlt. cbn [List.length]. lia.
Qed.

Lemma sum_fold_bounds (lo hi : Q) (l : list Q) (acc : Q) :
  Forall (fun x => lo <= x /\ x <= hi) l ->
  acc + inject_Z (Z.of_nat (List.length l)) * lo <= fold_left Qplus l acc
  /\ fold_left Qplus l acc <= acc + inject_Z (Z.of_nat (List.length l)) * hi.
Proof.
  intros Hall. revert acc.
  induction Hall as [| x l [Hlo Hhi] _ IH]; intros acc; cbn [fold_left List.length].
  - change (inject_Z (Z.of_nat 0)) with 0. split; lra.
  - rewrite Nat2Z.inj_succ, <- Z.add_1_r, inject_Z_plus.
    destruct (IH (acc + x)) as [IH1 IH2].
    change (inject_Z 1) with 1.
    split; [eapply Qle_trans; [| exact IH1] | eapply Qle_trans; [exact IH2 |]]; lra.
Qed.

Lemma mean_bounds (lo hi : Q) (l : list Q) :
  l <> [] -> Forall (fun x => lo <= x /\ x <= hi) l ->
  lo <= mean l /\ mean l <= hi.
Proof.
  intros Hne Hall. unfold mean, sum.
  pose proof (inject_length_pos Hne) as Hpos.
  destruct (sum_fold_bounds 0 Hall) as [H1 H2].
  split.
  - apply Qle_shift_div_l; [assumption | lra].
  - apply Qle_shift_div_r; [assumption | lra].
Qed.

Lemma normalized_speed_bounds (speeds : list Q) :
  Forall (fun s => 0 <= s /\ s <= 15) speeds ->
  unit_interval (normalized_speed speeds).
Proof.
  intros Hall. unfold normalized_speed, unit_interval.
  destruct speeds as [| s rest] eqn:E; [lra |]. rewrite <- E in *.
  assert (Hne : speeds <> []) by (subst; discriminate).
  destruct (mean_bounds Hne Hall) as [H1 H2].
  split.
  - apply Qle_shift_div_l; lra.
  - apply Qle_shift_div_r; lra.
Qed.

Lemma get_congestion_bounds (speeds : list Q) :
  unit_interval (get_congestion speeds).
Proof.
  unfold get_congestion, unit_interval.
  destruct speeds as [| s rest] eqn:E; [lra |]. rewrite <- E.
  assert (Hne : speeds <> []) by (subst; discriminate).
  pose proof (inject_length_pos Hne) as Hpos.
  pose proof (filter_length_le (fun s => lt s 2.0) speeds) as Hle.
  set (k := List.length (filter (fun s => lt s 2.0) speeds)) in *.
  assert (Hk0 : 0 <= inject_Z (Z.of_nat k)).
  { change 0 with (inject_Z 0). rewrite <- Zle_Qle. lia. }
  assert (Hk1 : inject_Z (Z.of_nat k) <= inject_Z (Z.of_nat (List.length speeds))).
  { rewrite <- Zle_Qle. lia. }
  split.
  - apply Qle_shift_div_l; lra.
  - apply Qle_shift_div_r; lra.
Qed.

Lemma normalized_count_bounds (n : Z) :
  (0 <= n)%Z -> unit_interval (normalized_count n).
Proof.
  intros Hn. unfold normalized_count, minQ, min, unit_interval.
  assert (H0 : 0 <= inject_Z n).
  { change 0 with (inject_Z 0). now rewrite <- Zle_Qle. }
  assert (Hd : 0 <= inject_Z n / 10.0) by (apply Qle_shift_div_l; lra).
  destruct (lt 1.0 (inject_Z n / 10.0)) eqn:E; tests_to_props; lra.
Qed.

Lemma count_vehicle_ok (P : Q -> Prop) (t : tally) (r : option vehicle) :
  tally_ok P t -> (forall v, r = Some v -> P (vspeed v)) ->
  tally_ok P (count_vehicle t r).
Proof.
  intros (Hn & Hs & He & Hw & Fn & Fs & Fe & Fw) Hr.
  destruct r as [v |]; cbn [count_vehicle]; [| repeat split; assumption].
  specialize (Hr v eq_refl).
  assert (Hsnoc : forall l, Forall P l -> Forall P (l ++ [vspeed v])).
  { intros l Hl. apply Forall_app. split; [assumption | now constructor]. }
  destruct (gt (vy v) 25); [| destruct (lt (vy v) (-25));
    [| destruct (gt (vx v) 25); [| destruct (lt (vx v) (-25))]]];
    unfold tally_ok; cbn; repeat split; auto; lia.
Qed.

Lemma count_vehicles_ok (P : Q -> Prop) (vehicles : list (option vehicle)) :
  (forall v, In (Some v) vehicles -> P (vspeed v)) ->
  tally_ok P (count_vehicles vehicles).
Proof.
  unfold count_vehicles.
  assert (H0 : tally_ok P tally0) by (unfold tally_ok; cbn; repeat split; auto; lia).
  revert H0. generalize tally0.
  induction vehicles as [| r rest IH]; intros t Ht HP; cbn [fold_left]; [assumption |].
  apply IH.
  - apply count_vehicle_ok; [assumption |]. intros v ->. apply HP. now left.
  - intros v Hv. apply HP. now right.
Qed.

Lemma state_length (snap : snapshot) :
  List.length (get_correct_traffic_state snap) = 12%nat
  /\ forall i, (i < 12)%nat ->
       exists x, nth_error (get_correct_traffic_state snap) i = Some x.
Proof.
  assert (H : List.length (get_correct_traffic_state snap) = 12%nat)
    by (destruct snap; reflexivity).
  split; [exact H |]. intros i Hi.
  destruct (nth_error _ i) eqn:E; [eauto |].
  apply nth_error_None in E. lia.
Qed.

(** C2, refuted as stated: one vehicle in the north zone driving at 30 m/s
    gives a North mean-speed feature of 2. *)
Lemma speed_feature_exceeds_one :
  exists x,
    nth_error
      (get_correct_traffic_state
         (Some [Some {| vx := 0; vy := 30; vspeed := 30 |}])) 2 = Some x
    /\ ~ unit_interval x.
Proof.
  exists (30 / 15.0). split; [reflexivity |].
  unfold unit_interval. intros [_ H]. revert H. vm_compute. intros H. now apply H.
Qed.

(** C2 (as the code behaves).  The state has twelve features.  For every
    snapshot the vehicle-count and congestion features (positions 0, 1 of
    each direction's triple) lie in [0, 1].  The mean-speed feature
    (position 2) is the direction's mean speed divided by 15; all twelve
    features lie in [0, 1] when every vehicle read reports a speed between
    0 and 15 m/s. *)
Theorem state_features_bounded (snap : snapshot) :
  List.length (get_correct_traffic_state snap) = 12%nat
  /\ (forall i x, nth_error (get_correct_traffic_state snap) i = Some x ->
                  (i mod 3 <> 2)%nat -> unit_interval x)
  /\ (speeds_within 0 15 snap ->
      Forall unit_interval (get_correct_traffic_state snap)).
Proof.
  destruct snap as [vehicles |]; cbn [get_correct_traffic_state].
  - pose proof (@count_vehicles_ok (fun _ => True) vehicles (fun _ _ => I))
      as (Hn & Hs & He & Hw & _).
    split; [reflexivity |]. split.
    + intros i x Hi Hmod.
      do 12 (destruct i as [| i];
             [cbn in Hi, Hmod; try congruence; injection Hi as <-;
              first [now apply normalized_count_bounds
                    | apply get_congestion_bounds] |]).
      destruct i; discriminate.
    + intros Hsp.
      pose proof (@count_vehicles_ok (fun s => 0 <= s /\ s <= 15) vehicles Hsp)
        as (_ & _ & _ & _ & Fn & Fs & Fe & Fw).
      repeat constructor;
        first [now apply normalized_count_bounds
              | apply get_congestion_bounds
              | now apply normalized_speed_bounds].
  - split; [reflexivity |].
    assert (Hz : Forall unit_interval (zeros 12)).
    { repeat constructor; unfold unit_interval; lra. }
    split; [| intros _; exact Hz].
    intros i x Hi _. rewrite Forall_forall in Hz. apply Hz.
    eapply nth_error_In; eauto.
Qed.

Lemma state_features_bounded_witness :
  List.length (get_correct_traffic_state
     (Some [Some {| vx := 0; vy := 30; vspeed := 12 |}; None])) = 12%nat
  /\ (forall i x, nth_error (get_correct_traffic_state
        (Some [Some {| vx := 0; vy := 30; vspeed := 12 |}; None])) i = Some x ->
        (i mod 3 <> 2)%nat -> unit_interval x)
  /\ Forall unit_interval (get_correct_traffic_state
        (Some [Some {| vx := 0; vy := 30; vspeed := 12 |}; None])).
Proof.
  destruct (state_features_bounded
    (Some [Some {| vx := 0; vy := 30; vspeed := 12 |}; None])) as (H1 & H2 & H3).
  split; [exact H1 |]. split; [exact H2 |].
  apply H3. intros v [Hv | [Hv | []]]; [| discriminate].
  injection Hv as <-. cbn. split; discriminate.
Defined.

(** ** The action validator *)

Import Validator ValidatorSpec.

(** The result of [validate_action_choice] as one expression over the two
    proposed entries and the two maxima. *)
Lemma validate_cases (p : Z) (traffic congestion : list Q) (t c : Q) :
  index traffic p = Ok t -> index congestion p = Ok c ->
  exists mt vt mc vc,
    max_direction traffic mt vt /\ max_direction congestion mc vc /\
    validate_action_choice p traffic congestion =
    Ok (if gt t 0.05 || gt c 0.1 then p
        else if gt vt 0.05 then mt
        else if gt vc 0.1 then mc
        else p).
Proof.
  intros Ht Hc.
  destruct (argmax_nonempty _ _ Ht) as [mt Hmt].
  destruct (argmax_nonempty _ _ Hc) as [mc Hmc].
  destruct (argmax_spec _ Hmt) as (vt & Hmt0 & Hvt & Htmax).
  destruct (argmax_spec _ Hmc) as (vc & Hmc0 & Hvc & Hcmax).
  exists mt, vt, mc, vc. repeat split; try assumption.
  unfold validate_action_choice. rewrite Ht, Hc. cbn [bind].
  destruct (gt t 0.05 || gt c 0.1); [reflexivity |].
  rewrite Hmt, Hmc. cbn [bind]. rewrite Hvt. cbn [bind].
  destruct (gt vt 0.05); [reflexivity |].
  rewrite Hvc. cbn [bind]. destruct (gt vc 0.1); reflexivity.
Qed.

(** C1 (as the code behaves).  In the scenario North = (0.8, 0.6, 0.5),
    South = (0.1, 0.0, 0.9), East and West zero, with South proposed,
    [validate_action_choice] keeps South: its traffic 0.1 is above the
    validator's threshold 0.05.  The override to North happens one step
    later, in [apply_intelligent_action], whose threshold is 0.1: the
    pattern it returns is North's. *)
Theorem validate_scenario_keeps_south :
  validate_action_choice 1 [0.8; 0.1; 0; 0] [0.6; 0; 0; 0] = Ok 1%Z
  /\ Actuation.choose_intelligent_action_and_duration 1
       [0.8; 0.6; 0.5; 0.1; 0; 0.9; 0; 0; 0; 0; 0; 0] 10 45 15 = Ok (1%Z, 12%Z)
  /\ Actuation.apply_intelligent_action 1
       [0.8; 0.6; 0.5; 0.1; 0; 0.9; 0; 0; 0; 0; 0; 0]
     = Actuation.action_to_phase 0.
Proof. repeat split; vm_compute; reflexivity. Qed.

(** C1, refuted as stated: on the scenario the validator does not return
    North (index 0). *)
Lemma validate_scenario_not_north :
  validate_action_choice 1 [0.8; 0.1; 0; 0] [0.6; 0; 0; 0] <> Ok 0%Z.
Proof. vm_compute. discriminate. Qed.

(** C4, refuted as stated: North is proposed and idle, South has traffic
    0.01, and the validator still returns North. *)
Lemma validate_returns_idle_direction :
  idle [0; 0.01; 0; 0] [0; 0; 0; 0] 0
  /\ (exists w, index [0; 0.01; 0; 0] 1 = Ok w /\ ~ w == 0)
  /\ validate_action_choice 0 [0; 0.01; 0; 0] [0; 0; 0; 0] = Ok 0%Z.
Proof.
  split; [| split].
  - exists 0, 0. repeat split; reflexivity.
  - exists 0.01. split; [reflexivity | discriminate].
  - reflexivity.
Qed.

(** The override of rule 2: an idle proposal is replaced as soon as some
    direction has traffic above 0.05. *)
Lemma validate_overrides_idle (p : Z) (traffic congestion : list Q) :
  idle traffic congestion p ->
  (exists j w, index traffic j = Ok w /\ 0.05 < w) ->
  exists r t,
    validate_action_choice p traffic congestion = Ok r
    /\ index traffic r = Ok t /\ 0.05 < t
    /\ ~ idle traffic congestion r.
Proof.
  intros (t & c & Ht & Hc & Ht0 & Hc0) (j & w & Hj & Hw).
  destruct (validate_cases _ _ _ Ht Hc)
    as (mt & vt & mc & vc & (_ & Hvt & Htmax) & _ & Hval).
  assert (E1 : gt t 0.05 || gt c 0.1 = false).
  { apply orb_false_iff. split; apply gt_false; lra. }
  assert (E2 : gt vt 0.05 = true).
  { apply gt_true. specialize (Htmax _ _ Hj). lra. }
  rewrite E1, E2 in Hval. apply gt_true in E2.
  exists mt, vt. repeat split; try assumption.
  intros (t' & c' & Ht' & _ & Hz & _).
  rewrite Hvt in Ht'. injection Ht' as <-. lra.
Qed.

(** A vehicle-count feature is 0 or at least one tenth. *)
Lemma normalized_count_steps (n : Z) :
  (0 <= n)%Z -> normalized_count n == 0 \/ 0.05 < normalized_count n.
Proof.
  intros Hn. unfold normalized_count, minQ, min.
  destruct (Z.eq_dec n 0) as [-> | Hnz].
  - left. reflexivity.
  - right.
    assert (H1 : 1 <= inject_Z n).
    { change 1 with (inject_Z 1). rewrite <- Zle_Qle. lia. }
    assert (Hd : 0.1 <= inject_Z n / 10.0) by (apply Qle_shift_div_l; lra).
    destruct (lt 1.0 (inject_Z n / 10.0)); lra.
Qed.

Lemma traffic_features_steps (snap : snapshot) (traffic : list Q) (j : Z) (w : Q) :
  Actuation.gather (get_correct_traffic_state snap) [0; 3; 6; 9]%Z = Ok traffic ->
  index traffic j = Ok w ->
  w == 0 \/ 0.05 < w.
Proof.
  intros Hg Hj.
  change [0; 3; 6; 9]%Z with [Z.of_nat 0; Z.of_nat 3; Z.of_nat 6; Z.of_nat 9] in Hg.
  rewrite gather_four in Hg
    by (rewrite (proj1 (state_length snap)); lia).
  injection Hg as <-. apply index_In in Hj.
  destruct snap as [vehicles |]; cbn [get_correct_traffic_state nth] in Hj.
  - pose proof (@count_vehicles_ok (fun _ => True) vehicles (fun _ _ => I))
      as (Hn & Hs & He & Hw & _).
    destruct Hj as [<- | [<- | [<- | [<- | []]]]]; now apply normalized_count_steps.
  - left. destruct Hj as [<- | [<- | [<- | [<- | []]]]]; reflexivity.
Qed.

(** C4 (as the code behaves).  When the proposed direction is idle and some
    direction has traffic above 0.05, the validator returns a direction
    whose traffic is above 0.05; in particular the direction it returns is
    not idle.  On the traffic and congestion lists the control loop takes
    from a state of [get_correct_traffic_state], where a vehicle count is 0
    or at least 0.1, any nonzero traffic is enough. *)
Theorem validate_avoids_idle :
  (forall p traffic congestion,
      idle traffic congestion p ->
      (exists j w, index traffic j = Ok w /\ 0.05 < w) ->
      exists r t,
        validate_action_choice p traffic congestion = Ok r
        /\ index traffic r = Ok t /\ 0.05 < t
        /\ ~ idle traffic congestion r)
  /\ (forall snap p traffic congestion,
        Actuation.gather (get_correct_traffic_state snap) [0; 3; 6; 9]%Z = Ok traffic ->
        Actuation.gather (get_correct_traffic_state snap) [1; 4; 7; 10]%Z = Ok congestion ->
        idle traffic congestion p ->
        (exists j w, index traffic j = Ok w /\ ~ w == 0) ->
        exists r,
          validate_action_choice p traffic congestion = Ok r
          /\ ~ idle traffic congestion r).
Proof.
  split; [exact validate_overrides_idle |].
  intros snap p traffic congestion Ht Hc Hidle (j & w & Hj & Hw).
  destruct (traffic_features_steps snap j Ht Hj) as [H0 | Hpos]; [contradiction |].
  destruct (validate_overrides_idle Hidle) as (r & t & Hr & _ & _ & Hn); eauto.
Qed.

Lemma validate_avoids_idle_witness :
  (exists r t,
      validate_action_choice 3 [0.8; 0.1; 0; 0] [0.6; 0; 0; 0] = Ok r
      /\ index [0.8; 0.1; 0; 0] r = Ok t /\ 0.05 < t
      /\ ~ idle [0.8; 0.1; 0; 0] [0.6; 0; 0; 0] r)
  /\ (exists traffic congestion r,
        Actuation.gather
          (get_correct_traffic_state (Some [Some {| vx := 0; vy := 30; vspeed := 12 |}]))
          [0; 3; 6; 9]%Z = Ok traffic
        /\ Actuation.gather
             (get_correct_traffic_state (Some [Some {| vx := 0; vy := 30; vspeed := 12 |}]))
             [1; 4; 7; 10]%Z = Ok congestion
        /\ validate_action_choice 1 traffic congestion = Ok r
        /\ ~ idle traffic congestion r).
Proof.
  destruct validate_avoids_idle as [Hgen Hloop]. split.
  - apply Hgen.
    + exists 0, 0. repeat split; reflexivity.
    + exists 0%Z, 0.8. split; reflexivity.
  - set (snap := Some [Some {| vx := 0; vy := 30; vspeed := 12 |}]).
    destruct (Actuation.gather (get_correct_traffic_state snap) [0; 3; 6; 9]%Z)
      as [traffic |] eqn:Et; [| vm_compute in Et; discriminate].
    destruct (Actuation.gather (get_correct_traffic_state snap) [1; 4; 7; 10]%Z)
      as [congestion |] eqn:Ec; [| vm_compute in Ec; discriminate].
    assert (Htraffic : exists n s, traffic = [n; s; s; s] /\ s == 0 /\ ~ n == 0).
    { vm_compute in Et. injection Et as <-. do 2 eexists.
      split; [reflexivity |]. split; [reflexivity | discriminate]. }
    assert (Hcong : exists c, congestion = [c; c; c; c] /\ c == 0).
    { vm_compute in Ec. injection Ec as <-. eexists. split; reflexivity. }
    destruct Htraffic as (n & s & -> & Hs & Hn). destruct Hcong as (c & -> & Hc0).
    destruct (Hloop snap 1%Z [n; s; s; s] [c; c; c; c] Et Ec) as (r & Hr & Hidle).
    + exists s, c. repeat split; assumption.
    + exists 0%Z, n. split; [reflexivity | assumption].
    + exists [n; s; s; s], [c; c; c; c], r. repeat split; assumption.
Defined.

(** C5 (as the code behaves).  For a proposal that is a valid subscript of
    both lists, [validate_action_choice] returns, and what it returns
    follows the four rules in order, with the thresholds 0.05 (traffic) and
    0.1 (congestion) in rule 1, the same 0.05 in rule 2 and 0.1 in rule 3. *)
Theorem validate_follows_cascade (p : Z) (traffic congestion : list Q) :
  is_ok (index traffic p) = true ->
  is_ok (index congestion p) = true ->
  exists r,
    validate_action_choice p traffic congestion = Ok r
    /\ cascade 0.05 0.1 0.05 0.1 p traffic congestion r.
Proof.
  intros Ht Hc.
  destruct (index traffic p) as [t |] eqn:Et; [| discriminate].
  destruct (index congestion p) as [c |] eqn:Ec; [| discriminate].
  destruct (validate_cases _ _ _ Et Ec)
    as (mt & vt & mc & vc & Hmt & Hmc & Hval).
  eexists. split; [exact Hval |].
  assert (Hactive : gt t 0.05 || gt c 0.1 = false ->
                    ~ proposal_active 0.05 0.1 p traffic congestion).
  { intros E (t' & c' & Ht' & Hc' & Hor). tests_to_props.
    rewrite Et in Ht'. rewrite Ec in Hc'.
    injection Ht' as <-. injection Hc' as <-. lra. }
  assert (Hnone : forall l m v th, max_direction l m v -> gt v th = false ->
                                   none_exceeds l th).
  { intros l m v th (_ & _ & Hmax) E j w Hj. tests_to_props.
    specialize (Hmax _ _ Hj). lra. }
  destruct (gt t 0.05 || gt c 0.1) eqn:E1.
  - apply rule_accept. exists t, c. tests_to_props.
    repeat (split; [first [assumption | reflexivity] |]).
    destruct E1 as [E1 | E1]; apply gt_true in E1; auto.
  - destruct (gt vt 0.05) eqn:E2.
    + eapply rule_max_traffic; eauto. now apply gt_true.
    + destruct (gt vc 0.1) eqn:E3.
      * eapply rule_max_congestion; eauto. now apply gt_true.
      * eapply rule_fall_back; eauto.
Qed.

Lemma validate_follows_cascade_witness :
  exists r,
    validate_action_choice 1 [0.8; 0.1; 0; 0] [0.6; 0; 0; 0] = Ok r
    /\ cascade 0.05 0.1 0.05 0.1 1 [0.8; 0.1; 0; 0] [0.6; 0; 0; 0] r.
Proof.
  apply validate_follows_cascade; reflexivity.
Defined.

(** With South proposed and below both rule-1 thresholds, and North above
    South and above the rule-2 threshold, the four rules cannot keep South. *)
Lemma cascade_needs_reason (t1 c1 t2 c3 x y : Q) :
  y <= t1 -> 0 <= c1 -> y < x -> t2 < x ->
  ~ cascade t1 c1 t2 c3 1 [x; y; 0; 0] [0; 0; 0; 0] 1.
Proof.
  intros Hy Hc1 Hxy Hx H.
  assert (Hidle : ~ proposal_active t1 c1 1 [x; y; 0; 0] [0; 0; 0; 0]).
  { intros (t & c & Ht & Hc & Hor).
    injection Ht as <-. injection Hc as <-. lra. }
  assert (Hsome : ~ none_exceeds [x; y; 0; 0] t2).
  { intros Hnone. specialize (Hnone 0%Z x eq_refl). lra. }
  inversion H as [Hact | m v _ (_ & Hm & Hmax) _ Em | m v _ Hnone _ _ Em | _ Hnone _].
  - contradiction.
  - injection Hm as <-. specialize (Hmax 0%Z x eq_refl). lra.
  - contradiction.
  - contradiction.
Qed.

(** C5, refuted as stated: no choice of thresholds with the rule-2
    threshold positive and smaller than the rule-1 traffic threshold makes
    the four rules describe [validate_action_choice]. *)
Lemma validate_override_threshold_not_smaller :
  ~ exists t1 c1 t2 c3 : Q,
      0 < t2 /\ t2 < t1 /\
      forall p traffic congestion r,
        validate_action_choice p traffic congestion = Ok r ->
        cascade t1 c1 t2 c3 p traffic congestion r.
Proof.
  intros (t1 & c1 & t2 & c3 & Hpos & Hlt & H).
  destruct (Qlt_le_dec c1 0) as [Hc1 | Hc1].
  - specialize (H 1%Z [1; 0; 0; 0] [0; 0; 0; 0] 0%Z eq_refl).
    assert (Hact : proposal_active t1 c1 1 [1; 0; 0; 0] [0; 0; 0; 0]).
    { exists 0, 0. repeat split. now right. }
    inversion H; contradiction.
  - destruct (Qlt_le_dec t2 0.05) as [Ht2 | Ht2].
    + remember (t2 * (1 # 2) + (1 # 40)) as x eqn:Ex.
      assert (Hx : t2 < x /\ x < 0.05) by (subst x; split; lra).
      apply (@cascade_needs_reason t1 c1 t2 c3 x 0); try lra.
      apply H.
      destruct (@validate_cases 1 [x; 0; 0; 0] [0; 0; 0; 0] 0 0 eq_refl eq_refl)
        as (mt & vt & mc & vc & (_ & Hvt & _) & (_ & Hvc & _) & Hval).
      apply index_In in Hvt, Hvc. cbn [In] in Hvt, Hvc.
      rewrite Hval. change (gt 0 0.05 || gt 0 0.1) with false. cbv iota.
      assert (E2 : gt vt 0.05 = false).
      { apply gt_false. intuition (subst; lra). }
      assert (E3 : gt vc 0.1 = false).
      { apply gt_false. intuition (subst; lra). }
      now rewrite E2, E3.
    + remember (t1 * (1 # 2) + (1 # 40)) as y eqn:Ey.
      assert (Hy : 0.05 < y /\ y < t1) by (subst y; split; lra).
      apply (@cascade_needs_reason t1 c1 t2 c3 (t1 + 1) y); try lra.
      apply H.
      destruct (@validate_cases 1 [t1 + 1; y; 0; 0] [0; 0; 0; 0] y 0 eq_refl eq_refl)
        as (mt & vt & mc & vc & _ & _ & Hval).
      rewrite Hval, (proj2 (gt_true y 0.05)) by lra. reflexivity.
Qed.

(** ** The duration scheduler *)

Import Scheduler.

Lemma clamp_bounds (lo hi b : Z) :
  (lo <= hi)%Z -> (lo <= maxZ lo (minZ b hi) <= hi)%Z.
Proof.
  intros H. unfold maxZ, minZ, max, min.
  destruct (hi <? b)%Z eqn:E1; [apply Z.ltb_lt in E1 | apply Z.ltb_ge in E1].
  - destruct (hi >? lo)%Z eqn:E2; lia.
  - destruct (b >? lo)%Z eqn:E2; [apply Z.gtb_lt in E2; lia |].
    rewrite Z.gtb_ltb in E2. apply Z.ltb_ge in E2. lia.
Qed.

(** Whatever [calculate_adaptive_duration] returns is between the two
    bounds. *)
Lemma adaptive_duration_range (action : Z) (traffic congestion speeds : list Q)
    (min_time max_time default_time d : Z) :
  (min_time <= max_time)%Z ->
  calculate_adaptive_duration action traffic congestion speeds
    min_time max_time default_time = Ok d ->
  (min_time <= d <= max_time)%Z.
Proof.
  intros Hle. unfold calculate_adaptive_duration.
  destruct (index traffic action); [| discriminate].
  destruct (index congestion action); [| discriminate].
  destruct (index speeds action); [| discriminate].
  cbn [bind]. intros [= <-]. now apply clamp_bounds.
Qed.

(** C3.  For an action in 0..3, three four-element lists and
    [min_time <= max_time], [calculate_adaptive_duration] returns a green
    time, and that green time lies in [[min_time, max_time]], whichever of
    the x0.8 and x1.2 adjustments applied. *)
Theorem duration_within_bounds (action : Z) (traffic congestion speeds : list Q)
    (min_time max_time default_time : Z) :
  (0 <= action <= 3)%Z ->
  List.length traffic = 4%nat ->
  List.length congestion = 4%nat ->
  List.length speeds = 4%nat ->
  (min_time <= max_time)%Z ->
  exists d,
    calculate_adaptive_duration action traffic congestion speeds
      min_time max_time default_time = Ok d
    /\ (min_time <= d <= max_time)%Z.
Proof.
  intros Ha Lt Lc Ls Hle.
  destruct (@index_in_range _ traffic action) as [t Ht]; [rewrite Lt; lia |].
  destruct (@index_in_range _ congestion action) as [c Hc]; [rewrite Lc; lia |].
  destruct (@index_in_range _ speeds action) as [s Hs]; [rewrite Ls; lia |].
  unfold calculate_adaptive_duration. rewrite Ht, Hc, Hs. cbn [bind].
  eexists. split; [reflexivity |]. now apply clamp_bounds.
Qed.

Lemma duration_within_bounds_witness :
  exists d,
    calculate_adaptive_duration 0 [0.9; 0; 0; 0] [0.8; 0; 0; 0] [0.2; 0; 0; 0]
      10 45 15 = Ok d
    /\ (10 <= d <= 45)%Z.
Proof.
  apply duration_within_bounds; [lia | reflexivity | reflexivity | reflexivity | lia].
Defined.

(** The spec's scenario for the scheduler: traffic 0.9, congestion 0.8,
    speed 0.2 between 10 and 45 gives 45 (the slow-flow increase to 54 is
    cut back to the maximum). *)
Example duration_scenario_high_slow :
  calculate_adaptive_duration 0 [0.9; 0; 0; 0] [0.8; 0; 0; 0] [0.2; 0; 0; 0]
    10 45 15 = Ok 45%Z.
Proof. reflexivity. Qed.

(** ** The reward evaluator *)

Import Reward.

(** The congestion term of [calculate_smart_reward] is three times the
    decrease of the total congestion, whatever the sign of the decrease. *)
Lemma smart_congestion_term (prev_state current_state : list Q) (action : Z)
    (terms : smart_terms) :
  smart_reward_terms prev_state current_state action = Ok terms ->
  congestion_reward terms
  == (total_congestion prev_state - total_congestion current_state) * 3.0.
Proof.
  unfold smart_reward_terms.
  destruct (Actuation.gather prev_state [0; 3; 6; 9]%Z); [| discriminate].
  destruct (Actuation.gather current_state [0; 3; 6; 9]%Z); [| discriminate].
  cbn [bind].
  destruct (Actuation.gather prev_state [1; 4; 7; 10]%Z) as [pc |] eqn:Ep;
    [| discriminate].
  destruct (Actuation.gather current_state [1; 4; 7; 10]%Z) as [cc |] eqn:Ec;
    [| discriminate].
  destruct (Actuation.gather current_state [2; 5; 8; 11]%Z); [| discriminate].
  cbn [bind].
  destruct (index _ action); [| discriminate].
  destruct (index _ action); [| discriminate].
  cbn [bind]. intros [= <-]. cbn [congestion_reward].
  assert (Hsum : forall st g, Actuation.gather st [1; 4; 7; 10]%Z = Ok g ->
                              sum g == total_congestion st).
  { clear. intros st g. unfold Actuation.gather.
    destruct (index st 1) as [a |] eqn:E1; [| discriminate].
    destruct (index st 4) as [b |] eqn:E4; [| discriminate].
    destruct (index st 7) as [c |] eqn:E7; [| discriminate].
    destruct (index st 10) as [d |] eqn:E10; [| discriminate].
    cbn [bind]. intros [= <-].
    pose proof (index_Ok_range _ _ E10) as R.
    change 1%Z with (Z.of_nat 1) in E1. change 4%Z with (Z.of_nat 4) in E4.
    change 7%Z with (Z.of_nat 7) in E7. change 10%Z with (Z.of_nat 10) in E10.
    rewrite index_nth in E1, E4, E7, E10 by lia.
    injection E1 as <-. injection E4 as <-. injection E7 as <-. injection E10 as <-.
    unfold total_congestion, sum. cbn [fold_left]. ring. }
  rewrite (Hsum _ _ Ep), (Hsum _ _ Ec). reflexivity.
Qed.

(** C7, refuted as stated for the reward the control loop uses: no pair of
    weights, the one for a decrease strictly above the one for an
    increase, gives the congestion term of [calculate_smart_reward]. *)
Lemma smart_congestion_weights_not_ordered :
  ~ exists w_decrease w_increase : Q,
      0 < w_increase /\ w_increase < w_decrease /\
      forall prev_state current_state action terms,
        smart_reward_terms prev_state current_state action = Ok terms ->
        congestion_reward terms
        == (total_congestion prev_state - total_congestion current_state)
           * (if lt (total_congestion current_state) (total_congestion prev_state)
              then w_decrease else w_increase).
Proof.
  intros (wd & wi & Hpos & Hlt & H).
  pose (calm := [0; 0; 0; 0; 0; 0; 0; 0; 0; 0; 0; 0]).
  pose (jam := [0; 1; 0; 0; 0; 0; 0; 0; 0; 0; 0; 0]).
  destruct (smart_reward_terms jam calm 0) as [down |] eqn:Edown;
    [| vm_compute in Edown; discriminate].
  destruct (smart_reward_terms calm jam 0) as [up |] eqn:Eup;
    [| vm_compute in Eup; discriminate].
  pose proof (H _ _ _ _ Edown) as Hd. pose proof (H _ _ _ _ Eup) as Hu.
  rewrite (smart_congestion_term _ _ _ Edown) in Hd.
  rewrite (smart_congestion_term _ _ _ Eup) in Hu.
  change (total_congestion jam) with (0 + 1 + 0 + 0) in Hd, Hu.
  change (total_congestion calm) with (0 + 0 + 0 + 0) in Hd, Hu.
  change (lt (0 + 0 + 0 + 0) (0 + 1 + 0 + 0)) with true in Hd.
  change (lt (0 + 1 + 0 + 0) (0 + 0 + 0 + 0)) with false in Hu.
  cbv iota in Hd, Hu. lra.
Qed.

(** On twelve-feature states and a valid direction the five terms are
    always produced. *)
Lemma smart_reward_terms_total (prev_state current_state : list Q) (action : Z) :
  List.length prev_state = 12%nat ->
  List.length current_state = 12%nat ->
  (-4 <= action < 4)%Z ->
  exists terms, smart_reward_terms prev_state current_state action = Ok terms.
Proof.
  intros Hp Hc Ha.
  unfold smart_reward_terms.
  change [0; 3; 6; 9]%Z with [Z.of_nat 0; Z.of_nat 3; Z.of_nat 6; Z.of_nat 9].
  change [1; 4; 7; 10]%Z with [Z.of_nat 1; Z.of_nat 4; Z.of_nat 7; Z.of_nat 10].
  change [2; 5; 8; 11]%Z with [Z.of_nat 2; Z.of_nat 5; Z.of_nat 8; Z.of_nat 11].
  rewrite !gather_four by lia. cbn [bind].
  match goal with |- context [index ?l action] =>
    destruct (@index_in_range _ l action) as [t Ht]; [cbn; lia | rewrite Ht] end.
  match goal with |- context [index ?l action] =>
    destruct (@index_in_range _ l action) as [c Hc']; [cbn; lia | rewrite Hc'] end.
  cbn [bind]. eauto.
Qed.

(** C7 (as the code behaves).  In [calculate_smart_reward] the congestion
    term is the decrease of total congestion times 3.0, for a decrease and
    for an increase alike.  The two weights, 3.0 for a decrease and 1.0
    otherwise, are those of [calculate_comprehensive_reward], over the
    features at positions 1, 5, 9, 13 of states that have them. *)
Theorem congestion_term_weights :
  (forall prev_state current_state action,
      List.length prev_state = 12%nat ->
      List.length current_state = 12%nat ->
      (-4 <= action < 4)%Z ->
      exists terms,
        smart_reward_terms prev_state current_state action = Ok terms
        /\ congestion_reward terms
           == (total_congestion prev_state - total_congestion current_state) * 3.0)
  /\ (forall prev_state current_state,
        (14 <= List.length prev_state)%nat ->
        (14 <= List.length current_state)%nat ->
        comprehensive_congestion_reward prev_state current_state
        == (total_halting prev_state - total_halting current_state)
           * (if lt (total_halting current_state) (total_halting prev_state)
              then 3.0 else 1.0)).
Proof.
  split.
  { intros prev curr action Hp Hc Ha.
    destruct (smart_reward_terms_total prev curr Hp Hc Ha) as [terms Ht].
    exists terms. split; [exact Ht |]. eapply smart_congestion_term; eauto. }
  intros prev curr Hp Hc.
  assert (Hsum : forall st, (14 <= List.length st)%nat ->
            exists v, sum_at st (range 1 16 4) 0 = Ok v /\ v == total_halting st).
  { clear. intros st Hst.
    change (range 1 16 4) with [Z.of_nat 1; Z.of_nat 5; Z.of_nat 9; Z.of_nat 13].
    cbn [sum_at]. rewrite !index_nth by lia. cbn [bind sum_at].
    eexists. split; [reflexivity |]. unfold total_halting. ring. }
  destruct (Hsum _ Hp) as (hp & Ep & Hhp). destruct (Hsum _ Hc) as (hc & Ec & Hhc).
  unfold comprehensive_congestion_reward. rewrite Ep, Ec.
  destruct (lt hc hp) eqn:E1;
    destruct (lt (total_halting curr) (total_halting prev)) eqn:E2;
    tests_to_props; lra.
Qed.

Lemma congestion_term_weights_witness :
  (exists terms,
      smart_reward_terms [0; 0; 0; 0; 0; 0; 0; 0; 0; 0; 0; 0]
        [0; 1; 0; 0; 0; 0; 0; 0; 0; 0; 0; 0] 0 = Ok terms
      /\ congestion_reward terms == - (3))
  /\ comprehensive_congestion_reward
       [0; 0; 0; 0; 0; 0; 0; 0; 0; 0; 0; 0; 0; 0; 0; 0]
       [0; 1; 0; 0; 0; 0; 0; 0; 0; 0; 0; 0; 0; 0; 0; 0] == - (1).
Proof.
  destruct congestion_term_weights as [Hs Hc]. split.
  - destruct (Hs [0; 0; 0; 0; 0; 0; 0; 0; 0; 0; 0; 0]
                 [0; 1; 0; 0; 0; 0; 0; 0; 0; 0; 0; 0] 0%Z)
      as (terms & Ht & Hv); [reflexivity | reflexivity | lia |].
    exists terms. split; [exact Ht |]. rewrite Hv. reflexivity.
  - rewrite Hc; [reflexivity | cbn; lia | cbn; lia].
Defined.

(** ** The agents *)

Import Agent.

Section AgentFacts.

Variable network : Type.
Variable fit_sample : network -> Q -> transition -> network.
Variable fit_batch : network -> Q -> list transition -> network.

(** *** Green time chosen by the agent *)

(** C10.  On an agent with the timing attributes of [__init__] (5, 45,
    15), [choose_phase_duration] returns for every state and action: the
    value is one of 5, 15, 25, 45, or one of these plus 10 capped at 45,
    so it lies in [5, 45]; and whenever one of the three subscripts
    [state[4a]], [state[4a+1]], [state[4a+2]] raises, it is the default 15. *)
Theorem choose_phase_duration_bounded (a : EnhancedDQNAgent network) (state : list Q) (action : Z) :
  min_phase_duration a = 5%Z ->
  max_phase_duration a = 45%Z ->
  default_duration a = 15%Z ->
  exists d,
    choose_phase_duration a state action = Ok d
    /\ (5 <= d <= 45)%Z
    /\ In d [5; 15; 25; 35; 45]%Z
    /\ (is_ok (index state (action * 4)) && is_ok (index state (action * 4 + 1))
        && is_ok (index state (action * 4 + 2)) = false -> d = 15%Z).
Proof.
  intros Hmin Hmax Hdef. unfold choose_phase_duration.
  rewrite Hmin, Hmax, Hdef.
  destruct (index state (action * 4)) as [vehicle_count |];
    [| exists 15%Z; cbn; intuition lia].
  destruct (index state (action * 4 + 1)) as [halting_count |];
    [| exists 15%Z; cbn; intuition lia].
  destruct (index state (action * 4 + 2)) as [speed |];
    [| exists 15%Z; cbn; intuition lia].
  cbn [bind is_ok andb].
  destruct (18 <? List.length state)%nat eqn:Elen.
  - apply Nat.ltb_lt in Elen.
    change 18%Z with (Z.of_nat 18). rewrite index_nth by exact Elen. cbn [bind].
    destruct (gt vehicle_count 0.7), (gt halting_count 0.5),
      (gt vehicle_count 0.3), (gt (nth 18 state 0) 0);
      cbn; eexists; (split; [reflexivity |]); intuition (try lia; try discriminate).
  - destruct (gt vehicle_count 0.7), (gt halting_count 0.5), (gt vehicle_count 0.3);
      cbn; eexists; (split; [reflexivity |]); intuition (try lia; try discriminate).
Qed.

(** *** Remembering a transition *)

Lemma append_last {A : Type} (d : deque A) (x : A) :
  (0 < maxlen d)%Z -> exists front, items (append d x) = (front ++ [x])%list.
Proof.
  intros Hpos. unfold append. cbn [items].
  set (k := Z.to_nat _).
  assert (Hk : (k <= List.length (items d))%nat).
  { subst k. rewrite length_app. cbn [List.length]. lia. }
  exists (skipn k (items d)).
  rewrite skipn_app.
  replace (k - List.length (items d))%nat with 0%nat by lia. reflexivity.
Qed.

Lemma congestion_sum_short (state : list Q) :
  List.length state = 12%nat ->
  range 1 16 4 = [1; 5; 9; 13]%Z
  /\ is_ok (index state 1) = true /\ is_ok (index state 5) = true
  /\ is_ok (index state 9) = true
  /\ index state 13 = Raise IndexError
  /\ congestion_sum state = Raise IndexError.
Proof.
  intros Hlen. split; [reflexivity |].
  assert (Hin : forall n, (n < 12)%nat -> index state (Z.of_nat n) = Ok (nth n state 0)).
  { intros n Hn. apply index_nth. lia. }
  assert (H13 : index state 13 = Raise IndexError).
  { change 13%Z with (Z.of_nat 13). rewrite index_of_nat.
    replace (nth_error state 13) with (@None Q); [reflexivity |].
    symmetry. apply nth_error_None. lia. }
  change 1%Z with (Z.of_nat 1). change 5%Z with (Z.of_nat 5).
  change 9%Z with (Z.of_nat 9).
  rewrite !Hin by lia. repeat split; try assumption.
  unfold congestion_sum.
  change (range 1 16 4) with [Z.of_nat 1; Z.of_nat 5; Z.of_nat 9; 13%Z].
  cbn [sum_at]. rewrite !Hin by lia. cbn [bind]. now rewrite H13.
Qed.

(** C9.  On a state of twelve features the sum over [range(1, 16, 4)]
    reads positions 1, 5 and 9 and then raises on position 13.
    [remember_priority] nevertheless returns: the transition is appended
    to the general memory (it is its newest entry), the reward is recorded
    in the performance history, the priority memory gets the transition
    exactly when [|reward| > 2], and the congestion history stays as it
    was. *)
Theorem remember_priority_short_state (a : EnhancedDQNAgent network) (state : list Q) (action : Z)
    (reward : Q) (next_state : list Q) (done : bool) :
  List.length state = 12%nat ->
  (0 < maxlen (memory (base a)))%Z ->
  let t := (state, action, reward, next_state, done) in
  range 1 16 4 = [1; 5; 9; 13]%Z
  /\ index state 13 = Raise IndexError
  /\ congestion_sum state = Raise IndexError
  /\ exists a',
       remember_priority a t = Ok a'
       /\ memory (base a') = append (memory (base a)) t
       /\ (exists front, items (memory (base a')) = (front ++ [t])%list)
       /\ performance_history a' = append (performance_history a) reward
       /\ priority_memory a' =
          (if gt (abs reward) 2.0 then append (priority_memory a) t
           else priority_memory a)
       /\ congestion_history a' = congestion_history a.
Proof.
  intros Hlen Hcap t.
  destruct (congestion_sum_short state Hlen) as (Hr & _ & _ & _ & H13 & Hsum).
  repeat (split; [assumption |]).
  unfold remember_priority, t. rewrite Hsum. cbn [bind try_except].
  eexists. split; [reflexivity |]. cbn.
  repeat split. now apply append_last.
Qed.

End AgentFacts.

Lemma choose_phase_duration_bounded_witness :
  exists d,
    choose_phase_duration (EnhancedDQNAgent_init tt 12 4)
      [0.8; 0.6; 0.5; 0.1; 0; 0.9; 0; 0; 0; 0; 0; 0] 0 = Ok d
    /\ (5 <= d <= 45)%Z
    /\ In d [5; 15; 25; 35; 45]%Z
    /\ (is_ok (index [0.8; 0.6; 0.5; 0.1; 0; 0.9; 0; 0; 0; 0; 0; 0] (0 * 4))
        && is_ok (index [0.8; 0.6; 0.5; 0.1; 0; 0.9; 0; 0; 0; 0; 0; 0] (0 * 4 + 1))
        && is_ok (index [0.8; 0.6; 0.5; 0.1; 0; 0.9; 0; 0; 0; 0; 0; 0] (0 * 4 + 2))
        = false -> d = 15%Z).
Proof.
  apply choose_phase_duration_bounded; reflexivity.
Defined.

Lemma remember_priority_short_state_witness :
  exists a',
    remember_priority (EnhancedDQNAgent_init tt 12 4)
      ([0.8; 0.6; 0.5; 0.1; 0; 0.9; 0; 0; 0; 0; 0; 0], 0%Z, 3,
       [0; 0; 0; 0; 0; 0; 0; 0; 0; 0; 0; 0], false) = Ok a'
    /\ congestion_history a' = congestion_history (EnhancedDQNAgent_init tt 12 4).
Proof.
  destruct (@remember_priority_short_state unit (EnhancedDQNAgent_init tt 12 4)
              [0.8; 0.6; 0.5; 0.1; 0; 0.9; 0; 0; 0; 0; 0; 0] 0 3
              [0; 0; 0; 0; 0; 0; 0; 0; 0; 0; 0; 0] false)
    as (_ & _ & _ & a' & Hok & _ & _ & _ & _ & Hch).
  - reflexivity.
  - reflexivity.
  - exists a'. split; assumption.
Defined.

(** ** Decay of the exploration rate *)

Section Exploration.

Variable network : Type.
Variable fit_sample : network -> Q -> transition -> result network.
Variable fit_batch : network -> Q -> list transition -> result network.

Lemma decay_epsilon_fields (b : DQNAgent network) :
  epsilon_min (decay_epsilon b) = epsilon_min b
  /\ epsilon_decay (decay_epsilon b) = epsilon_decay b
  /\ epsilon (decay_epsilon b) =
     (if gt (epsilon b) (epsilon_min b) then epsilon b * epsilon_decay b
      else epsilon b).
Proof.
  unfold decay_epsilon. destruct (gt (epsilon b) (epsilon_min b)); cbn; auto.
Qed.

(** One training call either leaves the exploration attributes alone or
    applies [decay_epsilon] to them; it applies it exactly when the call
    is completed. *)
Lemma train_epsilon (a : EnhancedDQNAgent network) (c : training_call) :
  epsilon_min (base (fst (train fit_sample fit_batch a c))) = epsilon_min (base a)
  /\ epsilon_decay (base (fst (train fit_sample fit_batch a c)))
     = epsilon_decay (base a)
  /\ epsilon (base (fst (train fit_sample fit_batch a c))) =
     (if completed fit_sample fit_batch a c
         && gt (epsilon (base a)) (epsilon_min (base a))
      then epsilon (base a) * epsilon_decay (base a)
      else epsilon (base a)).
Proof.
  unfold completed. destruct c as [n d | n rd pd]; cbn [train].
  - unfold replay.
    destruct (Z.of_nat (len (memory (base a))) <? n)%Z; cbn [negb andb];
      [cbn; auto |].
    destruct (sample (items (memory (base a))) n d) as [minibatch | e];
      [| cbn; auto].
    destruct (fit_samples fit_sample (model (base a)) (gamma (base a)) minibatch)
      as [net [e |]];
      cbn [fst snd base set_base andb]; [cbn; auto |].
    rewrite !(proj1 (decay_epsilon_fields _)),
            !(proj1 (proj2 (decay_epsilon_fields _))),
            !(proj2 (proj2 (decay_epsilon_fields _))). cbn. auto.
  - unfold enhanced_replay.
    destruct (Z.of_nat (len (memory (base a))) <? n)%Z;
      cbn [negb andb fst snd]; [auto |].
    match goal with |- context [sample (items (memory (base a))) ?k rd] =>
      destruct (sample (items (memory (base a))) k rd) as [regular | e] end;
      cbn [fst snd andb]; [| auto].
    match goal with |- context [if ?c then sample ?p ?k pd else Ok []] =>
      destruct (if c then sample p k pd else Ok []) as [priority | e] end;
      cbn [fst snd andb]; [| auto].
    match goal with |- context [match ?m with [] => _ | _ :: _ => _ end] =>
      destruct m as [| t minibatch] end; cbn [fst snd andb]; [auto |].
    match goal with |- context [fit_batch ?n ?g ?m] =>
      destruct (fit_batch n g m) as [net | e] end;
      cbn [fst snd base set_base andb]; [| auto].
    rewrite !(proj1 (decay_epsilon_fields _)),
            !(proj1 (proj2 (decay_epsilon_fields _))),
            !(proj2 (proj2 (decay_epsilon_fields _))). cbn. auto.
Qed.

Lemma train_exploration_ok (a : EnhancedDQNAgent network) (c : training_call) :
  exploration_ok (base a) ->
  exploration_ok (base (fst (train fit_sample fit_batch a c)))
  /\ epsilon (base (fst (train fit_sample fit_batch a c))) <= epsilon (base a).
Proof.
  intros (Hmin & Hd0 & Hd1 & Hfloor).
  destruct (train_epsilon a c) as (Emin & Edec & Eeps).
  unfold exploration_ok. rewrite Emin, Edec, Eeps.
  destruct (completed fit_sample fit_batch a c
            && gt (epsilon (base a)) (epsilon_min (base a))) eqn:E.
  - tests_to_props.
    assert (H1 : epsilon_min (base a) * epsilon_decay (base a)
                 <= epsilon (base a) * epsilon_decay (base a)).
    { apply Qmult_le_compat_r; lra. }
    assert (H2 : epsilon (base a) * epsilon_decay (base a) <= epsilon (base a)).
    { rewrite <- (Qmult_1_r (epsilon (base a))) at 2.
      rewrite !(Qmult_comm (epsilon (base a))).
      apply Qmult_le_compat_r; lra. }
    repeat split; assumption.
  - repeat split; try assumption. apply Qle_refl.
Qed.

Lemma train_all_exploration_ok (cs : list training_call) (a : EnhancedDQNAgent network) :
  exploration_ok (base a) ->
  exploration_ok (base (train_all fit_sample fit_batch a cs))
  /\ epsilon_min (base (train_all fit_sample fit_batch a cs)) = epsilon_min (base a)
  /\ epsilon_decay (base (train_all fit_sample fit_batch a cs)) = epsilon_decay (base a)
  /\ epsilon (base (train_all fit_sample fit_batch a cs)) <= epsilon (base a).
Proof.
  revert a. induction cs as [| c cs IH]; intros a Hok; cbn [train_all fold_left].
  - split; [exact Hok |]. split; [reflexivity |]. split; [reflexivity | apply Qle_refl].
  - destruct (train_exploration_ok a c Hok) as [Hok' Hle].
    destruct (train_epsilon a c) as (Emin & Edec & _).
    destruct (IH _ Hok') as (H1 & H2 & H3 & H4).
    fold (train_all fit_sample fit_batch (fst (train fit_sample fit_batch a c)) cs).
    split; [exact H1 |]. split; [congruence |]. split; [congruence |].
    eapply Qle_trans; eassumption.
Qed.

(** Both constructors set up the attributes the decay relies on. *)
Lemma init_exploration_ok (net0 : network) (state_size action_size : Z) :
  exploration_ok (DQNAgent_init net0 state_size action_size)
  /\ exploration_ok (base (EnhancedDQNAgent_init net0 state_size action_size)).
Proof. split; unfold exploration_ok; cbn; repeat split; discriminate. Qed.

(** C8.  Start from an agent whose floor is not negative, whose decay
    factor is in [0, 1) and whose rate is at least floor times factor (the
    values of both [__init__]s are such).  Take any run of training calls
    ([replay] or [enhanced_replay], returning or raising), split anywhere
    into an earlier and a later part: the rate after the later part is no
    higher than after the earlier part and no lower than floor times
    factor; and a further call multiplies the rate by the factor when the
    call is completed (it gets past the early return and does not raise)
    and the rate is above the floor, and leaves it unchanged otherwise. *)
Theorem epsilon_decays (a : EnhancedDQNAgent network)
    (earlier later : list training_call) :
  exploration_ok (base a) ->
  let a1 := train_all fit_sample fit_batch a earlier in
  let a2 := train_all fit_sample fit_batch a (earlier ++ later) in
  epsilon (base a2) <= epsilon (base a1)
  /\ epsilon_min (base a) * epsilon_decay (base a) <= epsilon (base a2)
  /\ epsilon_decay (base a) < 1
  /\ forall c,
       epsilon (base (fst (train fit_sample fit_batch a2 c))) =
       (if completed fit_sample fit_batch a2 c
           && gt (epsilon (base a2)) (epsilon_min (base a))
        then epsilon (base a2) * epsilon_decay (base a)
        else epsilon (base a2)).
Proof.
  intros Hok a1 a2.
  assert (E : a2 = train_all fit_sample fit_batch a1 later).
  { unfold a2, a1, train_all. apply fold_left_app. }
  destruct (train_all_exploration_ok earlier a Hok) as (Hok1 & Hmin1 & Hdec1 & _).
  fold a1 in Hok1, Hmin1, Hdec1.
  destruct (train_all_exploration_ok later a1 Hok1) as (Hok2 & Hmin2 & Hdec2 & Hle).
  rewrite <- E in Hok2, Hmin2, Hdec2, Hle.
  destruct Hok2 as (_ & _ & Hlt & Hfloor).
  repeat split.
  - exact Hle.
  - rewrite Hmin2, Hdec2, Hmin1, Hdec1 in Hfloor. exact Hfloor.
  - destruct Hok as (_ & _ & H & _). exact H.
  - intros c. destruct (train_epsilon a2 c) as (_ & _ & Eeps).
    rewrite Eeps. now rewrite Hmin2, Hdec2, Hmin1, Hdec1.
Qed.

End Exploration.

Lemma epsilon_decays_witness :
  let a := Scenarios.two_transition_agent in
  let train := train Scenarios.fit_one Scenarios.fit_all in
  let completed := completed Scenarios.fit_one Scenarios.fit_all in
  let calls := [CallEnhancedReplay 0 [] []; CallEnhancedReplay 2 [] [];
                CallReplay 1 []; CallEnhancedReplay (-1) [] []] in
  epsilon (base (train_all Scenarios.fit_one Scenarios.fit_all a calls))
  <= epsilon (base a)
  /\ epsilon_min (base a) * epsilon_decay (base a)
     <= epsilon (base (train_all Scenarios.fit_one Scenarios.fit_all a calls))
  /\ snd (train a (CallEnhancedReplay 0 [] [])) = Some RuntimeError
  /\ completed a (CallEnhancedReplay 0 [] []) = false
  /\ epsilon (base (fst (train a (CallEnhancedReplay 0 [] [])))) = epsilon (base a)
  /\ completed a (CallEnhancedReplay 2 [] []) = true
  /\ epsilon (base (fst (train a (CallEnhancedReplay 2 [] []))))
     = epsilon (base a) * epsilon_decay (base a).
Proof.
  intros a train completed calls.
  assert (Hok : exploration_ok (base a)).
  { unfold exploration_ok. cbn. repeat split; discriminate. }
  destruct (@epsilon_decays unit Scenarios.fit_one Scenarios.fit_all a [] calls Hok)
    as (H1 & H2 & _ & _).
  destruct (@epsilon_decays unit Scenarios.fit_one Scenarios.fit_all a [] [] Hok)
    as (_ & _ & _ & H).
  split; [exact H1 |]. split; [exact H2 |].
  split; [reflexivity |]. split; [reflexivity |].
  split; [exact (H (CallEnhancedReplay 0 [] [])) |].
  split; [reflexivity |].
  exact (H (CallEnhancedReplay 2 [] [])).
Defined.

(** ** The control loop *)

Import ControlLoop.

Section LoopFacts.

Variable network : Type.
Variable fit_sample : network -> Q -> transition -> network.
Variable fit_batch : network -> Q -> list transition -> network.

Lemma chosen_duration_range (dqn_action : Z) (state : list Q) (a d : Z) :
  Actuation.choose_intelligent_action_and_duration dqn_action state
    MINIMUM_GREEN_TIME MAXIMUM_GREEN_TIME DEFAULT_GREEN_TIME = Ok (a, d) ->
  (MINIMUM_GREEN_TIME <= d <= MAXIMUM_GREEN_TIME)%Z.
Proof.
  unfold Actuation.choose_intelligent_action_and_duration.
  destruct (Actuation.gather state [0; 3; 6; 9]%Z); [| discriminate].
  destruct (Actuation.gather state [1; 4; 7; 10]%Z); [| discriminate].
  destruct (Actuation.gather state [2; 5; 8; 11]%Z); [| discriminate].
  cbn [bind].
  destruct (validate_action_choice _ _ _); [| discriminate]. cbn [bind].
  destruct (calculate_adaptive_duration _ _ _ _ _ _ _) eqn:E; [| discriminate].
  cbn [bind]. intros [= <- <-].
  eapply adaptive_duration_range; [| exact E]. unfold MINIMUM_GREEN_TIME, MAXIMUM_GREEN_TIME. lia.
Qed.

(** The training step of a phase switch returns an agent or raises. *)
Ltac trained_or_raised :=
  match goal with |- context [bind ?m _] => destruct m as [agent2 |] end;
  [| discriminate]; cbn [bind].

(** What a phase switch does to the phase record. *)
Lemma change_phase_timing (s s' : loop_state network) (i : tick_input) (state : list Q) :
  change_phase fit_batch s i state = Ok s' ->
  exists a d,
    current_action s' = Some a
    /\ current_phase_start s' = current_time i
    /\ current_duration s' = d
    /\ actual_duration s' = Some d
    /\ step s' = step s
    /\ ((MINIMUM_GREEN_TIME <= d <= MAXIMUM_GREEN_TIME)%Z \/ actual_duration s = Some d).
Proof.
  unfold change_phase.
  match goal with |- context [bind ?m _] => destruct m as [[agent1 rewards1] |] end;
    [| discriminate].
  cbn [bind].
  destruct (Actuation.choose_intelligent_action_and_duration _ _ _ _ _)
    as [[action duration] |] eqn:Echoose; [| discriminate].
  cbn [bind].
  destruct (Actuation.apply_intelligent_action _ _); [| discriminate]. cbn [bind].
  pose proof (chosen_duration_range _ _ Echoose) as Hd.
  assert (Hmax : maxZ duration MINIMUM_GREEN_TIME = duration).
  { unfold maxZ, max. destruct (MINIMUM_GREEN_TIME >? duration)%Z eqn:E; [| reflexivity].
    apply Z.gtb_lt in E. lia. }
  destruct (actuator i); rewrite ?Hmax.
  - destruct (actual_duration s) as [d |] eqn:Ed; [| discriminate]. cbn [bind].
    trained_or_raised. intros [= <-]. exists action, d. cbn. auto 10.
  - cbn [bind]. trained_or_raised. intros [= <-]. exists action, duration. cbn. auto 10.
  - cbn [bind]. trained_or_raised. intros [= <-]. exists action, duration. cbn. auto 10.
Qed.

(** A phase switch also records the clock reading and the state it saw. *)
Lemma change_phase_record (s s' : loop_state network) (i : tick_input) (state : list Q) :
  change_phase fit_batch s i state = Ok s' ->
  current_phase_start s' = current_time i /\ prev_state s' = Some state.
Proof.
  unfold change_phase.
  match goal with |- context [bind ?m _] => destruct m as [[agent1 rewards1] |] end;
    [| discriminate].
  cbn [bind].
  destruct (Actuation.choose_intelligent_action_and_duration _ _ _ _ _)
    as [[action duration] |]; [| discriminate].
  cbn [bind].
  destruct (Actuation.apply_intelligent_action _ _); [| discriminate]. cbn [bind].
  match goal with |- context [bind ?m _] => destruct m as [new_duration |] end;
    [| discriminate].
  cbn [bind]. trained_or_raised. intros [= <-]. cbn. auto.
Qed.

(** What one iteration does to the phase record: nothing, or a switch. *)
Lemma tick_timing (s s' : loop_state network) (i : tick_input) :
  tick fit_batch s i = Ok s' ->
  (should_change_phase s (current_time i) = false
   /\ current_action s' = current_action s
   /\ current_phase_start s' = current_phase_start s
   /\ current_duration s' = current_duration s
   /\ actual_duration s' = actual_duration s)
  \/ (should_change_phase s (current_time i) = true
      /\ exists a d,
           current_action s' = Some a
           /\ current_phase_start s' = current_time i
           /\ current_duration s' = d
           /\ actual_duration s' = Some d
           /\ ((MINIMUM_GREEN_TIME <= d <= MAXIMUM_GREEN_TIME)%Z
               \/ actual_duration s = Some d)).
Proof.
  unfold tick.
  match goal with |- context [should_change_phase ?s0 _] =>
    change (should_change_phase s0 (current_time i))
      with (should_change_phase s (current_time i)) end.
  destruct (should_change_phase s (current_time i)) eqn:Eswitch.
  - match goal with |- context [change_phase _ ?s0 _ _] =>
      destruct (change_phase fit_batch s0 i
                  (Normalizer.get_correct_traffic_state (vehicles i))) as [s1 |] eqn:E1
    end; [| discriminate].
    cbn [bind]. apply change_phase_timing in E1.
    destruct E1 as (a & d & Ha & Hs & Hd & Hact & _ & Hrange).
    intros H. right. split; [reflexivity |]. exists a, d.
    destruct (step s1 mod 100 =? 0)%Z; injection H as <-; cbn; auto 10.
  - cbn [bind]. intros H. left. split; [reflexivity |].
    match type of H with context [if ?c then _ else _] => destruct c end;
      injection H as <-; cbn; auto.
Qed.

Lemma tick_durations_ok (s s' : loop_state network) (i : tick_input) :
  durations_ok s -> tick fit_batch s i = Ok s' -> durations_ok s'.
Proof.
  intros [Hact Hcur] Ht. apply tick_timing in Ht.
  destruct Ht as [(_ & Ea & _ & Ed & Eact) | (_ & a & d & Ea & _ & Ed & Eact & Hr)].
  - split; rewrite ?Ea, ?Ed, ?Eact; assumption.
  - assert (Hd : (MINIMUM_GREEN_TIME <= d <= MAXIMUM_GREEN_TIME)%Z).
    { destruct Hr as [Hr | Hr]; [assumption | now apply Hact]. }
    split; rewrite ?Ed, ?Eact.
    + intros d' [= <-]. exact Hd.
    + intros _. exact Hd.
Qed.

Lemma run_durations_ok (ticks : list tick_input) (s s' : loop_state network) :
  durations_ok s -> run fit_batch s ticks = Ok s' -> durations_ok s'.
Proof.
  revert s. induction ticks as [| i rest IH]; intros s Hs; cbn [run].
  - now intros [= <-].
  - destruct (tick fit_batch s i) as [s1 |] eqn:E; [| discriminate]. cbn [bind].
    apply IH. eapply tick_durations_ok; eauto.
Qed.

(** The guard spelled out. *)
Lemma should_change_phase_guard (s : loop_state network) (now : Q) (a : Z) :
  current_action s = Some a ->
  should_change_phase s now = true <->
  inject_Z MINIMUM_GREEN_TIME <= phase_elapsed s now
  /\ (inject_Z (current_duration s) <= phase_elapsed s now
      \/ inject_Z MAXIMUM_GREEN_TIME <= phase_elapsed s now).
Proof.
  intros Ha. unfold should_change_phase. rewrite Ha.
  rewrite andb_true_iff, orb_true_iff, !ge_true. reflexivity.
Qed.

Lemma tick_phase_running (s s' : loop_state network) (i : tick_input) (last : Q) :
  durations_ok s -> phase_running s last ->
  current_time i == last + 1 ->
  tick fit_batch s i = Ok s' ->
  phase_running s' (current_time i).
Proof.
  intros [Hact Hcur] Hrun Hclock Ht Hsome. apply tick_timing in Ht.
  destruct Ht as [(Esw & Ea & Es & Ed & _) | (_ & a & d & Ea & Es & Ed & _ & Hr)].
  - rewrite Ea in Hsome. specialize (Hrun Hsome). specialize (Hcur Hsome).
    destruct Hrun as (n & Hn & Hn0 & Hnd).
    destruct (current_action s) as [a |] eqn:Eact; [| congruence].
    assert (Hnot : ~ (inject_Z MINIMUM_GREEN_TIME <= phase_elapsed s (current_time i)
                      /\ (inject_Z (current_duration s) <= phase_elapsed s (current_time i)
                          \/ inject_Z MAXIMUM_GREEN_TIME <= phase_elapsed s (current_time i)))).
    { rewrite <- (should_change_phase_guard s (current_time i) Eact). congruence. }
    assert (Hel : phase_elapsed s (current_time i) == inject_Z (n + 1)).
    { unfold phase_elapsed in *. rewrite inject_Z_plus. change (inject_Z 1) with 1. lra. }
    exists (n + 1)%Z. unfold phase_elapsed in *. rewrite Es, Ed.
    split; [exact Hel |]. split; [lia |].
    destruct (Z_lt_le_dec (n + 1) (current_duration s)) as [Hlt | Hge]; [exact Hlt |].
    exfalso. apply Hnot. rewrite Hel.
    split; [| left]; rewrite <- Zle_Qle; lia.
  - exists 0%Z. unfold phase_elapsed. rewrite Es, Ed.
    split; [change (inject_Z 0) with 0; lra |].
    assert (Hd : (MINIMUM_GREEN_TIME <= d <= MAXIMUM_GREEN_TIME)%Z).
    { destruct Hr as [Hr | Hr]; [assumption | now apply Hact]. }
    unfold MINIMUM_GREEN_TIME in Hd. lia.
Qed.

Lemma run_phase_running (ticks : list tick_input) (s s' : loop_state network) (last : Q) :
  durations_ok s -> phase_running s last ->
  unit_clock last ticks ->
  run fit_batch s ticks = Ok s' ->
  phase_running s' (last_time last ticks).
Proof.
  revert s last. induction ticks as [| i rest IH]; intros s last Hd Hp Hclock;
    cbn [run last_time].
  - now intros [= <-].
  - destruct Hclock as [Hnow Hrest].
    destruct (tick fit_batch s i) as [s1 |] eqn:E; [| discriminate]. cbn [bind].
    apply IH; [eapply tick_durations_ok | eapply tick_phase_running |]; eauto.
Qed.

Lemma unit_clock_app (before : list tick_input) (now : tick_input) (t0 : Q) :
  unit_clock t0 (before ++ [now]) ->
  unit_clock t0 before /\ current_time now == last_time t0 before + 1.
Proof.
  revert t0. induction before as [| i rest IH]; intros t0; cbn.
  - tauto.
  - intros [H1 H2]. destruct (IH _ H2). tauto.
Qed.

Lemma initial_durations_ok (net0 : network) : durations_ok (initial net0).
Proof. split; cbn; [discriminate | congruence]. Qed.

(** What one iteration does: it keeps the phase, or it has found the guard
    true and has recorded a new phase that starts at the clock reading. *)
Lemma tick_cases (s s' : loop_state network) (i : tick_input) :
  tick fit_batch s i = Ok s' ->
  (should_change_phase s (current_time i) = false /\ phase_kept s s')
  \/ (should_change_phase s (current_time i) = true
      /\ current_phase_start s' = current_time i
      /\ prev_state s' = Some (Normalizer.get_correct_traffic_state (vehicles i))
      /\ current_action s' <> None).
Proof.
  unfold tick.
  match goal with |- context [should_change_phase ?s0 _] =>
    change (should_change_phase s0 (current_time i))
      with (should_change_phase s (current_time i)) end.
  destruct (should_change_phase s (current_time i)) eqn:Eswitch.
  - match goal with |- context [change_phase _ ?s0 _ _] =>
      destruct (change_phase fit_batch s0 i
                  (Normalizer.get_correct_traffic_state (vehicles i))) as [s1 |] eqn:E1
    end; [| discriminate].
    cbn [bind]. pose proof (change_phase_record _ _ _ E1) as [Hstart Hprev].
    apply change_phase_timing in E1. destruct E1 as (a & d & Ha & _).
    intros H. right. split; [reflexivity |].
    destruct (step s1 mod 100 =? 0)%Z; injection H as <-; cbn;
      rewrite ?Hstart, ?Hprev, ?Ha; repeat split; discriminate.
  - cbn [bind]. intros H. left. split; [reflexivity |].
    unfold phase_kept.
    match type of H with context [if ?c then _ else _] => destruct c end;
      injection H as <-; cbn; auto 10.
Qed.

(** C6 (as the code behaves).  Take any run of the loop from its initial
    state, a state [s] it reaches in which a phase has been committed, and
    the next iteration, from which the loop comes out in state [s'].  The
    iteration changes the phase (anything among its start, action, green
    time, remembered state, agent and rewards) exactly when the elapsed time
    of the phase is at least MINIMUM_GREEN_TIME and it is at least the
    committed duration or at least MAXIMUM_GREEN_TIME; it then starts the
    new phase at the clock reading.  The committed duration is itself
    between the two constants.  When the simulation clock advances by one
    second per iteration, the elapsed time at an iteration that changes the
    phase equals the committed duration, and so is at most
    MAXIMUM_GREEN_TIME. *)
Theorem switch_timing (net0 : network) (before : list tick_input) (now : tick_input)
    (s s' : loop_state network) (a : Z) :
  run fit_batch (initial net0) before = Ok s ->
  current_action s = Some a ->
  tick fit_batch s now = Ok s' ->
  let elapsed := phase_elapsed s (current_time now) in
  let due :=
    inject_Z MINIMUM_GREEN_TIME <= elapsed
    /\ (inject_Z (current_duration s) <= elapsed
        \/ inject_Z MAXIMUM_GREEN_TIME <= elapsed) in
  (~ phase_kept s s' <-> due)
  /\ (due ->
      current_phase_start s' = current_time now
      /\ prev_state s' = Some (Normalizer.get_correct_traffic_state (vehicles now))
      /\ current_action s' <> None)
  /\ (MINIMUM_GREEN_TIME <= current_duration s <= MAXIMUM_GREEN_TIME)%Z
  /\ (forall t0, unit_clock t0 (before ++ [now]) ->
                 ~ phase_kept s s' ->
                 elapsed == inject_Z (current_duration s)
                 /\ elapsed <= inject_Z MAXIMUM_GREEN_TIME).
Proof.
  intros Hrun Ha Htick elapsed due.
  pose proof (should_change_phase_guard s (current_time now) Ha) as Hguard.
  fold elapsed in Hguard. fold due in Hguard.
  assert (Hswitched : ~ phase_kept s s' -> due).
  { intros Hnot. destruct (tick_cases _ _ Htick) as [[_ Hkept] | [Hsw _]].
    - contradiction.
    - now apply Hguard. }
  assert (Hrecord : due ->
            current_phase_start s' = current_time now
            /\ prev_state s' =
               Some (Normalizer.get_correct_traffic_state (vehicles now))
            /\ current_action s' <> None).
  { intros Hdue. apply Hguard in Hdue.
    destruct (tick_cases _ _ Htick) as [[Hsw _] | [_ H]]; [congruence | exact H]. }
  split; [split; [exact Hswitched |] |].
  { intros Hdue (Hstart & _). destruct (Hrecord Hdue) as (Hnew & _).
    destruct Hdue as [Hmin _]. unfold elapsed, phase_elapsed in Hmin.
    rewrite <- Hstart, Hnew in Hmin. unfold MINIMUM_GREEN_TIME in Hmin.
    change (inject_Z 10) with 10 in Hmin. lra. }
  split; [exact Hrecord |].
  pose proof (run_durations_ok before (initial_durations_ok net0) Hrun) as Hdur.
  split; [apply Hdur; congruence |].
  intros t0 Hclock Hnot. destruct (Hswitched Hnot) as [Hmin Hend].
  assert (Hrange : (MINIMUM_GREEN_TIME <= current_duration s <= MAXIMUM_GREEN_TIME)%Z).
  { apply Hdur. congruence. }
  apply unit_clock_app in Hclock. destruct Hclock as [Hbefore Hnow].
  assert (Hp0 : phase_running (initial net0) t0) by (intros H; now cbn in H).
  pose proof (run_phase_running before (initial_durations_ok net0) Hp0 Hbefore Hrun)
    as Hp.
  destruct Hp as (n & Hn & Hn0 & Hnd); [congruence |].
  assert (Hel : elapsed == inject_Z (n + 1)).
  { unfold elapsed, phase_elapsed in *. rewrite inject_Z_plus.
    change (inject_Z 1) with 1. lra. }
  assert (Heq : (n + 1 = current_duration s)%Z).
  { rewrite Hel, <- !Zle_Qle in Hend. lia. }
  rewrite Hel, Heq. split; [reflexivity |]. rewrite <- Zle_Qle. lia.
Qed.

End LoopFacts.

Import Scenarios.

(** C6, refuted as stated: with a clock that advances two seconds per
    iteration and a committed green time of 45 s, the phase that started at
    2 s is kept by the iteration at 46 s (44 s elapsed) and is changed by
    the iteration at 48 s, 46 s after it started. *)
Lemma switch_later_than_maximum :
  exists s s46 s48 a,
    run keep_batch (initial tt) (every_other_second 23) = Ok s
    /\ current_action s = Some a
    /\ current_duration s = 45%Z
    /\ current_phase_start s = 2
    /\ tick keep_batch s (tick_at 46 busy_north) = Ok s46
    /\ current_phase_start s46 = 2
    /\ tick keep_batch s (tick_at 48 busy_north) = Ok s48
    /\ current_phase_start s48 = 48
    /\ ~ phase_kept s s48
    /\ ~ phase_elapsed s (current_time (tick_at 48 busy_north))
         <= inject_Z MAXIMUM_GREEN_TIME.
Proof.
  destruct (run keep_batch (initial tt) (every_other_second 23)) as [s |] eqn:Erun;
    [| vm_compute in Erun; discriminate].
  vm_compute in Erun. injection Erun as <-.
  eexists. eexists. eexists. exists 0%Z.
  split; [reflexivity |]. split; [reflexivity |]. split; [reflexivity |].
  split; [reflexivity |].
  split; [vm_compute; reflexivity |]. split; [reflexivity |].
  split; [vm_compute; reflexivity |]. split; [reflexivity |].
  split.
  - intros (Hstart & _). vm_compute in Hstart. discriminate.
  - vm_compute. intros H. now apply H.
Qed.

Lemma switch_timing_witness :
  exists s s',
    run keep_batch (initial tt) (every_second 10) = Ok s
    /\ tick keep_batch s (tick_at 11 empty_road) = Ok s'
    /\ ~ phase_kept s s'
    /\ current_phase_start s' = 11
    /\ phase_elapsed s (current_time (tick_at 11 empty_road))
       == inject_Z (current_duration s)
    /\ phase_elapsed s (current_time (tick_at 11 empty_road))
       <= inject_Z MAXIMUM_GREEN_TIME.
Proof.
  destruct (run keep_batch (initial tt) (every_second 10)) as [s |] eqn:Erun;
    [| vm_compute in Erun; discriminate].
  destruct (tick keep_batch s (tick_at 11 empty_road)) as [s' |] eqn:Etick;
    [| vm_compute in Erun; injection Erun as <-; vm_compute in Etick; discriminate].
  exists s, s'. split; [reflexivity |]. split; [exact Etick |].
  assert (Ha : current_action s = Some 0%Z).
  { vm_compute in Erun. injection Erun as <-. reflexivity. }
  assert (Hnot : ~ phase_kept s s').
  { intros (Hstart & _). vm_compute in Erun. injection Erun as <-.
    vm_compute in Etick. injection Etick as <-. vm_compute in Hstart. discriminate. }
  destruct (@switch_timing unit keep_batch tt (every_second 10)
              (tick_at 11 empty_road) s s' 0%Z Erun Ha Etick)
    as ((Hdue & _) & Hrecord & _ & Hclock).
  split; [exact Hnot |].
  split; [exact (proj1 (Hrecord (Hdue Hnot))) |].
  apply (Hclock 0); [cbn; repeat split; reflexivity | exact Hnot].
Defined.

(** * Further properties of the code *)

(** ** The experience store *)

Import Histories.

Lemma append_lastn {A : Type} (d : deque A) (h : list A) (x : A) :
  (0 <= maxlen d)%Z ->
  items d = lastn (maxlen d) h ->
  items (append d x) = lastn (maxlen d) (h ++ [x]).
Proof.
  intros Hn Hd. unfold append, lastn in *. cbn [items]. rewrite Hd.
  rewrite !length_app, length_skipn. cbn [List.length].
  set (n := maxlen d) in *. set (m := List.length h).
  destruct (Z_lt_le_dec (Z.of_nat m) n) as [Hlt | Hge].
  - replace (Z.to_nat (Z.of_nat m - n)) with 0%nat by lia.
    replace (Z.to_nat (Z.of_nat (m + 1) - n)) with 0%nat by lia.
    cbn [skipn]. rewrite Nat.sub_0_r.
    replace (Z.to_nat (Z.of_nat (m + 1) - n)) with 0%nat by lia. reflexivity.
  - set (k := Z.to_nat (Z.of_nat m - n)).
    assert (Hk : (k <= m)%nat) by (subst k; lia).
    replace (Z.to_nat (Z.of_nat (m - k + 1) - n)) with 1%nat by (subst k; lia).
    replace (Z.to_nat (Z.of_nat (m + 1) - n)) with (S k) by (subst k; lia).
    rewrite (skipn_app (S k)). fold m.
    replace (S k - m)%nat with (if (k =? m)%nat then 1%nat else 0%nat)
      by (destruct (k =? m)%nat eqn:E;
          [apply Nat.eqb_eq in E | apply Nat.eqb_neq in E]; lia).
    destruct (k =? m)%nat eqn:E; [apply Nat.eqb_eq in E | apply Nat.eqb_neq in E].
    + rewrite (skipn_all2 h (n:=k)), (skipn_all2 h (n:=S k)) by (fold m; lia).
      reflexivity.
    + assert (Hsk : skipn k h <> []).
      { intros Hnil. apply (f_equal (@List.length A)) in Hnil.
        rewrite length_skipn in Hnil. cbn in Hnil. fold m in Hnil. lia. }
      destruct (skipn k h) as [| y rest] eqn:Es; [congruence |].
      replace (skipn (S k) h) with rest; [reflexivity |].
      change (S k) with (1 + k)%nat. now rewrite <- skipn_skipn, Es.
Qed.

(** X1.  A deque with a capacity that is not negative, filled by [append]
    from the empty deque, holds the last [maxlen] appended entries in the
    order they came; so it never holds more than [maxlen] entries and it
    drops the oldest first. *)
Theorem deque_keeps_latest {A : Type} (n : Z) (l : list A) :
  (0 <= n)%Z ->
  items (append_all (deque_new n) l) = lastn n l
  /\ maxlen (append_all (deque_new n) l) = n
  /\ (Z.of_nat (len (append_all (deque_new n) l)) <= n)%Z.
Proof.
  intros Hn.
  assert (H : forall (rest h : list A) (d : deque A),
             maxlen d = n -> items d = lastn n h ->
             items (append_all d rest) = lastn n (h ++ rest)
             /\ maxlen (append_all d rest) = n).
  { induction rest as [| x rest IH]; intros h d Hm Hd; cbn [append_all fold_left].
    - rewrite app_nil_r. auto.
    - replace (h ++ x :: rest)%list with ((h ++ [x]) ++ rest)%list
        by (rewrite <- app_assoc; reflexivity).
      apply IH; [exact Hm |].
      rewrite <- Hm. apply append_lastn; [lia | now rewrite Hm]. }
  destruct (H l [] (deque_new n) eq_refl) as [Hi Hm].
  { unfold lastn. destruct (Z.to_nat _); reflexivity. }
  cbn [app] in Hi. repeat split; try assumption.
  unfold len. rewrite Hi. unfold lastn. rewrite length_skipn. lia.
Qed.

Lemma deque_keeps_latest_witness :
  items (append_all (deque_new 2) [1; 2; 3]%Z) = [2; 3]%Z.
Proof.
  destruct (@deque_keeps_latest Z 2 [1; 2; 3]%Z) as (H & _); [lia |].
  rewrite H. reflexivity.
Defined.

Lemma index_nat_cases (l : list Q) (n : nat) :
  index l (Z.of_nat n) =
  if (n <? List.length l)%nat then Ok (nth n l 0) else Raise IndexError.
Proof.
  destruct (n <? List.length l)%nat eqn:E.
  - apply Nat.ltb_lt in E. now apply index_nth.
  - apply Nat.ltb_ge in E. rewrite index_of_nat.
    apply nth_error_None in E. now rewrite E.
Qed.

(** The sum over [range(1, 16, 4)] needs fourteen features. *)
Lemma congestion_sum_cases (state : list Q) :
  congestion_sum state =
  if (14 <=? List.length state)%nat
  then Ok (0 + nth 1 state 0 + nth 5 state 0 + nth 9 state 0 + nth 13 state 0)
  else Raise IndexError.
Proof.
  unfold congestion_sum.
  change (range 1 16 4) with [Z.of_nat 1; Z.of_nat 5; Z.of_nat 9; Z.of_nat 13].
  cbn [sum_at]. rewrite !index_nat_cases.
  destruct (14 <=? List.length state)%nat eqn:E;
    [apply Nat.leb_le in E | apply Nat.leb_gt in E];
    repeat match goal with
    | |- context [(?n <? ?m)%nat] =>
        let H := fresh in
        destruct (n <? m)%nat eqn:H;
        [apply Nat.ltb_lt in H | apply Nat.ltb_ge in H]; cbn [bind]
    end; try reflexivity; lia.
Qed.

Section StoreFacts.

Variable network : Type.

(** The fields of the agent after [remember_priority]. *)
Lemma remember_priority_fields (a : EnhancedDQNAgent network)
    (state : list Q) (action : Z) (reward : Q) (next_state : list Q) (done : bool) :
  let t := (state, action, reward, next_state, done) in
  exists a',
    remember_priority a t = Ok a'
    /\ memory (base a') = append (memory (base a)) t
    /\ performance_history a' = append (performance_history a) reward
    /\ priority_memory a' =
       (if gt (abs reward) 2.0 then append (priority_memory a) t
        else priority_memory a)
    /\ congestion_history a' =
       (if (14 <=? List.length state)%nat
        then append (congestion_history a)
               (0 + nth 1 state 0 + nth 5 state 0 + nth 9 state 0 + nth 13 state 0)
        else congestion_history a)
    /\ epsilon (base a') = epsilon (base a)
    /\ model (base a') = model (base a)
    /\ min_phase_duration a' = min_phase_duration a
    /\ max_phase_duration a' = max_phase_duration a
    /\ default_duration a' = default_duration a.
Proof.
  intros t. unfold remember_priority, t. rewrite congestion_sum_cases.
  destruct (14 <=? List.length state)%nat; cbn [bind try_except];
    eexists; (split; [reflexivity |]); cbn; repeat split; reflexivity.
Qed.

(** X2.  [remember_priority] returns on every transition.  The transition
    goes to the general memory and its reward to the performance history;
    it goes to the priority memory exactly when [|reward| > 2]; and the
    congestion history receives the sum of the features 1, 5, 9, 13
    exactly when the state has at least fourteen features.  Nothing else
    of the agent changes. *)
Theorem remember_priority_effect (a : EnhancedDQNAgent network)
    (state : list Q) (action : Z) (reward : Q) (next_state : list Q) (done : bool) :
  let t := (state, action, reward, next_state, done) in
  exists a',
    remember_priority a t = Ok a'
    /\ memory (base a') = append (memory (base a)) t
    /\ performance_history a' = append (performance_history a) reward
    /\ priority_memory a' =
       (if gt (abs reward) 2.0 then append (priority_memory a) t
        else priority_memory a)
    /\ congestion_history a' =
       (if (14 <=? List.length state)%nat
        then append (congestion_history a)
               (0 + nth 1 state 0 + nth 5 state 0 + nth 9 state 0 + nth 13 state 0)
        else congestion_history a)
    /\ epsilon (base a') = epsilon (base a)
    /\ model (base a') = model (base a)
    /\ min_phase_duration a' = min_phase_duration a
    /\ max_phase_duration a' = max_phase_duration a
    /\ default_duration a' = default_duration a.
Proof.
  exact (remember_priority_fields a state action reward next_state done).
Qed.

Lemma congestion_sums_app (h : list transition) (t : transition) :
  congestion_sums (h ++ [t]) =
  (congestion_sums h ++
   match congestion_sum (state_of t) with Ok c => [c] | Raise _ => [] end)%list.
Proof.
  induction h as [| u h IH]; cbn [app congestion_sums].
  - destruct (congestion_sum (state_of t)); reflexivity.
  - rewrite IH. destruct (congestion_sum (state_of u)); reflexivity.
Qed.

Lemma remember_priority_history (a : EnhancedDQNAgent network)
    (h : list transition) (t : transition) :
  holds_history a h ->
  exists a', remember_priority a t = Ok a' /\ holds_history a' (h ++ [t]).
Proof.
  intros (M1 & M2 & P1 & P2 & F1 & F2 & C1 & C2).
  destruct t as [[[[state action] reward] next_state] done].
  destruct (remember_priority_fields a state action reward next_state done)
    as (a' & Hok & Hm & Hp & Hpm & Hc & _).
  exists a'. split; [exact Hok |].
  unfold holds_history. rewrite Hm, Hp, Hpm, Hc.
  rewrite filter_app, map_app, congestion_sums_app. cbn [filter map].
  unfold high_reward at 2. cbn [reward_of state_of].
  rewrite congestion_sum_cases.
  assert (Hm10 : maxlen (append (memory (base a))
                   (state, action, reward, next_state, done)) = 10000%Z) by exact M1.
  split; [exact M1 |]. split.
  { rewrite <- M1. apply append_lastn; rewrite M1; [lia | exact M2]. }
  assert (Hperf : items (append (performance_history a) reward)
                  = lastn 100 (map reward_of h ++ [reward])).
  { rewrite <- F1. apply append_lastn; rewrite F1; [lia | exact F2]. }
  destruct (gt (abs reward) 2.0); destruct (14 <=? List.length state)%nat;
    rewrite ?app_nil_r;
    repeat match goal with
    | |- _ /\ _ => split
    | |- maxlen (append _ _) = _ => cbn [append maxlen]; assumption
    | |- maxlen _ = _ => assumption
    | |- items (append ?d _) = lastn _ _ =>
        first [exact Hperf
              | rewrite <- P1; apply append_lastn; rewrite P1; [lia | exact P2]
              | rewrite <- C1; apply append_lastn; rewrite C1; [lia | exact C2]]
    | |- items _ = lastn _ _ => assumption
    end.
Qed.

Lemma remember_all_history (ts h : list transition) (a : EnhancedDQNAgent network) :
  holds_history a h ->
  exists a', remember_all a ts = Ok a' /\ holds_history a' (h ++ ts).
Proof.
  revert h a. induction ts as [| t ts IH]; intros h a Ha; cbn [remember_all].
  - exists a. rewrite app_nil_r. auto.
  - destruct (remember_priority_history t Ha) as (a1 & H1 & Ha1).
    rewrite H1. cbn [bind].
    destruct (IH _ _ Ha1) as (a' & H' & Ha').
    exists a'. split; [exact H' |].
    now rewrite <- app_assoc in Ha'.
Qed.

(** X3.  An agent made by [EnhancedDQNAgent.__init__] and then given any
    run of [remember_priority] calls holds: in its memory the last 10000
    transitions; in its priority memory the last 1000 of the transitions
    with [|reward| > 2]; in its performance history the last 100 rewards;
    in its congestion history the last 100 sums that could be computed;
    each in the order of arrival. *)
Theorem experience_store_history (net0 : network) (state_size action_size : Z)
    (ts : list transition) :
  exists a',
    remember_all (EnhancedDQNAgent_init net0 state_size action_size) ts = Ok a'
    /\ items (memory (base a')) = lastn 10000 ts
    /\ items (priority_memory a') = lastn 1000 (filter high_reward ts)
    /\ items (performance_history a') = lastn 100 (map reward_of ts)
    /\ items (congestion_history a') = lastn 100 (congestion_sums ts)
    /\ (Z.of_nat (len (memory (base a'))) <= 10000)%Z
    /\ (Z.of_nat (len (priority_memory a')) <= 1000)%Z.
Proof.
  destruct (@remember_all_history ts []
              (EnhancedDQNAgent_init net0 state_size action_size))
    as (a' & Hok & H).
  { unfold holds_history. repeat split. }
  cbn [app] in H. destruct H as (_ & M & _ & P & _ & F & _ & C).
  exists a'. repeat (split; [assumption |]).
  unfold len. rewrite M, P. unfold lastn. rewrite !length_skipn. lia.
Qed.

End StoreFacts.

(** ** More on the action validator *)

Lemma argmax_in_range (l : list Q) (m : Z) :
  argmax l = Ok m -> (0 <= m < Z.of_nat (List.length l))%Z.
Proof.
  intros H. destruct (argmax_spec _ H) as (v & H0 & Hv & _).
  apply index_Ok_range in Hv. lia.
Qed.

Lemma validate_unfold (p : Z) (traffic congestion : list Q) (t c : Q)
    (mt mc : Z) (vt vc : Q) :
  index traffic p = Ok t -> index congestion p = Ok c ->
  argmax traffic = Ok mt -> argmax congestion = Ok mc ->
  index traffic mt = Ok vt -> index congestion mc = Ok vc ->
  validate_action_choice p traffic congestion =
  Ok (if gt t 0.05 || gt c 0.1 then p
      else if gt vt 0.05 then mt
      else if gt vc 0.1 then mc
      else p).
Proof.
  intros Ht Hc Hmt Hmc Hvt Hvc. unfold validate_action_choice.
  rewrite Ht, Hc. cbn [bind]. destruct (gt t 0.05 || gt c 0.1); [reflexivity |].
  rewrite Hmt, Hmc. cbn [bind]. rewrite Hvt. cbn [bind].
  destruct (gt vt 0.05); [reflexivity |].
  rewrite Hvc. cbn [bind]. destruct (gt vc 0.1); reflexivity.
Qed.

(** Everything [validate_action_choice] looks at, when it returns. *)
Lemma validate_inputs (p : Z) (traffic congestion : list Q) (r : Z) :
  validate_action_choice p traffic congestion = Ok r ->
  exists t c, index traffic p = Ok t /\ index congestion p = Ok c
    /\ exists mt mc vt vc,
         argmax traffic = Ok mt /\ argmax congestion = Ok mc
         /\ index traffic mt = Ok vt /\ index congestion mc = Ok vc.
Proof.
  unfold validate_action_choice.
  destruct (index traffic p) as [t |] eqn:Et; [| discriminate].
  destruct (index congestion p) as [c |] eqn:Ec; [| discriminate].
  intros _. exists t, c. repeat split.
  destruct (argmax_nonempty _ _ Et) as [mt Hmt].
  destruct (argmax_nonempty _ _ Ec) as [mc Hmc].
  destruct (argmax_spec _ Hmt) as (vt & _ & Hvt & _).
  destruct (argmax_spec _ Hmc) as (vc & _ & Hvc & _).
  exists mt, mc, vt, vc. auto.
Qed.

(** X4.  On lists of equal length the validator is idempotent: what it
    returns, it accepts.  And what it returns is the proposal or a valid
    non-negative subscript. *)
Theorem validate_idempotent (p : Z) (traffic congestion : list Q) (r : Z) :
  List.length traffic = List.length congestion ->
  validate_action_choice p traffic congestion = Ok r ->
  validate_action_choice r traffic congestion = Ok r
  /\ (r = p \/ (0 <= r < Z.of_nat (List.length traffic))%Z).
Proof.
  intros Hlen Hval.
  destruct (validate_inputs _ _ _ Hval)
    as (t & c & Ht & Hc & mt & mc & vt & vc & Hmt & Hmc & Hvt & Hvc).
  pose proof (argmax_in_range _ Hmt) as Rt.
  pose proof (argmax_in_range _ Hmc) as Rc.
  rewrite (validate_unfold _ _ _ Ht Hc Hmt Hmc Hvt Hvc) in Hval.
  destruct (gt t 0.05 || gt c 0.1) eqn:E1.
  { injection Hval as <-. split; [| now left].
    rewrite (validate_unfold _ _ _ Ht Hc Hmt Hmc Hvt Hvc). now rewrite E1. }
  destruct (gt vt 0.05) eqn:E2.
  { injection Hval as <-. split; [| right; lia].
    destruct (@index_in_range _ congestion mt) as [c' Hc']; [lia |].
    rewrite (validate_unfold _ _ _ Hvt Hc' Hmt Hmc Hvt Hvc). now rewrite E2. }
  destruct (gt vc 0.1) eqn:E3.
  { injection Hval as <-. split; [| right; lia].
    destruct (@index_in_range _ traffic mc) as [t' Ht']; [lia |].
    rewrite (validate_unfold _ _ _ Ht' Hvc Hmt Hmc Hvt Hvc).
    now rewrite E3, orb_true_r. }
  injection Hval as <-. split; [| now left].
  rewrite (validate_unfold _ _ _ Ht Hc Hmt Hmc Hvt Hvc). now rewrite E1, E2, E3.
Qed.

Lemma validate_idempotent_witness :
  validate_action_choice 0 [0; 0.3; 0.9; 0] [0; 0; 0; 0] = Ok 2%Z
  /\ validate_action_choice 2 [0; 0.3; 0.9; 0] [0; 0; 0; 0] = Ok 2%Z.
Proof.
  assert (H : validate_action_choice 0 [0; 0.3; 0.9; 0] [0; 0; 0; 0] = Ok 2%Z)
    by reflexivity.
  split; [exact H |].
  exact (proj1 (@validate_idempotent 0 [0; 0.3; 0.9; 0] [0; 0; 0; 0] 2 eq_refl H)).
Defined.

(** X5.  Whenever some direction is active (traffic above 0.05 or
    congestion above 0.1), the direction the validator returns is active;
    it returns an inactive direction only when no direction is active, and
    then it is the proposal. *)
Theorem validate_returns_active (p : Z) (traffic congestion : list Q) (r : Z) :
  List.length traffic = List.length congestion ->
  validate_action_choice p traffic congestion = Ok r ->
  (exists t c, index traffic r = Ok t /\ index congestion r = Ok c
               /\ (0.05 < t \/ 0.1 < c))
  \/ (r = p /\ none_exceeds traffic 0.05 /\ none_exceeds congestion 0.1).
Proof.
  intros Hlen Hval.
  destruct (validate_inputs _ _ _ Hval)
    as (t & c & Ht & Hc & mt & mc & vt & vc & Hmt & Hmc & Hvt & Hvc).
  pose proof (argmax_in_range _ Hmt) as Rt.
  pose proof (argmax_in_range _ Hmc) as Rc.
  destruct (argmax_spec _ Hmt) as (vt' & _ & Hvt' & Htmax).
  destruct (argmax_spec _ Hmc) as (vc' & _ & Hvc' & Hcmax).
  rewrite Hvt in Hvt'. injection Hvt' as <-.
  rewrite Hvc in Hvc'. injection Hvc' as <-.
  rewrite (validate_unfold _ _ _ Ht Hc Hmt Hmc Hvt Hvc) in Hval.
  destruct (gt t 0.05 || gt c 0.1) eqn:E1.
  { injection Hval as <-. left. exists t, c. tests_to_props.
    repeat (split; [assumption |]).
    destruct E1 as [E1 | E1]; apply gt_true in E1; auto. }
  destruct (gt vt 0.05) eqn:E2.
  { injection Hval as <-. left.
    destruct (@index_in_range _ congestion mt) as [c' Hc']; [lia |].
    exists vt, c'. tests_to_props. auto. }
  destruct (gt vc 0.1) eqn:E3.
  { injection Hval as <-. left.
    destruct (@index_in_range _ traffic mc) as [t' Ht']; [lia |].
    exists t', vc. tests_to_props. auto. }
  injection Hval as <-. right. tests_to_props. split; [reflexivity |].
  split; intros j w Hj.
  - specialize (Htmax _ _ Hj). lra.
  - specialize (Hcmax _ _ Hj). lra.
Qed.

Lemma validate_returns_active_witness :
  (exists t c, index [0; 0.3; 0.9; 0] 2 = Ok t /\ index [0; 0; 0; 0] 2 = Ok c
               /\ (0.05 < t \/ 0.1 < c))
  \/ (2%Z = 0%Z /\ none_exceeds [0; 0.3; 0.9; 0] 0.05 /\ none_exceeds [0; 0; 0; 0] 0.1).
Proof.
  apply (@validate_returns_active 0 [0; 0.3; 0.9; 0] [0; 0; 0; 0] 2);
    reflexivity.
Defined.

(** ** The signal pattern applied *)

Import Patterns.

Lemma gather_length (state : list Q) (idxs : list Z) (l : list Q) :
  Actuation.gather state idxs = Ok l -> List.length l = List.length idxs.
Proof.
  revert l. induction idxs as [| i rest IH]; intros l; cbn [Actuation.gather].
  - now intros [= <-].
  - destruct (index state i); [| discriminate]. cbn [bind].
    destruct (Actuation.gather state rest) as [xs |]; [| discriminate]. cbn [bind].
    intros [= <-]. cbn. f_equal. now apply IH.
Qed.

(** The table has four entries, each with green for one approach. *)
Lemma phase_table (d : Z) (phase : string) :
  Actuation.action_to_phase d = Ok phase ->
  (0 <= d <= 3)%Z
  /\ String.length phase = 12%nat
  /\ occurrences "G"%char phase = 3%nat
  /\ occurrences "r"%char phase = 9%nat.
Proof.
  destruct d as [| [[p | p |] | [p | p |] |] |]; cbn [Actuation.action_to_phase];
    try discriminate; intros [= <-]; repeat split; lia.
Qed.

(** X6.  Whatever the action and the state, a pattern returned by
    [apply_intelligent_action] is an entry of the table for a direction in
    0..3, twelve characters with three [G] and nine [r].  The direction is
    the action's or one of maximum traffic; and when some direction has
    traffic above 0.05, the direction served has traffic above 0.05 or
    congestion above 0.2. *)
Theorem apply_serves_one_direction (action : Z) (state traffic congestion : list Q)
    (phase : string) :
  Actuation.gather state [0; 3; 6; 9]%Z = Ok traffic ->
  Actuation.gather state [1; 4; 7; 10]%Z = Ok congestion ->
  Actuation.apply_intelligent_action action state = Ok phase ->
  exists d,
    Actuation.action_to_phase d = Ok phase
    /\ (0 <= d <= 3)%Z
    /\ String.length phase = 12%nat
    /\ occurrences "G"%char phase = 3%nat
    /\ occurrences "r"%char phase = 9%nat
    /\ (d = action \/ exists v, max_direction traffic d v)
    /\ ((exists j w, index traffic j = Ok w /\ 0.05 < w) ->
        exists t c, index traffic d = Ok t /\ index congestion d = Ok c
                    /\ (0.05 < t \/ 0.2 < c)).
Proof.
  intros Gt Gc. unfold Actuation.apply_intelligent_action. rewrite Gt, Gc. cbn [bind].
  pose proof (gather_length _ _ Gt) as Lt. pose proof (gather_length _ _ Gc) as Lc.
  cbn [List.length] in Lt, Lc.
  destruct (index traffic action) as [t |] eqn:Et; [| discriminate].
  destruct (index congestion action) as [c |] eqn:Ec; [| discriminate].
  cbn [bind].
  destruct (gt t 0.1 || gt c 0.2) eqn:E1.
  { intros Hp. exists action. destruct (phase_table _ Hp) as (R & L & G & Rd).
    repeat (split; [first [assumption | now left] |]).
    intros _. exists t, c. repeat (split; [assumption |]). tests_to_props.
    destruct E1 as [E1 | E1]; [apply gt_true in E1; left; lra | apply gt_true in E1; now right]. }
  destruct (argmax traffic) as [m |] eqn:Em; [| discriminate]. cbn [bind].
  destruct (argmax_spec _ Em) as (v & Hm0 & Hv & Hmax). rewrite Hv. cbn [bind].
  pose proof (argmax_in_range _ Em) as Rm.
  destruct (gt v 0.05) eqn:E2.
  - intros Hp. exists m. destruct (phase_table _ Hp) as (R & L & G & Rd).
    repeat (split; [assumption |]).
    split; [right; exists v; repeat split; assumption |].
    intros _. destruct (@index_in_range _ congestion m) as [c' Hc']; [lia |].
    exists v, c'. tests_to_props. auto.
  - intros Hp. exists action. destruct (phase_table _ Hp) as (R & L & G & Rd).
    repeat (split; [first [assumption | now left] |]).
    intros (j & w & Hj & Hw). specialize (Hmax _ _ Hj). tests_to_props. lra.
Qed.

Lemma apply_serves_one_direction_witness :
  exists d,
    Actuation.action_to_phase d = Ok "rrrGGGrrrrrr"%string
    /\ (0 <= d <= 3)%Z.
Proof.
  destruct (@apply_serves_one_direction 0
              [0; 0; 0; 0.3; 0; 0; 0.9; 0; 0; 0; 0; 0]
              [0; 0.3; 0.9; 0] [0; 0; 0; 0] "rrrGGGrrrrrr"
              eq_refl eq_refl eq_refl) as (d & H1 & H2 & _).
  exists d. split; assumption.
Defined.

(** X7.  When the validator replaces the agent's action, the pattern
    [apply_intelligent_action] returns for the replacement is the
    replacement's own entry of the table: an override is never overridden
    again. *)
Theorem override_is_applied (dqn_action : Z) (state traffic congestion : list Q)
    (r : Z) :
  Actuation.gather state [0; 3; 6; 9]%Z = Ok traffic ->
  Actuation.gather state [1; 4; 7; 10]%Z = Ok congestion ->
  validate_action_choice dqn_action traffic congestion = Ok r ->
  r <> dqn_action ->
  Actuation.apply_intelligent_action r state = Actuation.action_to_phase r
  /\ (0 <= r <= 3)%Z.
Proof.
  intros Gt Gc Hval Hne.
  pose proof (gather_length _ _ Gt) as Lt. pose proof (gather_length _ _ Gc) as Lc.
  cbn [List.length] in Lt, Lc.
  destruct (validate_inputs _ _ _ Hval)
    as (t & c & Ht & Hc & mt & mc & vt & vc & Hmt & Hmc & Hvt & Hvc).
  pose proof (argmax_in_range _ Hmt) as Rt.
  pose proof (argmax_in_range _ Hmc) as Rc.
  destruct (argmax_spec _ Hmt) as (vt' & _ & Hvt' & Htmax).
  rewrite Hvt in Hvt'. injection Hvt' as <-.
  rewrite (validate_unfold _ _ _ Ht Hc Hmt Hmc Hvt Hvc) in Hval.
  unfold Actuation.apply_intelligent_action. rewrite Gt, Gc. cbn [bind].
  destruct (gt t 0.05 || gt c 0.1) eqn:E1; [congruence |].
  destruct (gt vt 0.05) eqn:E2.
  { injection Hval as <-. split; [| lia].
    destruct (@index_in_range _ congestion mt) as [c' Hc']; [lia |].
    rewrite Hvt, Hc'. cbn [bind].
    destruct (gt vt 0.1 || gt c' 0.2); [reflexivity |].
    rewrite Hmt. cbn [bind]. rewrite Hvt. cbn [bind]. now rewrite E2. }
  destruct (gt vc 0.1) eqn:E3; [| congruence].
  injection Hval as <-. split; [| lia].
  destruct (@index_in_range _ traffic mc) as [t' Ht']; [lia |].
  rewrite Ht', Hvc. cbn [bind].
  destruct (gt t' 0.1 || gt vc 0.2); [reflexivity |].
  rewrite Hmt. cbn [bind]. rewrite Hvt. cbn [bind]. now rewrite E2.
Qed.

Lemma override_is_applied_witness :
  Actuation.apply_intelligent_action 2 [0; 0; 0; 0.3; 0; 0; 0.9; 0; 0; 0; 0; 0]
  = Actuation.action_to_phase 2.
Proof.
  refine (proj1 (@override_is_applied 0 [0; 0; 0; 0.3; 0; 0; 0.9; 0; 0; 0; 0; 0]
                   [0; 0.3; 0.9; 0] [0; 0; 0; 0] 2 eq_refl eq_refl eq_refl _)).
  discriminate.
Defined.

(** ** More on the duration scheduler *)

Lemma int_floor (x : Q) : 0 <= x -> int x = Qfloor x.
Proof.
  destruct x as [n d]. unfold Qle, int, Qfloor. cbn. intros H.
  apply Z.quot_div_nonneg; lia.
Qed.

Lemma int_shrink (b : Z) : (0 <= b)%Z -> (int (inject_Z b * 0.8) <= b)%Z.
Proof.
  intros Hb.
  assert (H0 : 0 <= inject_Z b) by (change 0 with (inject_Z 0); now rewrite <- Zle_Qle).
  rewrite int_floor by lra.
  rewrite Zle_Qle. eapply Qle_trans; [apply Qfloor_le | lra].
Qed.

Lemma int_stretch (b : Z) : (0 <= b)%Z -> (b <= int (inject_Z b * 1.2))%Z.
Proof.
  intros Hb.
  assert (H0 : 0 <= inject_Z b) by (change 0 with (inject_Z 0); now rewrite <- Zle_Qle).
  rewrite int_floor by lra.
  assert (H : inject_Z b < inject_Z (Qfloor (inject_Z b * 1.2) + 1)).
  { eapply Qle_lt_trans; [| apply Qlt_floor]. lra. }
  rewrite <- Zlt_Qlt in H. lia.
Qed.

Lemma maxZ_max (a b : Z) : maxZ a b = Z.max a b.
Proof.
  unfold maxZ, max. destruct (b >? a)%Z eqn:E.
  - apply Z.gtb_lt in E. lia.
  - rewrite Z.gtb_ltb in E. apply Z.ltb_ge in E. lia.
Qed.

Lemma minZ_min (a b : Z) : minZ a b = Z.min a b.
Proof.
  unfold minZ, min. destruct (b <? a)%Z eqn:E.
  - apply Z.ltb_lt in E. lia.
  - apply Z.ltb_ge in E. lia.
Qed.

(** X8.  With [0 <= min_time <= max_time]: a direction without traffic
    (traffic at most 0.05, congestion at most 0.3) gets exactly [min_time],
    whatever its speed; a heavy direction (traffic above 0.7 or congestion
    above 0.6) that is not flowing freely (speed at most 0.7) gets exactly
    [max_time]. *)
Theorem duration_extremes (action : Z) (traffic congestion speeds : list Q)
    (min_time max_time default_time : Z) (t c s : Q) :
  index traffic action = Ok t ->
  index congestion action = Ok c ->
  index speeds action = Ok s ->
  (0 <= min_time <= max_time)%Z ->
  (t <= 0.05 -> c <= 0.3 ->
   calculate_adaptive_duration action traffic congestion speeds
     min_time max_time default_time = Ok min_time)
  /\ (0.7 < t \/ 0.6 < c -> s <= 0.7 ->
      calculate_adaptive_duration action traffic congestion speeds
        min_time max_time default_time = Ok max_time).
Proof.
  intros Ht Hc Hs Hb. unfold calculate_adaptive_duration.
  rewrite Ht, Hc, Hs. cbn [bind].
  pose proof (@int_shrink min_time) as Hshrink.
  pose proof (@int_stretch max_time) as Hstretch.
  split.
  - intros Ht0 Hc0.
    rewrite (proj2 (gt_false t 0.7)), (proj2 (gt_false c 0.6)),
            (proj2 (gt_false t 0.3)), (proj2 (gt_false c 0.3)),
            (proj2 (gt_false t 0.05)), (proj2 (gt_false t 0.1)) by lra.
    cbn [orb]. rewrite andb_false_r. f_equal.
    destruct (gt s 0.7); rewrite ?maxZ_max, ?minZ_min; lia.
  - intros Hheavy Hslow.
    assert (E : gt t 0.7 || gt c 0.6 = true).
    { apply orb_true_iff. destruct Hheavy; [left | right]; now apply gt_true. }
    rewrite E, (proj2 (gt_false s 0.7)) by lra. f_equal.
    destruct (lt s 0.3 && gt t 0.1); rewrite ?maxZ_max, ?minZ_min; lia.
Qed.

Lemma duration_extremes_witness :
  calculate_adaptive_duration 1 [0.9; 0; 0; 0] [0.8; 0; 0; 0] [0.2; 0.9; 0; 0]
    10 45 15 = Ok 10%Z
  /\ calculate_adaptive_duration 0 [0.9; 0; 0; 0] [0.8; 0; 0; 0] [0.2; 0.9; 0; 0]
       10 45 15 = Ok 45%Z.
Proof.
  split.
  - apply (proj1 (@duration_extremes 1 [0.9; 0; 0; 0] [0.8; 0; 0; 0] [0.2; 0.9; 0; 0]
                    10 45 15 0 0 0.9 eq_refl eq_refl eq_refl ltac:(lia)));
      discriminate.
  - apply (proj2 (@duration_extremes 0 [0.9; 0; 0; 0] [0.8; 0; 0; 0] [0.2; 0.9; 0; 0]
                    10 45 15 0.9 0.8 0.2 eq_refl eq_refl eq_refl ltac:(lia)));
      [left; reflexivity | discriminate].
Defined.

(** ** More on the rewards *)

(** X9.  [calculate_comprehensive_reward] guards its congestion, speed and
    emergency terms with [try], but not the queue penalty: on a current
    state of fewer than fourteen features (the twelve-feature state of the
    control loop among them) it raises IndexError, whatever the other
    arguments; on fourteen features or more it returns.  A previous state
    that is too short only sets the congestion term to 0. *)
Theorem comprehensive_reward_needs_14 (throughput_reward : Q)
    (priority_action : option Z) (prev_state current_state : list Q)
    (action : Z) (phase_duration : Q) :
  ((List.length current_state < 14)%nat ->
   calculate_comprehensive_reward throughput_reward priority_action
     prev_state current_state action phase_duration = Raise IndexError)
  /\ ((14 <= List.length current_state)%nat ->
      exists v,
        calculate_comprehensive_reward throughput_reward priority_action
          prev_state current_state action phase_duration = Ok v)
  /\ ((List.length prev_state < 14)%nat ->
      comprehensive_congestion_reward prev_state current_state = 0).
Proof.
  unfold calculate_comprehensive_reward, comprehensive_congestion_reward.
  pose proof (congestion_sum_cases current_state) as Hc.
  pose proof (congestion_sum_cases prev_state) as Hp.
  unfold congestion_sum in Hc, Hp. rewrite Hc, Hp.
  repeat split.
  - intros H. apply Nat.leb_gt in H. now rewrite H.
  - intros H. apply Nat.leb_le in H. rewrite H. cbn [bind]. eauto.
  - intros H. apply Nat.leb_gt in H. now rewrite H.
Qed.

Lemma comprehensive_reward_needs_14_witness :
  calculate_comprehensive_reward 0 None
    [0; 0; 0; 0; 0; 0; 0; 0; 0; 0; 0; 0] [0; 0; 0; 0; 0; 0; 0; 0; 0; 0; 0; 0]
    0 15 = Raise IndexError.
Proof.
  apply (proj1 (comprehensive_reward_needs_14 0 None
                  [0; 0; 0; 0; 0; 0; 0; 0; 0; 0; 0; 0]
                  [0; 0; 0; 0; 0; 0; 0; 0; 0; 0; 0; 0] 0 15)).
  cbn. lia.
Defined.

Lemma nth_unit_interval (st : list Q) (n : nat) :
  Forall unit_interval st -> (n < List.length st)%nat -> unit_interval (nth n st 0).
Proof.
  intros H Hn. rewrite Forall_forall in H. apply H. now apply nth_In.
Qed.

(** X10.  On two twelve-feature states whose features are all in [0, 1] and
    a direction in 0..3 (or its negative alias), [calculate_smart_reward]
    returns, and the reward lies between -41 and 36. *)
Theorem smart_reward_bounded (prev_state current_state : list Q) (action : Z) :
  List.length prev_state = 12%nat ->
  List.length current_state = 12%nat ->
  Forall unit_interval prev_state ->
  Forall unit_interval current_state ->
  (-4 <= action < 4)%Z ->
  exists v,
    calculate_smart_reward prev_state current_state action = Ok v
    /\ - (41) <= v /\ v <= 36.
Proof.
  intros Lp Lc Fp Fc Ha.
  unfold calculate_smart_reward, smart_reward_terms.
  change [0; 3; 6; 9]%Z with [Z.of_nat 0; Z.of_nat 3; Z.of_nat 6; Z.of_nat 9].
  change [1; 4; 7; 10]%Z with [Z.of_nat 1; Z.of_nat 4; Z.of_nat 7; Z.of_nat 10].
  change [2; 5; 8; 11]%Z with [Z.of_nat 2; Z.of_nat 5; Z.of_nat 8; Z.of_nat 11].
  rewrite !gather_four by lia. cbn [bind].
  match goal with |- context [index ?l action] =>
    destruct (@index_in_range _ l action) as [t Ht]; [cbn; lia | rewrite Ht] end.
  match goal with |- context [index ?l action] =>
    destruct (@index_in_range _ l action) as [c Hc]; [cbn; lia | rewrite Hc] end.
  cbn [bind]. eexists. split; [reflexivity |].
  unfold smart_total.
  cbn [clearance_reward congestion_reward efficiency_reward speed_reward
       congestion_penalty].
  assert (Hp : forall n, (n < 12)%nat -> unit_interval (nth n prev_state 0))
    by (intros; apply nth_unit_interval; [assumption | lia]).
  assert (Hcu : forall n, (n < 12)%nat -> unit_interval (nth n current_state 0))
    by (intros; apply nth_unit_interval; [assumption | lia]).
  pose proof (Hp 0%nat ltac:(lia)) as [? ?]. pose proof (Hp 3%nat ltac:(lia)) as [? ?].
  pose proof (Hp 6%nat ltac:(lia)) as [? ?]. pose proof (Hp 9%nat ltac:(lia)) as [? ?].
  pose proof (Hp 1%nat ltac:(lia)) as [? ?]. pose proof (Hp 4%nat ltac:(lia)) as [? ?].
  pose proof (Hp 7%nat ltac:(lia)) as [? ?]. pose proof (Hp 10%nat ltac:(lia)) as [? ?].
  pose proof (Hcu 0%nat ltac:(lia)) as [? ?]. pose proof (Hcu 3%nat ltac:(lia)) as [? ?].
  pose proof (Hcu 6%nat ltac:(lia)) as [? ?]. pose proof (Hcu 9%nat ltac:(lia)) as [? ?].
  pose proof (Hcu 1%nat ltac:(lia)) as [? ?]. pose proof (Hcu 4%nat ltac:(lia)) as [? ?].
  pose proof (Hcu 7%nat ltac:(lia)) as [? ?]. pose proof (Hcu 10%nat ltac:(lia)) as [? ?].
  assert (Hmean : 0 <= mean [nth 2 current_state 0; nth 5 current_state 0;
                             nth 8 current_state 0; nth 11 current_state 0]
                  /\ mean [nth 2 current_state 0; nth 5 current_state 0;
                           nth 8 current_state 0; nth 11 current_state 0] <= 1).
  { apply mean_bounds; [discriminate |].
    repeat constructor; apply Hcu; lia. }
  destruct Hmean as [Hm0 Hm1].
  set (m := mean _) in *.
  unfold sum. cbn [fold_left].
  destruct (gt t 0.1 || gt c 0.2); [split; lra |].
  destruct (gt t 0.05); split; lra.
Qed.

Lemma smart_reward_bounded_witness :
  exists v,
    calculate_smart_reward [0.8; 0.6; 0.5; 0.1; 0; 0.9; 0; 0; 0; 0; 0; 0]
      [0; 0; 0; 0; 0; 0; 0; 0; 0; 0; 0; 0] 0 = Ok v
    /\ - (41) <= v /\ v <= 36.
Proof.
  apply smart_reward_bounded; try reflexivity; try lia;
    repeat constructor; discriminate.
Defined.

(** ** More on the snapshot normaliser *)

Import Zones.

Lemma count_vehicle_skips (t : tally) (r : option vehicle) :
  counted r = false -> count_vehicle t r = t.
Proof.
  destruct r as [v |]; [| reflexivity]. cbn [counted count_vehicle].
  intros H. apply orb_false_iff in H. destruct H as [H Hw].
  apply orb_false_iff in H. destruct H as [H He].
  apply orb_false_iff in H. destruct H as [Hn Hs].
  now rewrite Hn, Hs, He, Hw.
Qed.

(** X11.  The state depends only on the vehicles whose reads succeeded and
    that are outside the central square: dropping every failed read and
    every vehicle with [|x| <= 25] and [|y| <= 25] from the snapshot gives
    the same state. *)
Theorem state_ignores_uncounted (vehicles : list (option vehicle)) :
  get_correct_traffic_state (Some (filter counted vehicles))
  = get_correct_traffic_state (Some vehicles).
Proof.
  cbn [get_correct_traffic_state]. unfold count_vehicles.
  assert (H : forall t, fold_left count_vehicle (filter counted vehicles) t
                        = fold_left count_vehicle vehicles t).
  { induction vehicles as [| r rest IH]; intros t; cbn [filter fold_left];
      [reflexivity |].
    destruct (counted r) eqn:E; cbn [fold_left].
    - apply IH.
    - rewrite (count_vehicle_skips t r E). apply IH. }
  now rewrite H.
Qed.

Lemma count_vehicles_match (vehicles : list (option vehicle)) :
  counters_match (count_vehicles vehicles).
Proof.
  unfold count_vehicles.
  assert (H0 : counters_match tally0) by (repeat split).
  revert H0. generalize tally0.
  induction vehicles as [| r rest IH]; intros t Ht; cbn [fold_left]; [assumption |].
  apply IH. destruct Ht as (Hn & Hs & He & Hw).
  destruct r as [v |]; cbn [count_vehicle]; [| repeat split; assumption].
  destruct (gt (vy v) 25); [| destruct (lt (vy v) (-25));
    [| destruct (gt (vx v) 25); [| destruct (lt (vx v) (-25))]]];
    unfold counters_match; cbn; rewrite ?length_app; cbn [List.length];
    repeat split; lia.
Qed.

Lemma idle_zone (n : Z) (speeds : list Q) :
  n = Z.of_nat (List.length speeds) ->
  normalized_count n == 0 ->
  get_congestion speeds = 0 /\ normalized_speed speeds = 0.
Proof.
  intros Hn H0.
  destruct (@normalized_count_steps n) as [_ | Hpos]; [lia | | lra].
  assert (speeds = []) as ->.
  { destruct speeds as [| s rest]; [reflexivity |]. exfalso.
    destruct (@normalized_count_steps n) as [Hz | Hpos]; [lia | | lra].
    revert Hz. subst n. unfold normalized_count, minQ, min.
    assert (H1 : 1 <= inject_Z (Z.of_nat (List.length (s :: rest)))).
    { change 1 with (inject_Z 1). rewrite <- Zle_Qle. cbn [List.length]. lia. }
    assert (Hd : 0.1 <= inject_Z (Z.of_nat (List.length (s :: rest))) / 10.0)
      by (apply Qle_shift_div_l; lra).
    destruct (lt 1.0 _); lra. }
  split; reflexivity.
Qed.

(** X12.  In every state of [get_correct_traffic_state], a direction whose
    vehicle-count feature is zero also has congestion feature 0 and
    mean-speed feature 0: the three features of a direction come from the
    same vehicles. *)
Theorem empty_direction_is_idle (snap : snapshot) (d : nat) :
  (d < 4)%nat ->
  nth (3 * d) (get_correct_traffic_state snap) 0 == 0 ->
  nth (3 * d + 1) (get_correct_traffic_state snap) 0 = 0
  /\ nth (3 * d + 2) (get_correct_traffic_state snap) 0 = 0.
Proof.
  intros Hd.
  destruct snap as [vehicles |]; cbn [get_correct_traffic_state].
  - destruct (count_vehicles_match vehicles) as (Hn & Hs & He & Hw).
    destruct d as [| [| [| [| d]]]]; [| | | | lia]; cbn [Nat.mul Nat.add nth];
      now apply idle_zone.
  - intros _. destruct d as [| [| [| [| d]]]]; [| | | | lia]; split; reflexivity.
Qed.

Lemma empty_direction_is_idle_witness :
  nth 4 (get_correct_traffic_state
           (Some [Some {| vx := 0; vy := 30; vspeed := 1 |}])) 0 = 0
  /\ nth 5 (get_correct_traffic_state
              (Some [Some {| vx := 0; vy := 30; vspeed := 1 |}])) 0 = 0.
Proof.
  apply (@empty_direction_is_idle
           (Some [Some {| vx := 0; vy := 30; vspeed := 1 |}]) 1);
    [lia | reflexivity].
Defined.

(** ** More on the control loop *)

Import LoopInvariants.

Lemma choose_total (dqn_action : Z) (state : list Q) :
  List.length state = 12%nat ->
  (0 <= dqn_action <= 3)%Z ->
  exists a d,
    Actuation.choose_intelligent_action_and_duration dqn_action state
      MINIMUM_GREEN_TIME MAXIMUM_GREEN_TIME DEFAULT_GREEN_TIME = Ok (a, d)
    /\ (0 <= a <= 3)%Z.
Proof.
  intros Hlen Ha. unfold Actuation.choose_intelligent_action_and_duration.
  change [0; 3; 6; 9]%Z with [Z.of_nat 0; Z.of_nat 3; Z.of_nat 6; Z.of_nat 9].
  change [1; 4; 7; 10]%Z with [Z.of_nat 1; Z.of_nat 4; Z.of_nat 7; Z.of_nat 10].
  change [2; 5; 8; 11]%Z with [Z.of_nat 2; Z.of_nat 5; Z.of_nat 8; Z.of_nat 11].
  rewrite !gather_four by lia. cbn [bind].
  set (traffic := [nth 0 state 0; nth 3 state 0; nth 6 state 0; nth 9 state 0]).
  set (congestion := [nth 1 state 0; nth 4 state 0; nth 7 state 0; nth 10 state 0]).
  set (speeds := [nth 2 state 0; nth 5 state 0; nth 8 state 0; nth 11 state 0]).
  destruct (@index_in_range _ traffic dqn_action) as [t Ht]; [cbn; lia |].
  destruct (@index_in_range _ congestion dqn_action) as [c Hc]; [cbn; lia |].
  destruct (argmax_nonempty _ _ Ht) as [mt Hmt].
  destruct (argmax_nonempty _ _ Hc) as [mc Hmc].
  destruct (argmax_spec _ Hmt) as (vt & _ & Hvt & _).
  destruct (argmax_spec _ Hmc) as (vc & _ & Hvc & _).
  pose proof (argmax_in_range _ Hmt) as Rt. pose proof (argmax_in_range _ Hmc) as Rc.
  cbn [List.length traffic congestion] in Rt, Rc.
  rewrite (validate_unfold _ _ _ Ht Hc Hmt Hmc Hvt Hvc). cbn [bind].
  set (a := if gt t 0.05 || gt c 0.1 then dqn_action
            else if gt vt 0.05 then mt else if gt vc 0.1 then mc else dqn_action).
  assert (Hr : (0 <= a <= 3)%Z).
  { subst a. destruct (gt t 0.05 || gt c 0.1); [lia |].
    destruct (gt vt 0.05); [lia |]. destruct (gt vc 0.1); lia. }
  unfold calculate_adaptive_duration.
  destruct (@index_in_range _ traffic a) as [t' Ht']; [cbn; lia |].
  destruct (@index_in_range _ congestion a) as [c' Hc']; [cbn; lia |].
  destruct (@index_in_range _ speeds a) as [s' Hs']; [cbn; lia |].
  rewrite Ht', Hc', Hs'. cbn [bind]. eauto.
Qed.

Lemma apply_total (action : Z) (state : list Q) :
  List.length state = 12%nat ->
  (0 <= action <= 3)%Z ->
  exists phase, Actuation.apply_intelligent_action action state = Ok phase.
Proof.
  intros Hlen Ha. unfold Actuation.apply_intelligent_action.
  change [0; 3; 6; 9]%Z with [Z.of_nat 0; Z.of_nat 3; Z.of_nat 6; Z.of_nat 9].
  change [1; 4; 7; 10]%Z with [Z.of_nat 1; Z.of_nat 4; Z.of_nat 7; Z.of_nat 10].
  rewrite !gather_four by lia. cbn [bind].
  set (traffic := [nth 0 state 0; nth 3 state 0; nth 6 state 0; nth 9 state 0]).
  set (congestion := [nth 1 state 0; nth 4 state 0; nth 7 state 0; nth 10 state 0]).
  destruct (@index_in_range _ traffic action) as [t Ht]; [cbn; lia |].
  destruct (@index_in_range _ congestion action) as [c Hc]; [cbn; lia |].
  rewrite Ht, Hc. cbn [bind].
  assert (Hphase : forall d, (0 <= d <= 3)%Z ->
                             exists phase, Actuation.action_to_phase d = Ok phase).
  { intros d Hd.
    assert (d = 0 \/ d = 1 \/ d = 2 \/ d = 3)%Z as [-> | [-> | [-> | ->]]] by lia;
      cbn; eauto. }
  destruct (gt t 0.1 || gt c 0.2); [now apply Hphase |].
  destruct (argmax_nonempty _ _ Ht) as [m Hm]. rewrite Hm. cbn [bind].
  destruct (argmax_spec _ Hm) as (v & _ & Hv & _). rewrite Hv. cbn [bind].
  pose proof (argmax_in_range _ Hm) as Rm. cbn [List.length traffic] in Rm.
  destruct (gt v 0.05); apply Hphase; lia.
Qed.

Lemma sample_length {A : Type} (population : list A) (k : Z) (draw : list A) :
  (0 <= k <= Z.of_nat (List.length population))%Z ->
  exists l, sample population k draw = Ok l /\ Z.of_nat (List.length l) = k.
Proof.
  intros Hk. unfold sample.
  replace (k <? 0)%Z with false by (symmetry; apply Z.ltb_ge; lia).
  replace (Z.of_nat (List.length population) <? k)%Z with false
    by (symmetry; apply Z.ltb_ge; lia).
  cbn [orb]. eexists. split; [reflexivity |].
  destruct (Z.of_nat (List.length draw) =? k)%Z eqn:E.
  - now apply Z.eqb_eq.
  - rewrite length_firstn. lia.
Qed.

Section TrainingFacts.

Variable network : Type.
Variable fit_batch : network -> Q -> list transition -> result network.

(** Training reads the stores and leaves them as they are, whether it
    returns or raises. *)
Lemma enhanced_replay_keeps (a : EnhancedDQNAgent network) (n : Z)
    (rb ps : list transition) :
  let a' := fst (enhanced_replay fit_batch a n rb ps) in
  memory (base a') = memory (base a)
  /\ priority_memory a' = priority_memory a
  /\ performance_history a' = performance_history a
  /\ congestion_history a' = congestion_history a.
Proof.
  unfold enhanced_replay.
  destruct (Z.of_nat (len (memory (base a))) <? n)%Z; cbn [fst]; [auto |].
  match goal with |- context [sample (items (memory (base a))) ?k rb] =>
    destruct (sample (items (memory (base a))) k rb) as [regular | e] end;
    cbn [fst]; [| auto].
  match goal with |- context [if ?c then sample ?p ?k ps else Ok []] =>
    destruct (if c then sample p k ps else Ok []) as [priority | e] end;
    cbn [fst]; [| auto].
  match goal with |- context [match ?m with [] => _ | _ :: _ => _ end] =>
    destruct m end; cbn [fst]; [auto |].
  match goal with |- context [fit_batch ?n ?g ?m] =>
    destruct (fit_batch n g m) end; cbn [fst base set_base]; [| auto].
  unfold decay_epsilon. cbn.
  destruct (gt (epsilon (base a)) (epsilon_min (base a))); cbn; auto.
Qed.

(** With more than 100 transitions in the memory, the batch of 64 holds the
    32 transitions sampled from the memory, so it is not empty and training
    gets to the network. *)
Lemma enhanced_replay_64_fits (a : EnhancedDQNAgent network)
    (rb ps : list transition) :
  (100 <? len (memory (base a)))%nat = true ->
  exists minibatch,
    minibatch <> []
    /\ enhanced_replay fit_batch a 64 rb ps =
       match fit_batch (model (base a)) (gamma (base a)) minibatch with
       | Ok net => (set_base a (decay_epsilon (set_model (base a) net)), None)
       | Raise e => (a, Some e)
       end.
Proof.
  intros Hmany. apply Nat.ltb_lt in Hmany. unfold enhanced_replay.
  replace (Z.of_nat (len (memory (base a))) <? 64)%Z with false
    by (symmetry; apply Z.ltb_ge; lia).
  change (64 / 2)%Z with 32%Z. change (64 - 32)%Z with 32%Z.
  rewrite !minZ_min.
  replace (Z.min 32 (Z.of_nat (len (memory (base a))))) with 32%Z by lia.
  destruct (@sample_length _ (items (memory (base a))) 32 rb)
    as (regular & -> & Hregular); [unfold len in Hmany; lia |].
  assert (Hpriority : exists priority,
            (if (0 <? len (priority_memory a))%nat
             then sample (items (priority_memory a))
                    (Z.min 32 (Z.of_nat (len (priority_memory a)))) ps
             else Ok []) = Ok priority).
  { destruct (0 <? len (priority_memory a))%nat; [| eauto].
    destruct (@sample_length _ (items (priority_memory a))
                (Z.min 32 (Z.of_nat (len (priority_memory a)))) ps)
      as (priority & -> & _); [unfold len; lia | eauto]. }
  destruct Hpriority as (priority & ->).
  destruct regular as [| t regular]; [cbn in Hregular; lia |].
  cbn [app]. eexists. split; [| reflexivity]. discriminate.
Qed.

End TrainingFacts.

Section LoopMore.

Variable network : Type.
Variable fit_batch : network -> Q -> list transition -> network.

(** The training step of a phase switch returns. *)
Lemma loop_training_total (agent1 : EnhancedDQNAgent network) (i : tick_input) :
  exists agent2,
    (if (100 <? len (memory (base agent1)))%nat
     then
       match enhanced_replay (fun n g b => Ok (fit_batch n g b)) agent1 64
               (regular_batch i) (priority_sample i) with
       | (trained, None) => Ok trained
       | (_, Some e) => Raise e
       end
     else Ok agent1) = Ok agent2.
Proof.
  destruct (100 <? len (memory (base agent1)))%nat eqn:E; [| eauto].
  destruct (enhanced_replay_64_fits (fun n g b => Ok (fit_batch n g b)) agent1
              (regular_batch i) (priority_sample i) E) as (minibatch & _ & ->).
  eauto.
Qed.

(** A phase switch goes through unless the name [actual_duration] is
    still unbound and [setRedYellowGreenState] raises. *)
Lemma change_phase_total (s : loop_state network) (i : tick_input) (state : list Q) :
  loop_ok s ->
  List.length state = 12%nat ->
  (0 <= dqn_action i <= 3)%Z ->
  (actual_duration s = None /\ actuator i = SetStateRaises
   /\ change_phase fit_batch s i state = Raise NameError)
  \/ (~ (actual_duration s = None /\ actuator i = SetStateRaises)
      /\ exists s', change_phase fit_batch s i state = Ok s' /\ loop_ok s').
Proof.
  intros (Hprev & Hact & Hbound & _) Hlen Hdqn. unfold change_phase.
  assert (Hfirst : exists agent1 rewards1,
    match prev_state s, current_action s with
    | Some prev, Some a =>
        reward <- Reward.calculate_smart_reward prev state a ;;
        ag <- remember_priority (enhanced_agent s) (prev, a, reward, state, false) ;;
        Ok (ag, (episode_rewards s ++ [reward])%list)
    | _, _ => Ok (enhanced_agent s, episode_rewards s)
    end = Ok (agent1, rewards1)).
  { destruct (prev_state s) as [prev |] eqn:Ep; [| eauto].
    destruct (current_action s) as [a |] eqn:Ea; [| eauto].
    unfold Reward.calculate_smart_reward.
    destruct (@smart_reward_terms_total prev state a) as [terms Ht];
      [now apply Hprev | assumption | specialize (Hact a eq_refl); lia |].
    rewrite Ht. cbn [bind].
    destruct (remember_priority_fields (enhanced_agent s) prev a
                (smart_total terms) state false) as (ag & Hag & _).
    rewrite Hag. cbn [bind]. eauto. }
  destruct Hfirst as (agent1 & rewards1 & ->). cbn [bind].
  destruct (choose_total state Hlen Hdqn) as (a & d & Hchoose & Ha).
  rewrite Hchoose. cbn [bind].
  destruct (apply_total state Hlen Ha) as (phase & Hphase).
  rewrite Hphase. cbn [bind].
  destruct (loop_training_total agent1 i) as [agent2 Htrain].
  assert (Hok : forall actual d',
    actual = Some d' ->
    loop_ok {| enhanced_agent := agent2;
               step := step s;
               current_phase_start := current_time i;
               current_action := Some a;
               current_duration := d';
               prev_state := Some state;
               actual_duration := actual;
               episode_rewards := rewards1;
               congestion_levels := congestion_levels s |}).
  { intros actual d' ->. unfold loop_ok. cbn. repeat split;
      try (intros p [= <-]; exact Hlen);
      try (match goal with H : Some _ = Some _ |- _ => injection H as <- end; lia);
      intros; discriminate. }
  cbv zeta. destruct (actuator i) eqn:Eact.
  - destruct (actual_duration s) as [d0 |] eqn:Ed.
    + right. split; [intros [H _]; discriminate |].
      cbn [bind]. rewrite Htrain. cbn [bind].
      eexists. split; [reflexivity |]. now apply Hok.
    + left. auto.
  - right. split; [intros [_ H]; discriminate |].
    cbn [bind]. rewrite Htrain. cbn [bind].
    eexists. split; [reflexivity |]. now apply Hok.
  - right. split; [intros [_ H]; discriminate |].
    cbn [bind]. rewrite Htrain. cbn [bind].
    eexists. split; [reflexivity |]. now apply Hok.
Qed.

Lemma tick_total (s : loop_state network) (i : tick_input) :
  loop_ok s ->
  (0 <= dqn_action i <= 3)%Z ->
  (should_change_phase s (current_time i) = true
   /\ actual_duration s = None /\ actuator i = SetStateRaises
   /\ tick fit_batch s i = Raise NameError)
  \/ (~ (should_change_phase s (current_time i) = true
         /\ actual_duration s = None /\ actuator i = SetStateRaises)
      /\ exists s', tick fit_batch s i = Ok s' /\ loop_ok s'
                    /\ (current_action s <> None -> current_action s' <> None)).
Proof.
  intros Hok Hdqn. unfold tick.
  set (s0 := {| enhanced_agent := enhanced_agent s; step := step s + 1;
                current_phase_start := current_phase_start s;
                current_action := current_action s;
                current_duration := current_duration s;
                prev_state := prev_state s; actual_duration := actual_duration s;
                episode_rewards := episode_rewards s;
                congestion_levels := congestion_levels s |}).
  assert (Hok0 : loop_ok s0) by exact Hok.
  change (should_change_phase s0 (current_time i))
    with (should_change_phase s (current_time i)).
  set (state := Normalizer.get_correct_traffic_state (vehicles i)).
  assert (Hlen : List.length state = 12%nat) by apply state_length.
  assert (Htrack : forall s1 : loop_state network,
            loop_ok s1 ->
            exists s',
              (if (step s1 mod 100 =? 0)%Z
               then Ok {| enhanced_agent := enhanced_agent s1; step := step s1;
                          current_phase_start := current_phase_start s1;
                          current_action := current_action s1;
                          current_duration := current_duration s1;
                          prev_state := prev_state s1;
                          actual_duration := actual_duration s1;
                          episode_rewards := episode_rewards s1;
                          congestion_levels :=
                            (congestion_levels s1 ++
                             [if (4 <? List.length state)%nat
                              then sum (slice_step 1 4 state) else 0])%list |}
               else Ok s1) = Ok s'
              /\ loop_ok s' /\ current_action s' = current_action s1).
  { intros s1 H1. destruct (step s1 mod 100 =? 0)%Z; eexists;
      (split; [reflexivity |]); split; first [exact H1 | reflexivity]. }
  destruct (should_change_phase s (current_time i)) eqn:Esw.
  - destruct (@change_phase_total s0 i state Hok0 Hlen Hdqn)
      as [(Hnone & Hact & Hraise) | (Hnot & s1 & Hs1 & Hok1)].
    + left. fold state. rewrite Hraise. auto.
    + right. split; [intros (_ & H1 & H2); apply Hnot; auto |].
      fold state. rewrite Hs1. cbn [bind].
      destruct (Htrack s1 Hok1) as (s' & Hs' & Hok' & Hact').
      exists s'. split; [assumption |]. split; [assumption |].
      intros _. rewrite Hact'.
      apply change_phase_timing in Hs1.
      destruct Hs1 as (a & d & Ha & _). congruence.
  - right. split; [intros (H & _); discriminate |]. cbn [bind].
    destruct (Htrack s0 Hok0) as (s' & Hs' & Hok' & Hact').
    exists s'. split; [assumption |]. split; [assumption |].
    now rewrite Hact'.
Qed.

Lemma run_total (ticks : list tick_input) (s : loop_state network) :
  loop_ok s -> current_action s <> None ->
  Forall (fun i => (0 <= dqn_action i <= 3)%Z) ticks ->
  exists s', run fit_batch s ticks = Ok s' /\ loop_ok s'.
Proof.
  intros Hok Hact Hall. revert s Hok Hact.
  induction Hall as [| i rest Hi _ IH]; intros s Hok Hact; cbn [run]; [eauto |].
  destruct (@tick_total s i Hok Hi) as [(_ & Hnone & _) | (_ & s1 & Hs1 & Hok1 & Hact1)].
  - exfalso. destruct Hok as (_ & _ & Hbound & _). now apply Hbound.
  - rewrite Hs1. cbn [bind]. apply IH; auto.
Qed.

(** X13.  With actions in 0..3 from the agent (and the simulator's step and
    clock calls and the training step returning), the loop raises in one
    case only: when [setRedYellowGreenState] raises in the first iteration, the
    name [actual_duration] is still unbound at [current_duration =
    actual_duration] and the loop ends with a NameError.  If the first
    iteration gets past that call, no later iteration raises, whatever the
    vehicles, the clock and the traffic light do; and the action the loop
    then holds is a direction in 0..3. *)
Theorem loop_stops_only_at_first_switch (net0 : network) (first : tick_input)
    (rest : list tick_input) :
  Forall (fun i => (0 <= dqn_action i <= 3)%Z) (first :: rest) ->
  (actuator first = SetStateRaises ->
   run fit_batch (initial net0) (first :: rest) = Raise NameError)
  /\ (actuator first <> SetStateRaises ->
      exists s a,
        run fit_batch (initial net0) (first :: rest) = Ok s
        /\ current_action s = Some a /\ (0 <= a <= 3)%Z).
Proof.
  intros Hall. inversion Hall as [| ? ? Hfirst Hrest]; subst.
  assert (Hok0 : loop_ok (initial net0)).
  { unfold loop_ok. cbn. repeat split; intros; first [discriminate | congruence]. }
  cbn [run].
  destruct (@tick_total (initial net0) first Hok0 Hfirst)
    as [(_ & _ & Hact & Hraise) | (Hnot & s1 & Hs1 & Hok1 & _)].
  - split; [intros _; now rewrite Hraise | congruence].
  - split.
    + intros Hact. exfalso. apply Hnot. repeat split; assumption.
    + intros _. rewrite Hs1. cbn [bind].
      assert (Hact1 : current_action s1 <> None).
      { apply tick_timing in Hs1.
        destruct Hs1 as [(Hsw & _) | (_ & a & d & Ha & _)]; [discriminate | congruence]. }
      destruct (@run_total rest s1 Hok1 Hact1 Hrest) as (s & Hs & Hok).
      assert (Hact' : current_action s <> None).
      { clear - Hact1 Hs Hrest Hok1. revert s1 Hok1 Hact1 Hs.
        induction Hrest as [| i r Hi _ IH]; intros s1 Hok1 Hact1; cbn [run].
        - now intros [= <-].
        - destruct (@tick_total s1 i Hok1 Hi)
            as [(_ & _ & _ & Hr) | (_ & s2 & Hs2 & Hok2 & Hact2)].
          + rewrite Hr. discriminate.
          + rewrite Hs2. cbn [bind]. apply IH; auto. }
      destruct (current_action s) as [a |] eqn:Ea; [| congruence].
      exists s, a. repeat split; try assumption; now apply Hok.
Qed.

End LoopMore.

Lemma loop_stops_only_at_first_switch_witness :
  run Scenarios.keep_batch (initial tt)
    [{| current_time := 1; vehicles := Scenarios.busy_north; dqn_action := 0;
        actuator := SetStateRaises; regular_batch := []; priority_sample := [] |};
     Scenarios.tick_at 2 Scenarios.busy_north]
  = Raise NameError.
Proof.
  apply (@loop_stops_only_at_first_switch unit Scenarios.keep_batch tt).
  - repeat constructor; cbn; lia.
  - reflexivity.
Defined.

Lemma map_lastn {A B : Type} (f : A -> B) (n : Z) (h : list A) :
  map f (lastn n h) = lastn n (map f h).
Proof. unfold lastn. now rewrite length_map, skipn_map. Qed.

Lemma lastn_short {A : Type} (n : Z) (h : list A) :
  (Z.of_nat (List.length h) <= n)%Z -> lastn n h = h.
Proof.
  intros H. unfold lastn.
  replace (Z.to_nat (Z.of_nat (List.length h) - n)) with 0%nat by lia. reflexivity.
Qed.

Section LoopStores.

Variable network : Type.
Variable fit_batch : network -> Q -> list transition -> network.

Lemma change_phase_stores (s s' : loop_state network) (i : tick_input)
    (state : list Q) :
  List.length state = 12%nat ->
  stores_mirror s ->
  change_phase fit_batch s i state = Ok s' ->
  stores_mirror s'.
Proof.
  intros Hlen (Hprev & Pm & Pi & Mm & (h & Mi & Mh) & Ci & Eps). unfold change_phase.
  assert (Hfirst : forall agent1 rewards1,
    match prev_state s, current_action s with
    | Some prev, Some a =>
        reward <- Reward.calculate_smart_reward prev state a ;;
        ag <- remember_priority (enhanced_agent s) (prev, a, reward, state, false) ;;
        Ok (ag, (episode_rewards s ++ [reward])%list)
    | _, _ => Ok (enhanced_agent s, episode_rewards s)
    end = Ok (agent1, rewards1) ->
    maxlen (performance_history agent1) = 100%Z
    /\ items (performance_history agent1) = lastn 100 rewards1
    /\ maxlen (memory (base agent1)) = 10000%Z
    /\ (exists h1, items (memory (base agent1)) = lastn 10000 h1
                   /\ map reward_of h1 = rewards1)
    /\ items (congestion_history agent1) = []
    /\ epsilon (base agent1) = epsilon (base (enhanced_agent s))
    /\ (List.length (episode_rewards s) <= List.length rewards1)%nat).
  { intros agent1 rewards1.
    destruct (prev_state s) as [prev |] eqn:Ep;
      [| intros [= <- <-]; repeat split; eauto].
    destruct (current_action s) as [a |] eqn:Ea;
      [| intros [= <- <-]; repeat split; eauto].
    destruct (Reward.calculate_smart_reward prev state a) as [reward |];
      [| discriminate]. cbn [bind].
    destruct (remember_priority_fields (enhanced_agent s) prev a reward state false)
      as (ag & Hag & Hm & Hp & _ & Hc & He & _).
    rewrite Hag. cbn [bind]. intros [= <- <-].
    rewrite (Hprev prev eq_refl) in Hc. cbn in Hc.
    rewrite Hm, Hp, Hc, He.
    split; [exact Pm |]. split.
    { rewrite <- Pm. apply append_lastn; rewrite Pm; [lia | exact Pi]. }
    split; [exact Mm |]. split.
    { exists (h ++ [(prev, a, reward, state, false)])%list. split.
      - rewrite <- Mm. apply append_lastn; rewrite Mm; [lia | exact Mi].
      - rewrite map_app, Mh. reflexivity. }
    split; [exact Ci |]. split; [reflexivity |].
    rewrite length_app. cbn. lia. }
  match goal with |- context [bind ?m _] => destruct m as [[agent1 rewards1] |] eqn:E1 end;
    [| discriminate].
  specialize (Hfirst _ _ eq_refl).
  destruct Hfirst as (Pm1 & Pi1 & Mm1 & (h1 & Mi1 & Mh1) & Ci1 & Ee & Hgrow).
  cbn [bind].
  destruct (Actuation.choose_intelligent_action_and_duration _ _ _ _ _)
    as [[action duration] |]; [| discriminate]. cbn [bind].
  destruct (Actuation.apply_intelligent_action _ _); [| discriminate]. cbn [bind].
  cbv zeta.
  match goal with |- context [bind ?m _] => destruct m as [new_duration |] end;
    [| discriminate].
  cbn [bind].
  match goal with |- context [bind ?m _] => destruct m as [agent2 |] eqn:Etrain end;
    [| discriminate].
  cbn [bind]. intros [= <-].
  assert (Hkeep : memory (base agent2) = memory (base agent1)
                  /\ performance_history agent2 = performance_history agent1
                  /\ congestion_history agent2 = congestion_history agent1).
  { destruct (100 <? len (memory (base agent1)))%nat;
      [| injection Etrain as <-; auto].
    pose proof (enhanced_replay_keeps (fun n g b => Ok (fit_batch n g b)) agent1 64
                  (regular_batch i) (priority_sample i)) as K.
    destruct (enhanced_replay (fun n g b => Ok (fit_batch n g b)) agent1 64
                (regular_batch i) (priority_sample i)) as [trained [e |]];
      [discriminate |].
    injection Etrain as <-. cbn [fst] in K. destruct K as (K1 & _ & K3 & K4). auto. }
  destruct Hkeep as (K1 & K3 & K4).
  unfold stores_mirror. cbn. rewrite K1, K3, K4.
  split; [intros p [= <-]; exact Hlen |].
  repeat (split; [first [assumption | eauto] |]).
  intros Hfew.
  assert (Hno : (100 <? len (memory (base agent1)))%nat = false).
  { apply Nat.ltb_ge. unfold len. rewrite Mi1.
    rewrite lastn_short.
    - apply (f_equal (@List.length Q)) in Mh1. rewrite length_map in Mh1. lia.
    - apply (f_equal (@List.length Q)) in Mh1. rewrite length_map in Mh1. lia. }
  rewrite Hno in Etrain. injection Etrain as <-.
  rewrite Ee. apply Eps. lia.
Qed.

Lemma tick_stores (s s' : loop_state network) (i : tick_input) :
  stores_mirror s -> tick fit_batch s i = Ok s' -> stores_mirror s'.
Proof.
  intros Hs. unfold tick.
  set (s0 := {| enhanced_agent := enhanced_agent s; step := step s + 1;
                current_phase_start := current_phase_start s;
                current_action := current_action s;
                current_duration := current_duration s;
                prev_state := prev_state s; actual_duration := actual_duration s;
                episode_rewards := episode_rewards s;
                congestion_levels := congestion_levels s |}).
  assert (Hs0 : stores_mirror s0) by exact Hs.
  set (state := Normalizer.get_correct_traffic_state (vehicles i)).
  assert (Hlen : List.length state = 12%nat) by apply state_length.
  assert (H1 : forall s1, (if should_change_phase s0 (current_time i)
                           then change_phase fit_batch s0 i state else Ok s0) = Ok s1 ->
                          stores_mirror s1).
  { intros s1. destruct (should_change_phase s0 (current_time i)).
    - now apply change_phase_stores.
    - now intros [= <-]. }
  destruct (if should_change_phase s0 (current_time i)
            then change_phase fit_batch s0 i state else Ok s0) as [s1 |];
    [| discriminate].
  specialize (H1 s1 eq_refl). cbn [bind].
  destruct (step s1 mod 100 =? 0)%Z; intros [= <-]; exact H1.
Qed.

(** X14.  In every state the loop reaches from its initial state: the
    agent's performance history holds the last 100 of the rewards the loop
    has collected and the rewards in its memory are the last 10000 of
    them, in the same order; the congestion history is still empty (the
    loop's states have twelve features); and as long as at most 100 rewards
    have been collected the exploration rate is still 0.9, since training
    starts only when the memory holds more than 100 transitions. *)
Theorem loop_stores (net0 : network) (ticks : list tick_input)
    (s : loop_state network) :
  run fit_batch (initial net0) ticks = Ok s ->
  items (performance_history (enhanced_agent s)) = lastn 100 (episode_rewards s)
  /\ map reward_of (items (memory (base (enhanced_agent s))))
     = lastn 10000 (episode_rewards s)
  /\ items (congestion_history (enhanced_agent s)) = []
  /\ ((List.length (episode_rewards s) <= 100)%nat ->
      epsilon (base (enhanced_agent s)) = 0.9).
Proof.
  intros Hrun.
  assert (H0 : stores_mirror (initial net0)).
  { unfold stores_mirror. cbn. repeat split; try discriminate.
    exists []. split; reflexivity. }
  assert (H : stores_mirror s).
  { revert H0 Hrun. generalize (initial net0).
    induction ticks as [| i rest IH]; intros s0 H0; cbn [run].
    - now intros [= <-].
    - destruct (tick fit_batch s0 i) as [s1 |] eqn:E; [| discriminate]. cbn [bind].
      apply IH. eapply tick_stores; eauto. }
  destruct H as (_ & _ & Pi & _ & (h & Mi & Mh) & Ci & Eps).
  repeat split; try assumption.
  rewrite Mi, map_lastn, Mh. reflexivity.
Qed.

End LoopStores.

Lemma loop_stores_witness :
  exists s,
    run Scenarios.keep_batch (initial tt) (Scenarios.every_second 12) = Ok s
    /\ List.length (episode_rewards s) = 1%nat
    /\ items (performance_history (enhanced_agent s)) = lastn 100 (episode_rewards s)
    /\ items (congestion_history (enhanced_agent s)) = [].
Proof.
  destruct (run Scenarios.keep_batch (initial tt) (Scenarios.every_second 12))
    as [s |] eqn:Erun; [| vm_compute in Erun; discriminate].
  exists s. split; [reflexivity |].
  destruct (@loop_stores unit Scenarios.keep_batch tt _ s Erun) as (H1 & _ & H3 & _).
  split; [| split; assumption].
  vm_compute in Erun. injection Erun as <-. reflexivity.
Defined.

(** ** States read from the edges *)

Import Sensors.

Lemma edge_features_length (r : option edge_reading) :
  List.length (edge_features r) = 4%nat.
Proof. destruct r; reflexivity. Qed.

Lemma enhanced_state_length (edges : list (option edge_reading)) :
  List.length (get_enhanced_state edges) = (4 * List.length edges)%nat.
Proof.
  unfold get_enhanced_state.
  induction edges as [| r rest IH]; cbn [flat_map List.length]; [reflexivity |].
  rewrite length_app, edge_features_length, IH. lia.
Qed.

Lemma enhanced_state_nth (edges : list (option edge_reading)) (k j : nat)
    (r : option edge_reading) :
  nth_error edges k = Some r -> (j < 4)%nat ->
  nth (4 * k + j) (get_enhanced_state edges) 0 = nth j (edge_features r) 0.
Proof.
  unfold get_enhanced_state. revert k.
  induction edges as [| e rest IH]; intros k Hk Hj; [destruct k; discriminate |].
  cbn [flat_map]. destruct k as [| k]; cbn [nth_error] in Hk.
  - injection Hk as ->. rewrite app_nth1 by (rewrite edge_features_length; lia).
    f_equal.
  - rewrite app_nth2 by (rewrite edge_features_length; lia).
    rewrite edge_features_length.
    replace (4 * S k + j - 4)%nat with (4 * k + j)%nat by lia.
    now apply IH.
Qed.

Lemma min_one_unit (x : Q) : 0 <= x -> unit_interval (minQ x 1.0).
Proof.
  intros Hx. unfold minQ, min, unit_interval.
  destruct (lt 1.0 x) eqn:E; tests_to_props; lra.
Qed.

Lemma inject_nonneg (n : Z) : (0 <= n)%Z -> 0 <= inject_Z n.
Proof. intros H. change 0 with (inject_Z 0). now rewrite <- Zle_Qle. Qed.

(** X15.  The state of [get_enhanced_state] has four features per edge, in
    the order of the edges.  An edge whose reads fail contributes four
    zeros.  For an edge read with counts that are not negative, the
    vehicle-count and halting features are in [0, 1]; the congestion level
    is in [0, 1] when no more vehicles halt than are present; the speed
    feature is in [0, 1] when the mean speed is between 0 and the positive
    speed limit. *)
Theorem enhanced_state_features (edges : list (option edge_reading)) :
  List.length (get_enhanced_state edges) = (4 * List.length edges)%nat
  /\ forall k r, nth_error edges k = Some r ->
       let f := fun j => nth (4 * k + j) (get_enhanced_state edges) 0 in
       match r with
       | None => f 0%nat = 0 /\ f 1%nat = 0 /\ f 2%nat = 0 /\ f 3%nat = 0
       | Some e =>
           (0 <= vehicle_count e)%Z -> (0 <= halting_count e)%Z ->
           unit_interval (f 0%nat) /\ unit_interval (f 1%nat)
           /\ ((halting_count e <= vehicle_count e)%Z -> unit_interval (f 3%nat))
           /\ (0 <= mean_speed e -> mean_speed e <= max_speed e ->
               0 < max_speed e -> unit_interval (f 2%nat))
       end.
Proof.
  split; [apply enhanced_state_length |].
  intros k r Hk f. subst f. cbv beta.
  rewrite !(fun j => @enhanced_state_nth edges k j r Hk) by lia.
  destruct r as [e |]; cbn [edge_features nth]; [| repeat split].
  intros Hv Hh.
  pose proof (inject_nonneg Hv) as Qv. pose proof (inject_nonneg Hh) as Qh.
  split; [apply min_one_unit; apply Qle_shift_div_l; lra |].
  split; [apply min_one_unit; apply Qle_shift_div_l; lra |].
  split.
  - intros Hle. rewrite maxZ_max.
    assert (Hpos : 0 < inject_Z (Z.max (vehicle_count e) 1)).
    { change 0 with (inject_Z 0). rewrite <- Zlt_Qlt. lia. }
    assert (Hhm : inject_Z (halting_count e) <= inject_Z (Z.max (vehicle_count e) 1)).
    { rewrite <- Zle_Qle. lia. }
    split; [apply Qle_shift_div_l; lra | apply Qle_shift_div_r; lra].
  - intros Hm0 Hm1 Hpos.
    rewrite (proj2 (gt_true (max_speed e) 0)) by assumption.
    split; [apply Qle_shift_div_l; lra | apply Qle_shift_div_r; lra].
Qed.

Lemma enhanced_state_features_witness :
  unit_interval
    (nth 4 (get_enhanced_state
              [None; Some {| vehicle_count := 30; halting_count := 3;
                             mean_speed := 5; max_speed := 10 |}]) 0).
Proof.
  destruct (enhanced_state_features
              [None; Some {| vehicle_count := 30; halting_count := 3;
                             mean_speed := 5; max_speed := 10 |}]) as [_ H].
  specialize (H 1%nat _ eq_refl). cbv beta zeta in H.
  apply H; cbn; lia.
Defined.

Section DurationLayout.

Variable network : Type.

(** X16.  The subscripts of [choose_phase_duration] fit the four-per-edge
    layout: on the state of [get_enhanced_state] for four edges and a
    direction [k] in 0..3 it reads the vehicle-count and halting features
    of edge [k] and never reaches its [except] clause.  On a twelve-feature
    state, such as the control loop's, direction 3 reads position 12 and
    always gets the default from the [except] clause. *)
Theorem choose_phase_duration_layout (a : EnhancedDQNAgent network) :
  min_phase_duration a = 5%Z ->
  max_phase_duration a = 45%Z ->
  default_duration a = 15%Z ->
  (forall edges k r,
      List.length edges = 4%nat -> nth_error edges k = Some r ->
      let count := nth 0 (edge_features r) 0 in
      let halting := nth 1 (edge_features r) 0 in
      choose_phase_duration a (get_enhanced_state edges) (Z.of_nat k)
      = Ok (if gt count 0.7 then (if gt halting 0.5 then 45 else 25)
            else if gt count 0.3 then 15 else 5)%Z)
  /\ (forall state,
        List.length state = 12%nat ->
        index state (3 * 4) = Raise IndexError
        /\ choose_phase_duration a state 3 = Ok 15%Z).
Proof.
  intros Hmin Hmax Hdef. split.
  - intros edges k r Hlen Hk count halting.
    assert (Hk4 : (k < 4)%nat).
    { rewrite <- Hlen. apply nth_error_Some. congruence. }
    pose proof (enhanced_state_length edges) as Hst. rewrite Hlen in Hst.
    unfold choose_phase_duration. rewrite Hmin, Hmax, Hdef.
    replace (Z.of_nat k * 4)%Z with (Z.of_nat (4 * k + 0)) by lia.
    replace (Z.of_nat (4 * k + 0) + 1)%Z with (Z.of_nat (4 * k + 1)) by lia.
    replace (Z.of_nat (4 * k + 0) + 2)%Z with (Z.of_nat (4 * k + 2)) by lia.
    rewrite !index_nth by lia. cbn [bind].
    rewrite !(fun j => @enhanced_state_nth edges k j r Hk) by lia.
    replace (18 <? List.length (get_enhanced_state edges))%nat with false
      by (symmetry; apply Nat.ltb_ge; lia).
    fold count halting. cbn [try_except].
    destruct (gt count 0.7), (gt halting 0.5), (gt count 0.3); reflexivity.
  - intros state Hlen.
    assert (H12 : index state (3 * 4) = Raise IndexError).
    { change (3 * 4)%Z with (Z.of_nat 12). rewrite index_nat_cases, Hlen. reflexivity. }
    split; [exact H12 |].
    unfold choose_phase_duration. rewrite H12, Hdef. reflexivity.
Qed.

End DurationLayout.

Lemma choose_phase_duration_layout_witness :
  choose_phase_duration (EnhancedDQNAgent_init tt 12 4)
    [0.8; 0.6; 0.5; 0.1; 0; 0.9; 0; 0; 0; 0; 0; 0] 3 = Ok 15%Z.
Proof.
  destruct (@choose_phase_duration_layout unit (EnhancedDQNAgent_init tt 12 4)
              eq_refl eq_refl eq_refl) as [_ H].
  apply H. reflexivity.
Defined.

Lemma clamp_pressure (x : Q) :
  - (1) <= maxQ (- 1.0) (minQ 1.0 x) /\ maxQ (- 1.0) (minQ 1.0 x) <= 1.
Proof.
  unfold maxQ, minQ, max, min.
  destruct (lt x 1.0) eqn:E1; destruct (gt _ (- 1.0)) eqn:E2; tests_to_props;
    split; lra.
Qed.

Lemma filter_nil_existsb {A : Type} (f : A -> bool) (l : list A) :
  filter f l = [] <-> existsb f l = false.
Proof.
  induction l as [| x l IH]; cbn; [tauto |].
  destruct (f x); cbn; [split; discriminate | exact IH].
Qed.

(** X17.  When one of its additional reads raises, [get_comprehensive_state]
    returns the state of [get_enhanced_state] unchanged, three features
    shorter.  Otherwise it appends three features to it: the pressure
    clamped to [-1, 1], the remaining phase time over 30 (not clamped), and
    the share of priority vehicles in [0, 1], which is 0 exactly when no
    vehicle identifier contains "emergency" or "bus". *)
Theorem comprehensive_state_shape (edges : list (option edge_reading))
    (counts : list (option Z)) (junction : option junction_reading) :
  let st := get_comprehensive_state edges counts junction in
  let n := (4 * List.length edges)%nat in
  match junction with
  | None => st = get_enhanced_state edges
  | Some j =>
      List.length st = (n + 3)%nat
      /\ firstn n st = get_enhanced_state edges
      /\ - (1) <= nth n st 0 /\ nth n st 0 <= 1
      /\ nth (n + 1) st 0 = (next_switch j - sim_time j) / 30.0
      /\ unit_interval (nth (n + 2) st 0)
      /\ (nth (n + 2) st 0 == 0 <-> existsb is_priority (vehicle_ids j) = false)
  end.
Proof.
  intros st n. subst st n. destruct junction as [j |]; [| reflexivity].
  unfold get_comprehensive_state.
  pose proof (enhanced_state_length edges) as Hlen.
  set (basic := get_enhanced_state edges) in *.
  set (k := List.length (filter is_priority (vehicle_ids j))).
  rewrite <- Hlen.
  split; [rewrite length_app; cbn; lia |].
  split; [rewrite firstn_app, Nat.sub_diag, firstn_all; cbn; apply app_nil_r |].
  rewrite !app_nth2 by lia.
  replace (List.length basic - List.length basic)%nat with 0%nat by lia.
  replace (List.length basic + 1 - List.length basic)%nat with 1%nat by lia.
  replace (List.length basic + 2 - List.length basic)%nat with 2%nat by lia.
  cbn [nth].
  split; [apply clamp_pressure |]. split; [apply clamp_pressure |].
  split; [reflexivity |].
  assert (Hk : 0 <= inject_Z (Z.of_nat k)) by (apply inject_nonneg; lia).
  split; [apply min_one_unit; apply Qle_shift_div_l; lra |].
  rewrite <- filter_nil_existsb. fold k.
  unfold minQ, min.
  split.
  - intros H0. destruct (filter is_priority (vehicle_ids j)) as [| x l] eqn:E;
      [reflexivity |]. exfalso.
    assert (H1 : 1 <= inject_Z (Z.of_nat k)).
    { change 1 with (inject_Z 1). rewrite <- Zle_Qle. subst k. cbn [List.length]. lia. }
    assert (Hd : 0.2 <= inject_Z (Z.of_nat k) / 5.0) by (apply Qle_shift_div_l; lra).
    destruct (lt 1.0 (inject_Z (Z.of_nat k) / 5.0)); lra.
  - intros E. subst k. rewrite E. reflexivity.
Qed.

Lemma comprehensive_state_shape_witness :
  List.length
    (get_comprehensive_state [None; None; None; None] [Some 9; Some 9; Some 1; Some 1]%Z
       (Some {| next_switch := 40; sim_time := 25;
                vehicle_ids := ["emergency_3"%string] |})) = 19%nat
  /\ ~ nth 18
        (get_comprehensive_state [None; None; None; None]
           [Some 9; Some 9; Some 1; Some 1]%Z
           (Some {| next_switch := 40; sim_time := 25;
                    vehicle_ids := ["emergency_3"%string] |})) 0 == 0.
Proof.
  pose proof (comprehensive_state_shape [None; None; None; None]
                [Some 9; Some 9; Some 1; Some 1]%Z
                (Some {| next_switch := 40; sim_time := 25;
                         vehicle_ids := ["emergency_3"%string] |})) as H.
  cbv zeta in H. destruct H as (Hlen & _ & _ & _ & _ & _ & Hz).
  split; [exact Hlen |].
  intros H0. apply Hz in H0. discriminate.
Defined.

Lemma pressure_loop_some (vals : list Z) (i : nat) (inc out : Z) :
  pressure_loop (map Some vals) i inc out =
  Some (inc + fold_right Z.add 0 (firstn (2 - i) vals)
        - (out + fold_right Z.add 0 (skipn (2 - i) vals)))%Z.
Proof.
  revert i inc out. induction vals as [| v rest IH]; intros i inc out;
    cbn [map pressure_loop].
  - destruct (2 - i)%nat; cbn; f_equal; lia.
  - destruct (i <? 2)%nat eqn:E; rewrite IH.
    + apply Nat.ltb_lt in E.
      replace (2 - i)%nat with (S (2 - S i)) by lia. cbn [firstn skipn fold_right].
      f_equal. lia.
    + apply Nat.ltb_ge in E.
      replace (2 - i)%nat with 0%nat by lia. replace (2 - S i)%nat with 0%nat by lia.
      cbn [firstn skipn fold_right]. f_equal. lia.
Qed.

Lemma pressure_loop_none (counts : list (option Z)) (i : nat) (inc out : Z) :
  In None counts -> pressure_loop counts i inc out = None.
Proof.
  revert i inc out. induction counts as [| c rest IH]; intros i inc out; [intros []|].
  intros [-> | H]; cbn [pressure_loop]; [reflexivity |].
  destruct c; [| reflexivity]. destruct (i <? 2)%nat; now apply IH.
Qed.

(** X18.  [get_junction_pressure] is the vehicles on the first two edges
    minus the vehicles on all the edges after them; as soon as one read
    raises, it is 0. *)
Theorem junction_pressure_value :
  (forall vals : list Z,
      get_junction_pressure (map Some vals)
      = (fold_right Z.add 0 (firstn 2 vals) - fold_right Z.add 0 (skipn 2 vals))%Z)
  /\ (forall counts, In None counts -> get_junction_pressure counts = 0%Z).
Proof.
  split.
  - intros vals. unfold get_junction_pressure. rewrite pressure_loop_some.
    cbn [Nat.sub]. f_equal.
  - intros counts H. unfold get_junction_pressure.
    now rewrite pressure_loop_none.
Qed.

Lemma junction_pressure_value_witness :
  get_junction_pressure [Some 3; None; Some 4; Some 1]%Z = 0%Z.
Proof.
  apply (proj2 junction_pressure_value). right. now left.
Defined.

Lemma emergency_scan_first (edges : list (option (list string))) (i0 : Z) :
  match emergency_scan edges i0 with
  | Some i =>
      exists k ids,
        i = (i0 + Z.of_nat k)%Z
        /\ nth_error edges k = Some (Some ids)
        /\ existsb is_priority ids = true
        /\ forall j ids', (j < k)%nat -> nth_error edges j = Some (Some ids') ->
                          existsb is_priority ids' = false
  | None =>
      forall k ids, nth_error edges k = Some (Some ids) ->
                    existsb is_priority ids = false
  end.
Proof.
  revert i0. induction edges as [| e rest IH]; intros i0; cbn [emergency_scan].
  - intros k ids H. destruct k; discriminate.
  - assert (Hshift : match emergency_scan rest (i0 + 1) with
      | Some i =>
          (forall ids0, e = Some ids0 -> existsb is_priority ids0 = false) ->
          exists k ids,
            i = (i0 + Z.of_nat k)%Z
            /\ nth_error (e :: rest) k = Some (Some ids)
            /\ existsb is_priority ids = true
            /\ forall j ids', (j < k)%nat -> nth_error (e :: rest) j = Some (Some ids') ->
                              existsb is_priority ids' = false
      | None =>
          (forall ids0, e = Some ids0 -> existsb is_priority ids0 = false) ->
          forall k ids, nth_error (e :: rest) k = Some (Some ids) ->
                        existsb is_priority ids = false
      end).
    { specialize (IH (i0 + 1)%Z). destruct (emergency_scan rest (i0 + 1)) as [i |].
      - intros He. destruct IH as (k & ids & Hi & Hk & Hp & Hfirst).
        exists (S k), ids. repeat split; try assumption; [lia |].
        intros j ids' Hj Hn. destruct j as [| j]; cbn in Hn.
        + injection Hn as ->. now apply He.
        + apply (Hfirst j); [lia | assumption].
      - intros He k ids Hn. destruct k as [| k]; cbn in Hn.
        + injection Hn as ->. now apply He.
        + now apply (IH k). }
    destruct e as [ids0 |].
    + destruct (existsb is_priority ids0) eqn:E.
      * exists 0%nat, ids0. repeat split; try assumption; [lia |].
        intros j ids' Hj. lia.
      * destruct (emergency_scan rest (i0 + 1)); apply Hshift;
          intros ids1 [= <-]; exact E.
    + destruct (emergency_scan rest (i0 + 1)); apply Hshift; intros ids1; discriminate.
Qed.

(** X19.  [get_emergency_priority_action] returns the position of the
    first edge whose vehicle list could be read and holds a vehicle with
    "emergency" or "bus" in its identifier; edges whose read raises are
    passed over; it returns None exactly when no readable edge holds such a
    vehicle. *)
Theorem emergency_action_first (edges : list (option (list string))) :
  match get_emergency_priority_action edges with
  | Some i =>
      exists k ids,
        i = Z.of_nat k
        /\ nth_error edges k = Some (Some ids)
        /\ existsb is_priority ids = true
        /\ forall j ids', (j < k)%nat -> nth_error edges j = Some (Some ids') ->
                          existsb is_priority ids' = false
  | None =>
      forall k ids, nth_error edges k = Some (Some ids) ->
                    existsb is_priority ids = false
  end.
Proof.
  unfold get_emergency_priority_action.
  pose proof (emergency_scan_first edges 0) as H.
  destruct (emergency_scan edges 0); [| exact H].
  destruct H as (k & ids & Hi & H). exists k, ids. split; [lia | exact H].
Qed.

Lemma emergency_action_first_witness :
  get_emergency_priority_action
    [Some ["car_1"%string]; None; Some ["veh_7"; "City_BUS_12"]%string] = Some 2%Z
  /\ exists k ids,
       nth_error [Some ["car_1"%string]; None; Some ["veh_7"; "City_BUS_12"]%string] k
       = Some (Some ids)
       /\ existsb is_priority ids = true.
Proof.
  split; [reflexivity |].
  pose proof (emergency_action_first
                [Some ["car_1"%string]; None; Some ["veh_7"; "City_BUS_12"]%string])
    as H.
  change (get_emergency_priority_action
            [Some ["car_1"%string]; None; Some ["veh_7"; "City_BUS_12"]%string])
    with (Some 2%Z) in H.
  destruct H as (k & ids & _ & Hk & Hp & _). eauto.
Defined.

(** ** The reward of the basic agent *)

Lemma sum_reads_some (l : list Q) (acc : Q) :
  sum_reads (map Some l) acc = Some (fold_left Qplus l acc).
Proof.
  revert acc. induction l as [| x l IH]; intros acc; cbn; [reflexivity | apply IH].
Qed.

Lemma sum_reads_none (reads : list (option Q)) (acc : Q) :
  In None reads -> sum_reads reads acc = None.
Proof.
  revert acc. induction reads as [| r rest IH]; intros acc; [intros [] |].
  intros [-> | H]; cbn; [reflexivity |]. destruct r; [now apply IH | reflexivity].
Qed.

Lemma fold_nonneg (l : list Q) (acc : Q) :
  Forall (fun x => 0 <= x) l -> acc <= fold_left Qplus l acc.
Proof.
  intros H. revert acc. induction H as [| x l Hx _ IH]; intros acc; cbn.
  - apply Qle_refl.
  - eapply Qle_trans; [| apply IH]. lra.
Qed.

(** X20.  [get_reward] is never positive when the waiting times and queue
    lengths read are not negative: it is minus their total.  When any read
    raises it returns 0, the largest value it can take. *)
Theorem get_reward_sign :
  (forall (ws : list Q) (qs : list Z),
      Forall (fun w => 0 <= w) ws -> Forall (fun q => (0 <= q)%Z) qs ->
      get_reward (map Some ws) (map Some qs)
      = - (fold_left Qplus ws 0 + fold_left Qplus (map inject_Z qs) 0)
      /\ get_reward (map Some ws) (map Some qs) <= 0)
  /\ (forall waits queues,
        In None waits \/ In None queues -> get_reward waits queues = 0).
Proof.
  split.
  - intros ws qs Hw Hq. unfold get_reward.
    rewrite sum_reads_some, map_map. cbn [option_map].
    rewrite <- (map_map inject_Z Some), sum_reads_some.
    split; [reflexivity |].
    pose proof (fold_nonneg 0 Hw) as H1.
    assert (Hq' : Forall (fun x => 0 <= x) (map inject_Z qs)).
    { apply Forall_map. eapply Forall_impl; [| exact Hq].
      intros q Hq0. now apply inject_nonneg. }
    pose proof (fold_nonneg 0 Hq') as H2. lra.
  - intros waits queues [H | H]; unfold get_reward.
    + now rewrite sum_reads_none.
    + destruct (sum_reads waits 0); [| reflexivity].
      rewrite sum_reads_none; [reflexivity |].
      apply in_map_iff. exists None. auto.
Qed.

Lemma get_reward_sign_witness :
  get_reward [Some 12; Some 0.5] [Some 3; Some 0]%Z <= 0
  /\ get_reward [Some 12; None] [Some 3; Some 0]%Z = 0.
Proof.
  destruct get_reward_sign as [Hsum Hfail]. split.
  - apply (Hsum [12; 0.5] [3; 0]%Z); repeat constructor; try discriminate; lia.
  - apply Hfail. left. right. now left.
Defined.

(** ** Choosing an action *)

Section ActFacts.

Variable network : Type.
Variable forward : network -> list Q -> list Q.

(** X21.  When the network gives one value per action and the random draw
    is a valid action, [act] returns a valid action.  It returns the
    random draw whenever the uniform draw is at most epsilon, so an agent
    with epsilon at least 1, as a fresh [DQNAgent], never asks the network;
    above epsilon it returns the first action of largest value. *)
Theorem act_in_range (a : DQNAgent network) (state : list Q) (u : Q) (r : Z) :
  (0 <= r < action_size a)%Z ->
  Z.of_nat (List.length (forward (model a) state)) = action_size a ->
  (exists k, Policy.act forward a state u r = Ok k /\ (0 <= k < action_size a)%Z)
  /\ (u <= epsilon a -> Policy.act forward a state u r = Ok r)
  /\ (epsilon a < u ->
      exists k v,
        Policy.act forward a state u r = Ok k
        /\ max_direction (forward (model a) state) k v).
Proof.
  intros Hr Hlen. unfold Policy.act.
  assert (Hne : exists k, argmax (forward (model a) state) = Ok k).
  { destruct (forward (model a) state) as [| x l]; [cbn in Hlen; lia | cbn; eauto]. }
  destruct Hne as [k Hk].
  pose proof (argmax_in_range _ Hk) as Rk.
  destruct (argmax_spec _ Hk) as (v & Hk0 & Hv & Hmax).
  repeat split.
  - destruct (ge (epsilon a) u); [exists r; auto |]. exists k. split; [exact Hk | lia].
  - intros Hu. now rewrite (proj2 (ge_true (epsilon a) u)).
  - intros Hu. rewrite (proj2 (ge_false (epsilon a) u)) by assumption.
    exists k, v. repeat split; assumption.
Qed.

End ActFacts.

Lemma act_in_range_witness :
  Policy.act (fun (_ : unit) (_ : list Q) => [0.1; 0.7; 0.7; 0.2])
    (DQNAgent_init tt 8 4) [0; 0; 0; 0; 0; 0; 0; 0] 0.999 3 = Ok 3%Z.
Proof.
  apply (@act_in_range unit (fun _ _ => [0.1; 0.7; 0.7; 0.2]) (DQNAgent_init tt 8 4)
           [0; 0; 0; 0; 0; 0; 0; 0] 0.999 3).
  - cbn. lia.
  - reflexivity.
  - discriminate.
Defined.

(** ** The green times of the control loop *)

(** X23.  With the loop's constants (minimum 10, maximum 45, default 15),
    whatever the traffic, congestion and speed of the direction, the green
    time [calculate_adaptive_duration] returns is one of 10, 12, 15, 18, 21,
    27, 32, 36 and 45 seconds. *)
Theorem loop_green_times (action : Z) (traffic congestion speeds : list Q) (d : Z) :
  calculate_adaptive_duration action traffic congestion speeds
    MINIMUM_GREEN_TIME MAXIMUM_GREEN_TIME DEFAULT_GREEN_TIME = Ok d ->
  In d [10; 12; 15; 18; 21; 27; 32; 36; 45]%Z.
Proof.
  unfold calculate_adaptive_duration.
  destruct (index traffic action) as [t |]; [| discriminate].
  destruct (index congestion action) as [c |]; [| discriminate].
  destruct (index speeds action) as [s |]; [| discriminate].
  cbn [bind]. intros [= <-].
  destruct (gt t 0.7 || gt c 0.6) eqn:E1.
  { destruct (gt s 0.7); [vm_compute; tauto |].
    destruct (lt s 0.3 && gt t 0.1); vm_compute; tauto. }
  destruct (gt t 0.3 || gt c 0.3) eqn:E2.
  { destruct (gt s 0.7); [vm_compute; tauto |].
    destruct (lt s 0.3 && gt t 0.1); vm_compute; tauto. }
  destruct (gt t 0.05) eqn:E3.
  { destruct (gt s 0.7); [vm_compute; tauto |].
    destruct (lt s 0.3 && gt t 0.1); vm_compute; tauto. }
  destruct (gt s 0.7); [vm_compute; tauto |].
  assert (E4 : gt t 0.1 = false) by (tests_to_props; apply gt_false; lra).
  rewrite E4, andb_false_r. vm_compute. tauto.
Qed.

Lemma loop_green_times_witness :
  In 32%Z [10; 12; 15; 18; 21; 27; 32; 36; 45]%Z.
Proof.
  apply (@loop_green_times 0 [0.5; 0; 0; 0] [0; 0; 0; 0] [0.2; 0; 0; 0] 32).
  reflexivity.
Defined.
